(** * Minegate relay server: a shallow embedding of [server.js]

    The relay keeps a registry of connected Minecraft servers, validates
    the JSON frames they send and routes them.  This development models
    the connection handler, the message codec, the registry and the stale
    reaper of [server.js] as Rocq functions and proves the properties the
    specification states about them.

    Layout: JavaScript values; the platform (Node built-ins the program
    calls); the message codec; the registry; the handlers and the event
    loop; a concrete platform to evaluate on; the theorems. *)

From Stdlib Require Import ZArith QArith Qabs Lia.
From stdpp Require Import base option list strings gmap pretty.

Local Open Scope Z_scope.
Local Set Warnings "-register-all".

(** ** JavaScript values *)

(** A JavaScript number: a finite value (every double is a rational; the
    two zeros are not told apart, which no operation of the program
    does), an infinity, or NaN.  [JSON.parse] yields no NaN, but it does
    yield an infinity on a literal such as [1e999]. *)
Inductive number :=
  | NaN
  | Finite (q : Q)
  | Infinite (negative : bool).

(** What [JSON.parse] returns.  An object holds its own properties, each
    key once, in enumeration order. *)
Inductive json :=
  | JNull
  | JBool (b : bool)
  | JNum (n : number)
  | JStr (s : string)
  | JArr (items : list json)
  | JObj (props : list (string * json)).

(** A frame as [JSON.parse] reads it: [None] when [JSON.parse] throws. *)
Definition frame := option json.

Definition num (z : Z) : json := JNum (Finite (inject_Z z)).

(** [o[name]] in an association list of own properties. *)
Fixpoint assoc {A} (name : string) (props : list (string * A)) : option A :=
  match props with
  | [] => None
  | (k, v) :: rest => if String.eqb k name then Some v else assoc name rest
  end.

(** [v.name] for one of the names the program reads ([type], [id],
    [from], [to], [timestamp], [signature], [payload], [request_id],
    [readyState], [send]): [None] is [undefined].  Only an object has
    such a property; on [null] the access throws, which the callers
    handle before they get here. *)
Definition getProp (name : string) (v : json) : option json :=
  match v with
  | JObj props => assoc name props
  | _ => None
  end.

Definition number_truthy (n : number) : bool :=
  match n with
  | NaN => false
  | Finite q => negb (Qeq_bool q 0)
  | Infinite _ => true
  end.

(** JavaScript truthiness, the test behind [!x], [x || y] and [if (x)]. *)
Definition truthy (v : json) : bool :=
  match v with
  | JNull => false
  | JBool b => b
  | JNum n => number_truthy n
  | JStr s => negb (String.eqb s "")
  | JArr _ | JObj _ => true
  end.

(** Truthiness of a property that may be [undefined].  This is the
    program's test for a field being present: an absent field, [null],
    [false], [0] and the empty string all count as not present. *)
Definition present (field : option json) : bool :=
  match field with
  | Some v => truthy v
  | None => false
  end.

(** [v === s] and [v !== s] for a string [s]. *)
Definition strictEqStr (v : option json) (s : string) : bool :=
  match v with
  | Some (JStr s') => String.eqb s' s
  | _ => false
  end.

(** [v === z] for an integer [z]. *)
Definition strictEqNum (v : option json) (z : Z) : bool :=
  match v with
  | Some (JNum (Finite q)) => Qeq_bool q (inject_Z z)
  | _ => false
  end.

(** *** Dates *)

(** A [Date]'s time value: milliseconds since the epoch, [None] for an
    invalid date. *)
Definition Date := option Z.

(** ECMAScript's TimeClip after ToNumber: beyond 8.64e15 ms the date is
    invalid, otherwise the value is truncated toward zero. *)
Definition TimeClip (n : number) : Date :=
  match n with
  | Finite q =>
      if Qle_bool (Qabs q) (inject_Z 8640000000000000)
      then Some (Z.quot (Qnum q) (Z.pos (Qden q)))
      else None
  | _ => None
  end.

(** *** Expressions that can throw *)

(** The value of an expression, or the [TypeError] its evaluation
    throws. *)
Inductive completion (A : Type) :=
  | Returns (a : A)
  | Throws.
Arguments Returns {A} a.
Arguments Throws {A}.

#[global] Instance completion_ret : MRet completion := λ A a, Returns a.
#[global] Instance completion_bind : MBind completion := λ A B f c,
  match c with
  | Returns a => f a
  | Throws => Throws
  end.

(** ** Registry entries *)

(** A connection: the [ws] object of one accepted socket. *)
Definition socket := nat.

(** [WebSocket.CONNECTING], [OPEN], [CLOSING], [CLOSED]. *)
Definition CONNECTING : nat := 0%nat.
Definition OPEN : nat := 1%nat.
Definition CLOSING : nat := 2%nat.
Definition CLOSED : nat := 3%nat.

(** A time field of an entry: the [Date] the relay stored, or whatever a
    registration payload put in its place. *)
Inductive timeval :=
  | TDate (t : Z)
  | TJson (v : json).

(** The [ws] field of an entry: the socket the relay stored, or whatever
    a registration payload put in its place. *)
Inductive handle :=
  | WSock (ws : socket)
  | WJson (v : json).

(** The [serverInfo] object.  The six fields are those of the object
    literal in the connection handler; [others] holds the properties a
    registration payload added.  [version] is [None] when the header was
    missing ([undefined]). *)
Module ServerInfo.
Record t := {
  serverId : json;
  version : option json;
  capabilities : json;
  connected : timeval;
  lastSeen : timeval;
  ws : handle;
  others : gmap string json
}.
End ServerInfo.
Abbreviation ServerInfo := ServerInfo.t.

(** ** The platform: the Node built-ins the program calls *)

Class Platform := {
  (** [process.env.SHARED_SECRET || 'default-secret-change-me'] *)
  SHARED_SECRET : string;
  (** [crypto.createHmac('sha256', key).update(data).digest('base64')] *)
  hmac_sha256_base64 : string → string → string;
  (** [JSON.stringify] *)
  JSON_stringify : json → string;
  (** Number::toString *)
  NumberToString : number → string;
  (** StringToNumber, the string case of ToNumber *)
  StringToNumber : string → number;
  (** [Date.parse]: [None] when the string is no date *)
  Date_parse : string → Date;
  (** [Date.prototype.toISOString] of a valid date *)
  toISOString : Z → string;
  (** [crypto.randomUUID()]: the identifiers it hands out, in order *)
  randomUUID : nat → string
}.

Section Codec.
Context {P : Platform}.

(** ToString of a JSON value, as a template literal and ToPrimitive apply
    it.  An array joins its elements with commas, [null] elements as the
    empty string.  A plain object is ["[object Object]"], unless it has
    an own property [toString]: that property is no function, and the
    inherited [valueOf] returns the object, so ToPrimitive throws. *)
Fixpoint ToString (v : json) : completion string :=
  match v with
  | JNull => Returns "null"
  | JBool true => Returns "true"
  | JBool false => Returns "false"
  | JNum n => Returns (NumberToString n)
  | JStr s => Returns s
  | JArr items =>
      let element (x : json) :=
        match x with JNull => Returns "" | _ => ToString x end in
      (fix join (l : list json) : completion string :=
         match l with
         | [] => Returns ""
         | [x] => element x
         | x :: rest =>
             first ← element x; others ← join rest;
             Returns (first +:+ "," +:+ others)
         end) items
  | JObj props =>
      match assoc "toString" props with
      | Some _ => Throws
      | None => Returns "[object Object]"
      end
  end.

(** [`${x}`] for a property that may be [undefined]. *)
Definition template (field : option json) : completion string :=
  match field with
  | Some v => ToString v
  | None => Returns "undefined"
  end.

(** ToNumber of a JSON value. *)
Definition ToNumber (v : json) : completion number :=
  match v with
  | JNull => Returns (Finite 0)
  | JBool true => Returns (Finite 1)
  | JBool false => Returns (Finite 0)
  | JNum n => Returns n
  | JStr s => Returns (StringToNumber s)
  | JArr _ | JObj _ => s ← ToString v; Returns (StringToNumber s)
  end.

(** [new Date(v)] for a property [v]: a string is parsed, an object is
    first turned into a string, anything else is read as a number of
    milliseconds.  [new Date(undefined)] is invalid. *)
Definition new_Date (field : option json) : completion Date :=
  match field with
  | None => Returns None
  | Some (JStr s) => Returns (Date_parse s)
  | Some (JArr _ as v) | Some (JObj _ as v) => s ← ToString v; Returns (Date_parse s)
  | Some v => n ← ToNumber v; Returns (TimeClip n)
  end.

(** ** Message codec *)

Inductive validation :=
  | Valid (message : json)
  | Invalid (error : string).

(** [x || {}] *)
Definition orEmptyObject (field : option json) : json :=
  match field with
  | Some v => if truthy v then v else JObj []
  | None => JObj []
  end.

(** [signMessage]: the HMAC of [type|timestamp|from|to|payload]. *)
Definition signMessage (message : json) : completion string :=
  type ← template (getProp "type" message);
  timestamp ← template (getProp "timestamp" message);
  from ← template (getProp "from" message);
  to ← template (getProp "to" message);
  let payload :=
    type +:+ "|" +:+ timestamp +:+ "|" +:+ from +:+ "|" +:+ to +:+ "|" +:+
    JSON_stringify (orEmptyObject (getProp "payload" message)) in
  Returns (hmac_sha256_base64 SHARED_SECRET payload).

(** [Math.abs(now - messageTime) / 1000 / 60], in minutes; [None] is NaN.
    The quotient is taken in the rationals: for time values, which are
    integers, the double-precision quotient is on the same side of 5. *)
Definition timeDiff (now : Z) (messageTime : Date) : option Q :=
  match messageTime with
  | Some t => Some (Qabs (inject_Z (now - t)) / inject_Z 1000 / inject_Z 60)%Q
  | None => None
  end.

(** [x > 5]; false on NaN. *)
Definition greaterThan5 (x : option Q) : bool :=
  match x with
  | Some q => negb (Qle_bool q (inject_Z 5))
  | None => false
  end.

(** [validateMessage], with [now] the clock at receipt.  The [catch]
    turns every exception into ['Invalid JSON']: the syntax error of
    [JSON.parse], the type error of reading a property of [null], and
    the type error of a conversion to a string. *)
Definition validateMessage (now : Z) (message : frame) : validation :=
  match message with
  | None => Invalid "Invalid JSON"
  | Some JNull => Invalid "Invalid JSON"
  | Some parsed =>
      if negb (present (getProp "type" parsed))
         || negb (present (getProp "id" parsed))
         || negb (present (getProp "from" parsed))
         || negb (present (getProp "to" parsed))
         || negb (present (getProp "timestamp" parsed))
      then Invalid "Missing required fields"
      else
        match new_Date (getProp "timestamp" parsed) with
        | Throws => Invalid "Invalid JSON"
        | Returns messageTime =>
            if greaterThan5 (timeDiff now messageTime)
            then Invalid "Message timestamp too old"
            else
              if present (getProp "signature" parsed)
              then
                match signMessage parsed with
                | Throws => Invalid "Invalid JSON"
                | Returns expectedSignature =>
                    if negb (strictEqStr (getProp "signature" parsed)
                                         expectedSignature)
                    then Invalid "Invalid signature"
                    else Valid parsed
                end
              else Valid parsed
        end
  end.

End Codec.

(** ** Strings, as the connection handler uses them *)

Fixpoint isPrefix (p s : string) : bool :=
  match p, s with
  | EmptyString, _ => true
  | String a p', String b s' => if Ascii.eqb a b then isPrefix p' s' else false
  | String _ _, EmptyString => false
  end.

Fixpoint dropChars (n : nat) (s : string) : string :=
  match n, s with
  | S n', String _ s' => dropChars n' s'
  | _, _ => s
  end.

(** [s.replace(pattern, replacement)] for a string pattern: the first
    occurrence only. *)
Fixpoint String_replace (pattern replacement s : string) : string :=
  if isPrefix pattern s
  then replacement +:+ dropChars (String.length pattern) s
  else match s with
       | EmptyString => EmptyString
       | String c s' => String c (String_replace pattern replacement s')
       end.

(** The separator [','] *)
Definition comma : Ascii.ascii := Ascii.ascii_of_nat 44.

(** [s.split(sep)] for a one-character separator. *)
Fixpoint String_split (sep : Ascii.ascii) (s : string) : list string :=
  match s with
  | EmptyString => [EmptyString]
  | String c s' =>
      if Ascii.eqb c sep then EmptyString :: String_split sep s'
      else match String_split sep s' with
           | [] => [String c EmptyString]
           | w :: ws => String c w :: ws
           end
  end.

(** Truthiness of a header that may be missing. *)
Definition truthyStr (h : option string) : bool :=
  match h with
  | Some s => negb (String.eqb s "")
  | None => false
  end.

(** ** The registry *)

(** [o[name] = v] on a [serverInfo] object. *)
Definition setProp (name : string) (v : json) (o : ServerInfo) : ServerInfo :=
  let '(ServerInfo.Build_t serverId version capabilities connected lastSeen ws others) := o in
  if String.eqb name "serverId" then
    ServerInfo.Build_t v version capabilities connected lastSeen ws others
  else if String.eqb name "version" then
    ServerInfo.Build_t serverId (Some v) capabilities connected lastSeen ws others
  else if String.eqb name "capabilities" then
    ServerInfo.Build_t serverId version v connected lastSeen ws others
  else if String.eqb name "connected" then
    ServerInfo.Build_t serverId version capabilities (TJson v) lastSeen ws others
  else if String.eqb name "lastSeen" then
    ServerInfo.Build_t serverId version capabilities connected (TJson v) ws others
  else if String.eqb name "ws" then
    ServerInfo.Build_t serverId version capabilities connected lastSeen (WJson v) others
  else
    ServerInfo.Build_t serverId version capabilities connected lastSeen ws
      (<[name := v]> others).

(** [serverInfo.lastSeen = new Date()]. *)
Definition touch (now : Z) (o : ServerInfo) : ServerInfo :=
  let '(ServerInfo.Build_t serverId version capabilities connected _ ws others) := o in
  ServerInfo.Build_t serverId version capabilities connected (TDate now) ws others.

Fixpoint chars (s : string) : list string :=
  match s with
  | EmptyString => []
  | String c s' => String c EmptyString :: chars s'
  end.

(** The own enumerable properties of [Object(source)], which is what
    [Object.assign] copies: an object's properties, an array's elements
    and a string's characters under their indices, nothing for a number
    or a boolean. *)
Definition ownProperties (source : json) : list (string * json) :=
  match source with
  | JObj props => props
  | JArr items => imap (λ i x, (pretty i, x)) items
  | JStr s => imap (λ i c, (pretty i, JStr c)) (chars s)
  | _ => []
  end.

(** [Object.assign(target, source)] on a [serverInfo] target.  The
    properties the relay never reads are kept in [others]; a source key
    [__proto__] is among them, as it creates no own property the relay
    reads. *)
Definition Object_assign (target : ServerInfo) (source : json) : ServerInfo :=
  foldl (λ o kv, setProp kv.1 kv.2 o) target (ownProperties source).

(** [connectedServers], a JavaScript [Map] from server id to
    [serverInfo]: the entries in insertion order, each key once. *)
Definition Map := list (string * ServerInfo).

Definition Map_get (key : string) (m : Map) : option ServerInfo := assoc key m.

Definition Map_has (key : string) (m : Map) : bool :=
  match Map_get key m with Some _ => true | None => false end.

(** [m.set(key, value)]: a key already there keeps its place. *)
Fixpoint Map_set (key : string) (value : ServerInfo) (m : Map) : Map :=
  match m with
  | [] => [(key, value)]
  | (k, v) :: rest =>
      if String.eqb k key then (key, value) :: rest
      else (k, v) :: Map_set key value rest
  end.

Fixpoint Map_delete (key : string) (m : Map) : Map :=
  match m with
  | [] => []
  | (k, v) :: rest =>
      if String.eqb k key then Map_delete key rest
      else (k, v) :: Map_delete key rest
  end.

Definition Map_size (m : Map) : nat := length m.

(** A lookup under a key taken from a message.  The keys of the registry
    are strings, so a key of another type finds nothing. *)
Definition Map_get_json (key : option json) (m : Map) : option ServerInfo :=
  match key with
  | Some (JStr s) => Map_get s m
  | _ => None
  end.

(** ** The relay's state and effects *)

Record World := {
  (** the registry *)
  connectedServers : Map;
  (** [ws.readyState] of every socket, [CLOSED] when not listed *)
  readyState : gmap socket nat;
  (** the sockets whose [message] and [close] listeners are installed,
      with the [serverId] their closures captured *)
  sessions : gmap socket string;
  (** how many identifiers [crypto.randomUUID] has handed out *)
  issued : nat
}.

Inductive effect :=
  (** [ws.send(JSON.stringify(message))]: the call; what the library
      does with it on a socket that is closing or closed is not the
      relay's code *)
  | Send (to : socket) (message : json)
  (** [ws.close(code, reason)] *)
  | CloseSocket (on : socket) (code : Z) (reason : string).

(** A handler either returns, or throws an exception nothing catches,
    which ends the process ([uncaughtException]); the effects performed
    until then are kept. *)
Inductive outcome (A : Type) :=
  | Done (a : A) (w : World) (out : list effect)
  | Threw (out : list effect).
Arguments Done {A} a w out.
Arguments Threw {A} out.

Definition M (A : Type) : Type := World → outcome A.

#[global] Instance M_ret : MRet M := λ A a w, Done a w [].
#[global] Instance M_bind : MBind M := λ A B f m w,
  match m w with
  | Done a w' out =>
      match f a w' with
      | Done b w'' out' => Done b w'' (out ++ out')
      | Threw out' => Threw (out ++ out')
      end
  | Threw out => Threw out
  end.

Definition throw {A} : M A := λ _, Threw [].

(** An expression evaluated inside a handler: its exception is the
    handler's. *)
Definition eval {A} (c : completion A) : M A :=
  match c with
  | Returns a => mret a
  | Throws => throw
  end.
Definition emit (e : effect) : M unit := λ w, Done () w [e].
Definition gets {A} (f : World → A) : M A := λ w, Done (f w) w [].
Definition skip : M unit := λ w, Done () w [].
Definition getWorld : M World := λ w, Done w w [].
Definition modify (f : World → World) : M unit := λ w, Done () (f w) [].

Definition setRegistry (m : Map) (w : World) : World :=
  {| connectedServers := m; readyState := readyState w;
     sessions := sessions w; issued := issued w |}.
Definition setReadyState (s : socket) (st : nat) (w : World) : World :=
  {| connectedServers := connectedServers w;
     readyState := <[s := st]> (readyState w);
     sessions := sessions w; issued := issued w |}.
Definition setSessions (f : gmap socket string → gmap socket string) (w : World) : World :=
  {| connectedServers := connectedServers w; readyState := readyState w;
     sessions := f (sessions w); issued := issued w |}.
Definition nextIssued (w : World) : World :=
  {| connectedServers := connectedServers w; readyState := readyState w;
     sessions := sessions w; issued := S (issued w) |}.

Definition readyStateOf (s : socket) (w : World) : nat :=
  default CLOSED (readyState w !! s).

(** [for (x of l) body(x)] *)
Fixpoint forEach {A} (body : A → M unit) (l : list A) : M unit :=
  match l with
  | [] => skip
  | x :: rest => body x ;; forEach body rest
  end.

Section Relay.
Context {P : Platform}.

(** ** Codec, continued: messages the relay builds *)

(** [createMessage(type, from, to, payload)] at clock [now]. *)
Definition createMessage (now : Z) (type from to : string) (payload : json)
  : M json :=
  n ← gets issued;
  modify nextIssued ;;
  let message :=
    [("type", JStr type);
     ("id", JStr (randomUUID n));
     ("timestamp", JStr (toISOString now));
     ("from", JStr from);
     ("to", JStr to);
     ("payload", orEmptyObject (Some payload))] in
  signature ← eval (signMessage (JObj message));
  mret (JObj (message ++ [("signature", JStr signature)])).

(** ** Sending *)

(** What [serverInfo.ws.readyState === WebSocket.OPEN] followed by
    [serverInfo.ws.send(...)] comes to, by the value of the [ws] field. *)
Inductive probe :=
  | IsOpen (s : socket)
  | NotOpen
  | TypeError.

Definition probeHandle (w : World) (h : handle) : probe :=
  match h with
  | WSock s => if Nat.eqb (readyStateOf s w) OPEN then IsOpen s else NotOpen
  | WJson JNull => TypeError
  | WJson v =>
      (* no JSON value is a function: [send] cannot be called *)
      if strictEqNum (getProp "readyState" v) 1 then TypeError else NotOpen
  end.

(** [serverInfo.ws.send(JSON.stringify(message))], with no look at
    [readyState]. *)
Definition sendOn (h : handle) (message : json) : M unit :=
  match h with
  | WSock s => emit (Send s message)
  | WJson _ => throw
  end.

(** [broadcastToAll(message, excludeServerId)]; [None] is the default
    [null], which no key equals. *)
Definition broadcastToAll (message : json) (excludeServerId : option string)
  : M unit :=
  servers ← gets connectedServers;
  forEach (λ entry : string * ServerInfo,
    let (serverId, serverInfo) := entry in
    if match excludeServerId with
       | Some x => String.eqb serverId x
       | None => false
       end
    then skip
    else
      w ← getWorld;
      match probeHandle w (ServerInfo.ws serverInfo) with
      | IsOpen s => emit (Send s message)
      | NotOpen => skip
      | TypeError => throw
      end) servers.

(** [sendToServer(targetServerId, message)], the target given by the
    entry the caller's lookup found. *)
Definition sendToEntry (target : option ServerInfo) (message : json) : M bool :=
  match target with
  | Some serverInfo =>
      w ← getWorld;
      match probeHandle w (ServerInfo.ws serverInfo) with
      | IsOpen s => emit (Send s message) ;; mret true
      | NotOpen => mret false
      | TypeError => throw
      end
  | None => mret false
  end.

(** [sendToServer] under a key taken from a message. *)
Definition sendToServer_json (targetServerId : option json) (message : json)
  : M bool :=
  servers ← gets connectedServers;
  sendToEntry (Map_get_json targetServerId servers) message.

(** [sendToServer] under a string key. *)
Definition sendToServer (targetServerId : string) (message : json) : M bool :=
  servers ← gets connectedServers;
  sendToEntry (Map_get targetServerId servers) message.

(** ** Message handlers *)

Definition handleHeartbeat (now : Z) (serverId : string) (message : json)
  : M unit :=
  size ← gets (λ w, Map_size (connectedServers w));
  response ← createMessage now "heartbeat_ack" "relay" serverId
    (JObj [("server_time", JStr (toISOString now));
           ("connected_servers", num (Z.of_nat size))]);
  servers ← gets connectedServers;
  match Map_get serverId servers with
  | Some serverInfo => sendOn (ServerInfo.ws serverInfo) response
  | None => skip
  end.

Definition handleServerRegister (serverId : string) (message : json)
  : M unit :=
  servers ← gets connectedServers;
  match Map_get serverId servers, getProp "payload" message with
  | Some serverInfo, Some payload =>
      if truthy payload
      then modify (setRegistry
                     (Map_set serverId (Object_assign serverInfo payload) servers))
      else skip
  | _, _ => skip
  end.

(** The payload of the relay's failed [teleport_response]. *)
Definition teleportFailure (message : json) (code text : string) : json :=
  JObj (match getProp "id" message with
        | Some i => [("request_id", i)]
        | None => []
        end ++
        [("status", JStr "failed");
         ("error_code", JStr code);
         ("message", JStr text)]).

Definition handleTeleportRequest (now : Z) (serverId : string) (message : json)
  : M unit :=
  let targetServerId := getProp "to" message in
  servers ← gets connectedServers;
  match Map_get_json targetServerId servers with
  | Some _ =>
      success ← sendToServer_json targetServerId message;
      if (success : bool) then skip
      else
        target ← eval (template targetServerId);
        errorMessage ← createMessage now "teleport_response" "relay" serverId
          (teleportFailure message "TARGET_UNAVAILABLE"
             ("Target server " +:+ target +:+ " is not available"));
        sendToServer serverId errorMessage ;; skip
  | None =>
      target ← eval (template targetServerId);
      errorMessage ← createMessage now "teleport_response" "relay" serverId
        (teleportFailure message "SERVER_NOT_FOUND"
           ("Target server " +:+ target +:+ " not found"));
      sendToServer serverId errorMessage ;; skip
  end.

(** [message.payload.request_id] throws when there is no payload. *)
Definition handleTeleportResponse (serverId : string) (message : json)
  : M unit :=
  match getProp "payload" message with
  | None | Some JNull => throw
  | Some _ => broadcastToAll message (Some serverId)
  end.

Definition handleStatusUpdate (serverId : string) (message : json) : M unit :=
  if strictEqStr (getProp "to" message) "broadcast"
  then broadcastToAll message (Some serverId)
  else skip.

(** The [switch] on [message.type]. *)
Definition dispatch (now : Z) (serverId : string) (message : json) : M unit :=
  let type := getProp "type" message in
  if strictEqStr type "heartbeat" then handleHeartbeat now serverId message
  else if strictEqStr type "server_register" then handleServerRegister serverId message
  else if strictEqStr type "teleport_request" then handleTeleportRequest now serverId message
  else if strictEqStr type "teleport_response" then handleTeleportResponse serverId message
  else if strictEqStr type "status_update" then handleStatusUpdate serverId message
  else skip.

(** [if (connectedServers.has(serverId)) connectedServers.get(serverId).lastSeen = new Date()] *)
Definition touchLastSeen (now : Z) (serverId : string) : M unit :=
  servers ← gets connectedServers;
  match Map_get serverId servers with
  | Some serverInfo => modify (setRegistry (Map_set serverId (touch now serverInfo) servers))
  | None => skip
  end.

(** The log line [`Message from ${serverId}: ${message.type} ->
    ${message.to}`].  What is logged is not modelled; that the template
    converts [type] and [to] to strings, and may throw doing so, is. *)
Definition logMessage (message : json) : M unit :=
  eval (template (getProp "type" message)) ;;
  eval (template (getProp "to" message)) ;;
  skip.

(** The [message] listener of the connection [(ws, serverId)]. *)
Definition onMessage (now : Z) (ws : socket) (serverId : string) (data : frame)
  : M unit :=
  match validateMessage now data with
  | Invalid error =>
      errorMessage ← createMessage now "error" "relay" serverId
        (JObj [("error_code", JStr "INVALID_MESSAGE");
               ("error_message", JStr error)]);
      emit (Send ws errorMessage)
  | Valid message =>
      logMessage message ;;
      touchLastSeen now serverId ;;
      dispatch now serverId message
  end.

(** The [close] listener of a connection that registered as [serverId]. *)
Definition onClose (now : Z) (serverId : string) : M unit :=
  modify (λ w, setRegistry (Map_delete serverId (connectedServers w)) w) ;;
  departMessage ← createMessage now "server_update" "relay" "broadcast"
    (JObj [("action", JStr "leave");
           ("server", JObj [("serverId", JStr serverId);
                            ("status", JStr "offline")])]);
  broadcastToAll departMessage None.

(** The [error] listener only logs. *)
Definition onError (serverId : string) : M unit := skip.

(** ** Admission *)

Record headers := {
  authorization : option string;
  x_minegate_server_id : option string;
  x_minegate_version : option string;
  x_minegate_capabilities : option string
}.

(** [server.lastSeen.toISOString()]: a type error unless the field still
    holds a [Date]. *)
Definition lastSeenISO (server : ServerInfo) : M string :=
  match ServerInfo.lastSeen server with
  | TDate t => mret (toISOString t)
  | TJson _ => throw
  end.

(** One element of the welcome list. *)
Definition publicView (server : ServerInfo) : M json :=
  iso ← lastSeenISO server;
  mret (JObj [("serverId", ServerInfo.serverId server);
              ("capabilities", ServerInfo.capabilities server);
              ("lastSeen", JStr iso);
              ("status", JStr "online")]).

(** [l.map(f)] for an [f] that may throw. *)
Fixpoint mapM {A B} (f : A → M B) (l : list A) : M (list B) :=
  match l with
  | [] => mret []
  | x :: rest => y ← f x; ys ← mapM f rest; mret (y :: ys)
  end.

(** [Array.from(connectedServers.values()).filter(server => server.serverId !== serverId)] *)
Definition otherServers (serverId : string) (m : Map) : list ServerInfo :=
  List.filter (λ server, negb (strictEqStr (Some (ServerInfo.serverId server)) serverId))
              (List.map snd m).

(** The body of [wss.on('connection', (ws, req) => ...)].  A header that
    passed the truthiness test is a string; [default] unwraps it. *)
Definition onConnection (now : Z) (ws : socket) (req : headers) : M unit :=
  let auth := authorization req in
  let serverId := x_minegate_server_id req in
  let version := x_minegate_version req in
  let capabilities := x_minegate_capabilities req in
  if negb (truthyStr auth) || negb (truthyStr serverId)
  then
    emit (CloseSocket ws 1008 "Missing authentication or server ID") ;;
    modify (setReadyState ws CLOSING)
  else
    let auth := default "" auth in
    let serverId := default "" serverId in
    let token := String_replace "Bearer " "" auth in
    if (String.length token <? 10)%nat
    then
      emit (CloseSocket ws 1008 "Invalid token") ;;
      modify (setReadyState ws CLOSING)
    else
      let serverInfo :=
        {| ServerInfo.serverId := JStr serverId;
           ServerInfo.version := JStr <$> version;
           ServerInfo.capabilities :=
             JArr (if truthyStr capabilities
                   then JStr <$> String_split comma (default "" capabilities)
                   else []);
           ServerInfo.connected := TDate now;
           ServerInfo.lastSeen := TDate now;
           ServerInfo.ws := WSock ws;
           ServerInfo.others := ∅ |} in
      modify (λ w, setRegistry (Map_set serverId serverInfo (connectedServers w)) w) ;;
      servers ← gets connectedServers;
      serverList ← mapM publicView (otherServers serverId servers);
      welcomeMessage ← createMessage now "server_list" "relay" serverId
        (JObj [("servers", JArr serverList)]);
      emit (Send ws welcomeMessage) ;;
      newServerMessage ← createMessage now "server_update" "relay" "broadcast"
        (JObj [("action", JStr "join");
               ("server", JObj [("serverId", JStr serverId);
                                ("capabilities", ServerInfo.capabilities serverInfo);
                                ("lastSeen", JStr (toISOString now));
                                ("status", JStr "online")])]);
      broadcastToAll newServerMessage (Some serverId) ;;
      modify (setSessions (insert ws serverId)).

(** ** The stale reaper *)

(** [now - x > timeout] for numbers, false on NaN. *)
Definition elapsedOver (now : Z) (x : number) (timeout : Z) : bool :=
  match x with
  | NaN => false
  | Finite q => negb (Qle_bool (inject_Z now - q) (inject_Z timeout))
  | Infinite negative => negative
  end.

(** ToNumber of the [lastSeen] field: a [Date] gives its time value. *)
Definition lastSeenNumber (serverInfo : ServerInfo) : completion number :=
  match ServerInfo.lastSeen serverInfo with
  | TDate t => Returns (Finite (inject_Z t))
  | TJson v => ToNumber v
  end.

(** [now - serverInfo.lastSeen > timeout] *)
Definition stale (now : Z) (serverInfo : ServerInfo) : completion bool :=
  let timeout := 5 * 60 * 1000 in
  x ← lastSeenNumber serverInfo;
  Returns (elapsedOver now x timeout).

(** The [forEach] of the interval callback: deleting the entry under
    visit leaves the rest of the iteration as it was. *)
Fixpoint sweep (now : Z) (m : Map) : completion Map :=
  match m with
  | [] => Returns []
  | (serverId, serverInfo) :: rest =>
      old ← stale now serverInfo;
      rest' ← sweep now rest;
      Returns (if (old : bool) then rest' else (serverId, serverInfo) :: rest')
  end.

(** The callback of [setInterval(..., 60000)]. *)
Definition reaper (now : Z) : M unit :=
  servers ← gets connectedServers;
  swept ← eval (sweep now servers);
  modify (setRegistry swept).

(** ** The event loop *)

Inductive event :=
  (** [wss] emits [connection] for a new socket, which is open *)
  | Connection (ws : socket) (req : headers)
  (** a socket emits [message] *)
  | Message (ws : socket) (data : frame)
  (** a socket emits [close], once, after which it emits nothing *)
  | Close (ws : socket)
  (** a socket emits [error] *)
  | Error (ws : socket)
  (** the interval timer fires *)
  | Tick
  (** the transport of a socket changes state on its own *)
  | Transport (ws : socket) (state : nat).

(** One turn of the event loop.  Every [new Date()] of the turn reads
    the same clock value [now]. *)
Definition step (now : Z) (e : event) : M unit :=
  match e with
  | Connection ws req =>
      modify (setReadyState ws OPEN) ;;
      onConnection now ws req
  | Message ws data =>
      session ← gets (λ w, sessions w !! ws);
      match session with
      | Some serverId => onMessage now ws serverId data
      | None => skip
      end
  | Close ws =>
      modify (setReadyState ws CLOSED) ;;
      session ← gets (λ w, sessions w !! ws);
      match session with
      | Some serverId =>
          modify (setSessions (delete ws)) ;;
          onClose now serverId
      | None => skip
      end
  | Error ws =>
      session ← gets (λ w, sessions w !! ws);
      match session with
      | Some serverId => onError serverId
      | None => skip
      end
  | Tick => reaper now
  | Transport ws state => modify (setReadyState ws state)
  end.

(** A run of the event loop over timed events. *)
Fixpoint run (events : list (Z * event)) : M unit :=
  match events with
  | [] => skip
  | (now, e) :: rest => step now e ;; run rest
  end.

(** The state the process starts in. *)
Definition initial : World :=
  {| connectedServers := []; readyState := ∅; sessions := ∅; issued := 0 |}.

End Relay.

(** ** A platform to evaluate on

    The theorems below hold for every platform.  To run the model on
    concrete inputs some platform is needed; this one reads and prints
    dates in the format of [toISOString] and puts simple stand-ins in the
    place of the HMAC, of [JSON.stringify] and of the number
    conversions. *)

Module Demo.

Definition digit (c : Ascii.ascii) : option Z :=
  let n := Z.of_nat (Ascii.nat_of_ascii c) in
  if (48 <=? n) && (n <=? 57) then Some (n - 48) else None.

(** The value of a string of decimal digits. *)
Fixpoint digitsFrom (acc : Z) (s : string) : option Z :=
  match s with
  | EmptyString => Some acc
  | String c s' =>
      match digit c with
      | Some d => digitsFrom (10 * acc + d) s'
      | None => None
      end
  end.

Definition digits (s : string) : option Z :=
  match s with
  | EmptyString => None
  | _ => digitsFrom 0 s
  end.

Fixpoint takeChars (n : nat) (s : string) : string :=
  match n, s with
  | S n', String c s' => String c (takeChars n' s')
  | _, _ => EmptyString
  end.

Definition slice (from len : nat) (s : string) : string :=
  takeChars len (dropChars from s).

(** Days from 1970-01-01 to the civil date [y-m-d] (proleptic Gregorian). *)
Definition daysFromCivil (y m d : Z) : Z :=
  let y' := if m <=? 2 then y - 1 else y in
  let era := y' / 400 in
  let yoe := y' - era * 400 in
  let doy := (153 * (if m >? 2 then m - 3 else m + 9) + 2) / 5 + d - 1 in
  let doe := yoe * 365 + yoe / 4 - yoe / 100 + doy in
  era * 146097 + doe - 719468.

(** The civil date of a day number. *)
Definition civilFromDays (z : Z) : Z * Z * Z :=
  let z' := z + 719468 in
  let era := z' / 146097 in
  let doe := z' - era * 146097 in
  let yoe := (doe - doe / 1460 + doe / 36524 - doe / 146096) / 365 in
  let doy := doe - (365 * yoe + yoe / 4 - yoe / 100) in
  let mp := (5 * doy + 2) / 153 in
  let d := doy - (153 * mp + 2) / 5 + 1 in
  let m := if mp <? 10 then mp + 3 else mp - 9 in
  let y := yoe + era * 400 in
  (if m <=? 2 then y + 1 else y, m, d).

Definition daysInMonth (y m : Z) : Z :=
  daysFromCivil (if m =? 12 then y + 1 else y) (if m =? 12 then 1 else m + 1) 1
  - daysFromCivil y m 1.

(** [Date.parse] on the format [YYYY-MM-DDTHH:mm:ss.sssZ]; any other
    string is no date here. *)
Definition Date_parse (s : string) : Date :=
  if negb (Nat.eqb (String.length s) 24) then None
  else if negb (String.eqb (slice 4 1 s) "-" && String.eqb (slice 7 1 s) "-"
                && String.eqb (slice 10 1 s) "T" && String.eqb (slice 13 1 s) ":"
                && String.eqb (slice 16 1 s) ":" && String.eqb (slice 19 1 s) "."
                && String.eqb (slice 23 1 s) "Z") then None
  else
    match digits (slice 0 4 s), digits (slice 5 2 s), digits (slice 8 2 s),
          digits (slice 11 2 s), digits (slice 14 2 s), digits (slice 17 2 s),
          digits (slice 20 3 s) with
    | Some y, Some mo, Some d, Some h, Some mi, Some sec, Some ms =>
        if (1 <=? mo) && (mo <=? 12) && (1 <=? d) && (d <=? daysInMonth y mo)
           && (h <=? 23) && (mi <=? 59) && (sec <=? 59)
        then Some ((((daysFromCivil y mo d * 24 + h) * 60 + mi) * 60 + sec) * 1000 + ms)
        else None
    | _, _, _, _, _, _, _ => None
    end.

(** [z] in decimal, padded with zeros to [width] digits. *)
Definition padded (width : nat) (z : Z) : string :=
  let s := pretty (Z.to_N z) in
  String.concat "" (replicate (width - String.length s) "0") +:+ s.

(** [toISOString] for the years 0000 to 9999. *)
Definition toISOString (t : Z) : string :=
  let day := t / 86400000 in
  let ms := t mod 86400000 in
  let '(y, m, d) := civilFromDays day in
  padded 4 y +:+ "-" +:+ padded 2 m +:+ "-" +:+ padded 2 d +:+ "T" +:+
  padded 2 (ms / 3600000) +:+ ":" +:+ padded 2 (ms / 60000 mod 60) +:+ ":" +:+
  padded 2 (ms / 1000 mod 60) +:+ "." +:+ padded 3 (ms mod 1000) +:+ "Z".

(** An integer prints in decimal; the other numbers get a stand-in. *)
Definition NumberToString (n : number) : string :=
  match n with
  | NaN => "NaN"
  | Infinite true => "-Infinity"
  | Infinite false => "Infinity"
  | Finite q =>
      if (Qnum q mod Z.pos (Qden q) =? 0)
      then pretty (Qnum q / Z.pos (Qden q))
      else pretty (Qnum q) +:+ "/" +:+ pretty (Z.pos (Qden q))
  end.

(** The empty string is 0, a string of digits its value, the rest NaN. *)
Definition StringToNumber (s : string) : number :=
  match s with
  | EmptyString => Finite 0
  | _ => match digitsFrom 0 s with
         | Some z => Finite (inject_Z z)
         | None => NaN
         end
  end.

Definition quoted (s : string) : string :=
  String (Ascii.ascii_of_nat 34) s +:+ String (Ascii.ascii_of_nat 34) EmptyString.

(** [JSON.stringify] without escapes in strings. *)
Fixpoint JSON_stringify (v : json) : string :=
  match v with
  | JNull => "null"
  | JBool true => "true"
  | JBool false => "false"
  | JNum n => NumberToString n
  | JStr s => quoted s
  | JArr items =>
      "[" +:+ String.concat "," (List.map JSON_stringify items) +:+ "]"
  | JObj props =>
      "{" +:+ String.concat ","
                (List.map (λ kv : string * json,
                             quoted kv.1 +:+ ":" +:+ JSON_stringify kv.2) props)
          +:+ "}"
  end.

(** A stand-in for the HMAC: the key and the data, spelled out. *)
Definition hmac_sha256_base64 (key data : string) : string :=
  "hmac-sha256(" +:+ key +:+ "," +:+ data +:+ ")".

Definition randomUUID (n : nat) : string :=
  "00000000-0000-4000-8000-" +:+ padded 12 (Z.of_nat n).

Definition platform : Platform :=
  Build_Platform "default-secret-change-me" hmac_sha256_base64 JSON_stringify
                 NumberToString StringToNumber Date_parse toISOString randomUUID.

End Demo.

(** ** Sample inputs *)

Module Sample.

(** 2024-01-01T00:00:00.000Z *)
Definition t0 : Z := 1704067200000.

(** An inbound message from server [A] with the five required fields,
    timestamped [stamp]. *)
Definition inbound (type to : string) (stamp : json) : list (string * json) :=
  [("type", JStr type); ("id", JStr "req-1"); ("from", JStr "A");
   ("to", JStr to); ("timestamp", stamp)].

(** A heartbeat timestamped one second before [t0], unsigned. *)
Definition heartbeat : json :=
  JObj (inbound "heartbeat" "relay" (JStr "2023-12-31T23:59:59.000Z")).

(** The same heartbeat with a signature that is not the relay's HMAC. *)
Definition forged : json :=
  JObj (inbound "heartbeat" "relay" (JStr "2023-12-31T23:59:59.000Z")
        ++ [("signature", JStr "forged")]).

(** The same heartbeat with the signature the platform computes. *)
Definition signedHeartbeat `{Platform} : json :=
  JObj (inbound "heartbeat" "relay" (JStr "2023-12-31T23:59:59.000Z")
        ++ [("signature",
             match signMessage heartbeat with
             | Returns mac => JStr mac
             | Throws => JNull
             end)]).

(** A heartbeat whose [id] is there but empty. *)
Definition emptyId : json :=
  JObj [("type", JStr "heartbeat"); ("id", JStr ""); ("from", JStr "A");
        ("to", JStr "relay"); ("timestamp", JStr "2023-12-31T23:59:59.000Z")].

(** Heartbeats timestamped 5 min 1 s and 4 min 59 s before [t0], and as
    far after it. *)
Definition past301 : json :=
  JObj (inbound "heartbeat" "relay" (JStr "2023-12-31T23:54:59.000Z")).
Definition past299 : json :=
  JObj (inbound "heartbeat" "relay" (JStr "2023-12-31T23:55:01.000Z")).
Definition future301 : json :=
  JObj (inbound "heartbeat" "relay" (JStr "2024-01-01T00:05:01.000Z")).
Definition future299 : json :=
  JObj (inbound "heartbeat" "relay" (JStr "2024-01-01T00:04:59.000Z")).

(** A heartbeat whose timestamp is no date. *)
Definition undated : json :=
  JObj (inbound "heartbeat" "relay" (JStr "yesterday")).

(** Sockets: the first and the second connection of server A, and the
    connections of servers B and C. *)
Definition sockA : socket := 1%nat.
Definition sockA' : socket := 11%nat.
Definition sockB : socket := 2%nat.
Definition sockC : socket := 3%nat.

(** Admission headers of a server. *)
Definition bearer (id : string) : headers :=
  {| authorization := Some "Bearer 0123456789abcdef";
     x_minegate_server_id := Some id;
     x_minegate_version := Some "1.0";
     x_minegate_capabilities := Some "teleport,chat" |}.

(** The registry entry of server [id] on socket [s], last seen at [t]. *)
Definition entry (id : string) (s : socket) (t : Z) : ServerInfo :=
  {| ServerInfo.serverId := JStr id;
     ServerInfo.version := Some (JStr "1.0");
     ServerInfo.capabilities := JArr [JStr "teleport"; JStr "chat"];
     ServerInfo.connected := TDate t;
     ServerInfo.lastSeen := TDate t;
     ServerInfo.ws := WSock s;
     ServerInfo.others := ∅ |}.

(** A [server_register] from A, timestamped one second before [t0],
    whose payload names the fields [serverId], [lastSeen] and [ws]. *)
Definition takeover : json :=
  JObj (inbound "server_register" "relay" (JStr "2023-12-31T23:59:59.000Z")
        ++ [("payload", JObj [("serverId", JStr "B");
                              ("lastSeen", num 0);
                              ("ws", JNull)])]).

(** A [server_register] from B whose payload renames its entry to A. *)
Definition renameToA : json :=
  JObj [("type", JStr "server_register"); ("id", JStr "req-2");
        ("from", JStr "B"); ("to", JStr "relay");
        ("timestamp", JStr "2023-12-31T23:59:59.000Z");
        ("payload", JObj [("serverId", JStr "A")])].

(** A [teleport_request] from A to a server Z that is not connected,
    timestamped 400 seconds after [t0]. *)
Definition teleportToZ : json :=
  JObj (inbound "teleport_request" "Z" (JStr "2024-01-01T00:06:40.000Z")).

(** Teleport requests from A to B and to C, timestamped 4 seconds after
    [t0]. *)
Definition teleportToB : json :=
  JObj (inbound "teleport_request" "B" (JStr "2024-01-01T00:00:04.000Z")).
Definition teleportToC : json :=
  JObj (inbound "teleport_request" "C" (JStr "2024-01-01T00:00:04.000Z")).
Definition teleportToY : json :=
  JObj (inbound "teleport_request" "Y" (JStr "2024-01-01T00:00:04.000Z")).

(** The world a run of the event loop ends in (the initial world when
    the run throws, which none of the sample runs does). *)
Definition worldAfter (events : list (Z * event)) : World :=
  match run (P := Demo.platform) events initial with
  | Done _ w _ => w
  | Threw _ => initial
  end.

(** Servers A, B and C are connected; the socket of C is closing. *)
Definition threeServers : World :=
  worldAfter [(t0, Connection sockA (bearer "A"));
              (t0 + 1000, Connection sockB (bearer "B"));
              (t0 + 2000, Connection sockC (bearer "C"));
              (t0 + 3000, Transport sockC CLOSING)].

(** Server A connected twice; the second connection replaced the entry
    of the first, and both sockets are open.  B is connected too. *)
Definition reconnected : World :=
  worldAfter [(t0, Connection sockA (bearer "A"));
              (t0 + 1000, Connection sockB (bearer "B"));
              (t0 + 2000, Connection sockA' (bearer "A"))].

(** A is connected and has sent the [takeover] registration. *)
Definition afterTakeover : World :=
  worldAfter [(t0 - 1000, Connection sockA (bearer "A"));
              (t0, Message sockA (Some takeover))].

(** B is connected and has renamed its entry to A. *)
Definition renamedB : World :=
  worldAfter [(t0 - 1000, Connection sockB (bearer "B"));
              (t0, Message sockB (Some renameToA))].

(** A connected at [t0] and sent nothing; B connected four minutes
    later. *)
Definition twoServers : World :=
  worldAfter [(t0, Connection sockA (bearer "A"));
              (t0 + 240000, Connection sockB (bearer "B"))].

(** Then the reaper ran six minutes after [t0] and took the entry of A,
    whose socket is still open. *)
Definition evicted : World :=
  worldAfter [(t0, Connection sockA (bearer "A"));
              (t0 + 240000, Connection sockB (bearer "B"));
              (t0 + 360000, Tick)].

End Sample.

(** ** Vocabulary of the properties *)

Section Vocabulary.
Context {P : Platform}.

(** The five required fields pass the presence test of [validateMessage]. *)
Definition requiredPresent (parsed : json) : bool :=
  present (getProp "type" parsed) && present (getProp "id" parsed)
  && present (getProp "from" parsed) && present (getProp "to" parsed)
  && present (getProp "timestamp" parsed).

(** The message contains the five fields, whatever their values. *)
Definition hasFields (parsed : json) : bool :=
  bool_decide (is_Some (getProp "type" parsed))
  && bool_decide (is_Some (getProp "id" parsed))
  && bool_decide (is_Some (getProp "from" parsed))
  && bool_decide (is_Some (getProp "to" parsed))
  && bool_decide (is_Some (getProp "timestamp" parsed)).

(** The message carries the signature [signMessage] computes for it:
    [parsed.signature === signMessage(parsed)]. *)
Definition signatureMatches (parsed : json) : Prop :=
  ∃ mac, signMessage parsed = Returns mac
         ∧ getProp "signature" parsed = Some (JStr mac).

(** The message is unsigned, or signed as the relay would sign it. *)
Definition signatureOk (parsed : json) : Prop :=
  present (getProp "signature" parsed) = false ∨ signatureMatches parsed.

(** The timestamp of the message reads as a date at most five minutes
    before or after [now]. *)
Definition withinFiveMinutes (now : Z) (parsed : json) : Prop :=
  ∃ t, new_Date (getProp "timestamp" parsed) = Returns (Some t)
       ∧ Z.abs (now - t) ≤ 5 * 60 * 1000.

(** The freshness test of [validateMessage] lets the message through:
    its timestamp converts, and the difference is not over five
    minutes (which a NaN is not). *)
Definition passesFreshness (now : Z) (parsed : json) : Prop :=
  ∃ messageTime,
    new_Date (getProp "timestamp" parsed) = Returns messageTime
    ∧ greaterThan5 (timeDiff now messageTime) = false.

(** [validateMessage] accepted the frame. *)
Definition accepted (v : validation) : bool :=
  match v with Valid _ => true | Invalid _ => false end.

(** The keys of the registry, in insertion order. *)
Definition keys (m : Map) : list string := m.*1.

(** Every entry's [serverId] field is the key it is stored under. *)
Definition keyed (m : Map) : Prop :=
  ∀ id info, (id, info) ∈ m → ServerInfo.serverId info = JStr id.

(** Every entry's [lastSeen] field holds a [Date]. *)
Definition dated (m : Map) : Prop :=
  ∀ id info, (id, info) ∈ m → ∃ t, ServerInfo.lastSeen info = TDate t.

(** A [ws] field on which [ws.readyState === OPEN] followed by
    [ws.send] throws: [null], or an object whose [readyState] is 1. *)
Definition faulty (h : handle) : bool :=
  match h with
  | WSock _ => false
  | WJson JNull => true
  | WJson v => strictEqNum (getProp "readyState" v) 1
  end.

(** No entry of [m] other than the one under [exclude] has a faulty
    [ws] field. *)
Definition faultless (exclude : option string) (m : Map) : Prop :=
  ∀ id info, (id, info) ∈ m → Some id ≠ exclude →
             faulty (ServerInfo.ws info) = false.

(** The socket a broadcast reaches through an entry: the entry is not
    the excluded one and its [ws] field is a socket that is open. *)
Definition recipient (w : World) (exclude : option string)
    (entry : string * ServerInfo) : option socket :=
  if bool_decide (Some entry.1 = exclude) then None
  else match probeHandle w (ServerInfo.ws entry.2) with
       | IsOpen s => Some s
       | _ => None
       end.

(** The sockets a broadcast reaches, in the order of the registry. *)
Definition recipients (w : World) (exclude : option string) (m : Map)
  : list socket :=
  omap (recipient w exclude) m.

(** One [send] of [message] on each of the sockets, in order. *)
Definition sendEach (message : json) (sockets : list socket) : list effect :=
  (λ s, Send s message) <$> sockets.

(** The message [createMessage] builds when [n] identifiers have been
    handed out before. *)
Definition relayMessage (now : Z) (n : nat) (type from to : string)
    (payload : json) : json :=
  JObj [("type", JStr type);
        ("id", JStr (randomUUID n));
        ("timestamp", JStr (toISOString now));
        ("from", JStr from);
        ("to", JStr to);
        ("payload", orEmptyObject (Some payload));
        ("signature",
         JStr (hmac_sha256_base64 SHARED_SECRET
                 (type +:+ "|" +:+ toISOString now +:+ "|" +:+ from +:+ "|" +:+
                  to +:+ "|" +:+ JSON_stringify (orEmptyObject (Some payload)))))].

(** The public view of an entry in the welcome list: its [serverId],
    its [capabilities], its [lastSeen] as an ISO string and the status
    [online]; no view when [lastSeen] holds no date. *)
Definition publicViewOf (server : ServerInfo) : option json :=
  match ServerInfo.lastSeen server with
  | TDate t =>
      Some (JObj [("serverId", ServerInfo.serverId server);
                  ("capabilities", ServerInfo.capabilities server);
                  ("lastSeen", JStr (toISOString t));
                  ("status", JStr "online")])
  | TJson _ => None
  end.

(** The payload of the [server_update] that announces a new server. *)
Definition joinPayload (now : Z) (server : ServerInfo) : json :=
  JObj [("action", JStr "join");
        ("server", JObj [("serverId", ServerInfo.serverId server);
                         ("capabilities", ServerInfo.capabilities server);
                         ("lastSeen", JStr (toISOString now));
                         ("status", JStr "online")])].

(** A handler that leaves the registry as it found it. *)
Definition readonly {A} (m : M A) : Prop :=
  ∀ w, match m w with
       | Done _ w' _ => connectedServers w' = connectedServers w
       | Threw _ => True
       end.

(** A handler that keeps [keyed] when it returns. *)
Definition stable {A} (m : M A) : Prop :=
  ∀ w, keyed (connectedServers w) →
       match m w with
       | Done _ w' _ => keyed (connectedServers w')
       | Threw _ => True
       end.

(** The event is a [server_register] message. *)
Definition isServerRegister (e : event) : bool :=
  match e with
  | Message _ (Some parsed) =>
      strictEqStr (getProp "type" parsed) "server_register"
  | _ => false
  end.

(** The relay's failed [teleport_response] to [serverId] about the
    request [message] for [target], created when [n] identifiers were
    handed out. *)
Definition failedResponse (now : Z) (n : nat) (serverId : string)
    (message : json) (code target text : string) : json :=
  relayMessage now n "teleport_response" "relay" serverId
    (teleportFailure message code ("Target server " +:+ target +:+ text)).

(** Every entry's [lastSeen] converts to a number: it is a [Date], or
    a value on which ToNumber does not throw. *)
Definition timed (m : Map) : Prop :=
  ∀ id info, (id, info) ∈ m → lastSeenNumber info ≠ Throws.

(** The payload of the [server_update] the close listener broadcasts. *)
Definition leavePayload (serverId : string) : json :=
  JObj [("action", JStr "leave");
        ("server", JObj [("serverId", JStr serverId);
                         ("status", JStr "offline")])].

End Vocabulary.

(** ** Vocabulary of the further properties *)

Section Handling.
Context {P : Platform}.

(** The fields [signMessage] reads, and [signature]. *)
Definition signedFields : list string :=
  ["type"; "timestamp"; "from"; "to"; "payload"; "signature"].

(** Two messages carry the same values in the signed fields and in
    [signature]. *)
Definition sameSignedFields (m m' : json) : Prop :=
  ∀ name, name ∈ signedFields → getProp name m = getProp name m'.

(** The registry after the [message] listener refreshed the sender's
    entry: [lastSeen] of the entry under [serverId] is [now], when there
    is such an entry. *)
Definition touched (now : Z) (serverId : string) (m : Map) : Map :=
  match Map_get serverId m with
  | Some info => Map_set serverId (touch now info) m
  | None => m
  end.

(** The payload of the relay's [heartbeat_ack]. *)
Definition ackPayload (now : Z) (size : nat) : json :=
  JObj [("server_time", JStr (toISOString now));
        ("connected_servers", num (Z.of_nat size))].

(** The payload of the relay's [error] reply to an invalid frame. *)
Definition errorPayload (error : string) : json :=
  JObj [("error_code", JStr "INVALID_MESSAGE");
        ("error_message", JStr error)].


(** A handler that keeps the property [I] of the registry when it
    returns. *)
Definition preserves (I : Map → Prop) {A} (m : M A) : Prop :=
  ∀ w, I (connectedServers w) →
       match m w with
       | Done _ w' _ => I (connectedServers w')
       | Threw _ => True
       end.

(** The event is a new connection. *)
Definition isConnection (e : event) : bool :=
  match e with
  | Connection _ _ => true
  | _ => false
  end.

(** The sender's entry after a [server_register]: refreshed, then merged
    with the payload when there is a truthy one. *)
Definition registered (now : Z) (message : json) (info : ServerInfo) : ServerInfo :=
  match getProp "payload" message with
  | Some payload =>
      if truthy payload then Object_assign (touch now info) payload
      else touch now info
  | None => touch now info
  end.

(** The payload of a [server_register] has no own property [name]. *)
Definition unnamed (name : string) (payload : json) : Prop :=
  assoc name (ownProperties payload) = None.

(** An entry on which a broadcast throws: it is not the excluded one and
    its [ws] field is faulty. *)
Definition breaks (exclude : option string) (entry : string * ServerInfo) : bool :=
  negb (bool_decide (Some entry.1 = exclude)) && faulty (ServerInfo.ws entry.2).

(** The entries a broadcast visits before it throws. *)
Fixpoint beforeFault (exclude : option string) (m : Map) : Map :=
  match m with
  | [] => []
  | entry :: rest =>
      if breaks exclude entry then [] else entry :: beforeFault exclude rest
  end.

(** The world a rejected connection leaves: the socket is closing. *)
Definition rejecting (ws : socket) (w : World) : World :=
  setReadyState ws CLOSING (setReadyState ws OPEN w).

(** A message the relay made: it names the relay as sender and carries
    the signature [signMessage] computes for it. *)
Definition relayMade (m : json) : Prop :=
  getProp "from" m = Some (JStr "relay") ∧ signatureMatches m.

(** What one turn of the event loop may emit: a message the relay made,
    the valid inbound message of this turn, or the close of the socket
    whose connection this turn rejects, with code 1008. *)
Definition permitted (now : Z) (e : event) (eff : effect) : Prop :=
  match eff with
  | Send _ m =>
      relayMade m
      ∨ ∃ ws, e = Message ws (Some m) ∧ validateMessage now (Some m) = Valid m
  | CloseSocket s code _ => code = 1008 ∧ ∃ req, e = Connection s req
  end.

(** A handler whose effects all satisfy [Q], whether it returns or
    throws. *)
Definition emitsOnly (Q : effect → Prop) {A} (m : M A) : Prop :=
  ∀ w, match m w with
       | Done _ _ out | Threw out => Forall Q out
       end.

(** The [ws] field of the entry is the socket [s], and [s] is open. *)
Definition openSocket (w : World) (info : ServerInfo) (s : socket) : Prop :=
  ServerInfo.ws info = WSock s ∧ readyStateOf s w = OPEN.

(** The [ws] field of the entry is not faulty and is no open socket: the
    test [ws.readyState === WebSocket.OPEN] is false on it. *)
Definition closedSocket (w : World) (info : ServerInfo) : Prop :=
  faulty (ServerInfo.ws info) = false ∧ ∀ s, ¬ openSocket w info s.

(** The sockets a broadcast serves: those of the entries it visits
    before it throws, if it does. *)
Definition served (w : World) (exclude : option string) (m : Map) : list socket :=
  recipients w exclude (beforeFault exclude m).

(** The ticks at the given times, one after the other. *)
Definition ticksAt (times : list Z) : list (Z * event) :=
  (λ t, (t, Tick)) <$> times.

End Handling.

(** ** Sample traffic *)

Module Traffic.

(** Messages from A timestamped four seconds after [Sample.t0]. *)
Definition fromA (type to : string) : list (string * json) :=
  Sample.inbound type to (JStr "2024-01-01T00:00:04.000Z").

(** A [status_update] for everyone and one for B alone. *)
Definition statusToAll : json := JObj (fromA "status_update" "broadcast").
Definition statusToB : json := JObj (fromA "status_update" "B").

(** A [teleport_response] addressed to C, with a payload and without. *)
Definition response : json :=
  JObj (fromA "teleport_response" "C"
        ++ [("payload", JObj [("request_id", JStr "req-0");
                              ("status", JStr "accepted")])]).
Definition responseWithoutPayload : json := JObj (fromA "teleport_response" "C").


(** A [server_register] whose payload names [version] and [region]. *)
Definition register : json :=
  JObj (fromA "server_register" "relay"
        ++ [("payload", JObj [("version", JStr "2.0");
                              ("region", JStr "eu")])]).

(** A heartbeat and a [teleport_request] to B, timestamped 250 and 400
    seconds after [Sample.t0]. *)
Definition lateHeartbeat : json :=
  JObj (Sample.inbound "heartbeat" "relay" (JStr "2024-01-01T00:04:10.000Z")).
Definition lateTeleportToB : json :=
  JObj (Sample.inbound "teleport_request" "B" (JStr "2024-01-01T00:06:40.000Z")).

(** The signed heartbeat of [Sample] under another [id] and with a field
    added. *)
Definition replayed : json :=
  JObj [("type", JStr "heartbeat"); ("id", JStr "req-2"); ("from", JStr "A");
        ("to", JStr "relay"); ("timestamp", JStr "2023-12-31T23:59:59.000Z");
        ("note", JStr "added");
        ("signature",
         match signMessage (P := Demo.platform) Sample.heartbeat with
         | Returns mac => JStr mac
         | Throws => JNull
         end)].

(** A stale heartbeat with a signature that is not the relay's. *)
Definition staleForged : json :=
  JObj (Sample.inbound "heartbeat" "relay" (JStr "2023-12-31T23:54:59.000Z")
        ++ [("signature", JStr "forged")]).

(** Headers without [authorization], and with a token of three
    characters. *)
Definition anonymous : headers :=
  {| authorization := None;
     x_minegate_server_id := Some "A";
     x_minegate_version := Some "1.0";
     x_minegate_capabilities := Some "teleport,chat" |}.
Definition shortToken : headers :=
  {| authorization := Some "Bearer abc";
     x_minegate_server_id := Some "A";
     x_minegate_version := Some "1.0";
     x_minegate_capabilities := Some "teleport,chat" |}.

(** The headers of [Sample.bearer] with another [authorization] value,
    which is no bearer token. *)
Definition unchecked (id : string) : headers :=
  {| authorization := Some "anything of 17 or more characters";
     x_minegate_server_id := Some id;
     x_minegate_version := Some "1.0";
     x_minegate_capabilities := Some "teleport,chat" |}.

(** The world after one more event. *)
Definition after (now : Z) (e : event) (w : World) : World :=
  match step (P := Demo.platform) now e w with
  | Done _ w' _ => w'
  | Threw _ => w
  end.

(** B, A and C are connected, in this order, and A has sent the
    [Sample.takeover] registration: the [ws] field of its entry is
    [null]. *)
Definition faultyMiddle : World :=
  Sample.worldAfter
    [(Sample.t0 - 3000, Connection Sample.sockB (Sample.bearer "B"));
     (Sample.t0 - 2000, Connection Sample.sockA (Sample.bearer "A"));
     (Sample.t0 - 1000, Connection Sample.sockC (Sample.bearer "C"));
     (Sample.t0, Message Sample.sockA (Some Sample.takeover))].

(** A [server_register] from A whose payload sets [ws] to [null], one
    whose payload sets [lastSeen] to a date string, and one whose
    payload sets it to an object with an own [toString]. *)
Definition unplug : json :=
  JObj (Traffic.fromA "server_register" "relay"
        ++ [("payload", JObj [("ws", JNull)])]).
Definition datedByString : json :=
  JObj (Traffic.fromA "server_register" "relay"
        ++ [("payload", JObj [("lastSeen", JStr "2020-01-01T00:00:00.000Z")])]).
Definition datedByObject : json :=
  JObj (Traffic.fromA "server_register" "relay"
        ++ [("payload", JObj [("lastSeen", JObj [("toString", num 1)])])]).

(** B, A and C are connected, in this order, and A has sent the
    registration named. *)
Definition registeredWith (registration : json) : World :=
  Sample.worldAfter
    [(Sample.t0, Connection Sample.sockB (Sample.bearer "B"));
     (Sample.t0 + 1000, Connection Sample.sockA (Sample.bearer "A"));
     (Sample.t0 + 2000, Connection Sample.sockC (Sample.bearer "C"));
     (Sample.t0 + 4000, Message Sample.sockA (Some registration))].

Definition unplugged : World := registeredWith unplug.

(** A [teleport_request] from B to A, timestamped five seconds after
    [Sample.t0]. *)
Definition teleportBtoA : json :=
  JObj [("type", JStr "teleport_request"); ("id", JStr "req-3");
        ("from", JStr "B"); ("to", JStr "A");
        ("timestamp", JStr "2024-01-01T00:00:05.000Z")].

End Traffic.

(** * Properties *)

Section CodecFacts.
Context {P : Platform}.

(** The freshness test [timeDiff > 5] on a valid date is a test on the
    distance in milliseconds. *)
Lemma greaterThan5_ms (now t : Z) :
  greaterThan5 (timeDiff now (Some t)) = (Z.abs (now - t) >? 5 * 60 * 1000).
Proof.
  unfold greaterThan5, timeDiff.
  set (d := now - t).
  destruct (Z.abs d >? 5 * 60 * 1000) eqn:E.
  - apply negb_true_iff, not_true_iff_false. intros H.
    apply Qle_bool_iff in H. unfold Qle in H. simpl in H. lia.
  - apply negb_false_iff, Qle_bool_iff. unfold Qle. simpl. lia.
Qed.

Lemma strictEqStr_true (v : option json) (s : string) :
  strictEqStr v s = true ↔ v = Some (JStr s).
Proof.
  destruct v as [[]|]; simpl; try (split; [discriminate|congruence]).
  rewrite String.eqb_eq. split; congruence.
Qed.

Lemma strictEqStr_false (v : option json) (s : string) :
  strictEqStr v s = false ↔ v ≠ Some (JStr s).
Proof. rewrite <- strictEqStr_true. by destruct (strictEqStr v s). Qed.

(** With the five required fields present, [validateMessage] comes down
    to the freshness test followed by the signature test. *)
Lemma validateMessage_required (now : Z) (parsed : json) :
  requiredPresent parsed = true →
  validateMessage now (Some parsed) =
    match new_Date (getProp "timestamp" parsed) with
    | Throws => Invalid "Invalid JSON"
    | Returns messageTime =>
        if greaterThan5 (timeDiff now messageTime)
        then Invalid "Message timestamp too old"
        else if present (getProp "signature" parsed)
             then match signMessage parsed with
                  | Throws => Invalid "Invalid JSON"
                  | Returns expectedSignature =>
                      if strictEqStr (getProp "signature" parsed) expectedSignature
                      then Valid parsed
                      else Invalid "Invalid signature"
                  end
             else Valid parsed
    end.
Proof.
  unfold requiredPresent. intros H.
  repeat (apply andb_true_iff in H as [H ?]).
  destruct parsed; try discriminate.
  unfold validateMessage.
  repeat match goal with E : present _ = true |- _ => rewrite E; clear E end.
  simpl. destruct (new_Date _); [|done].
  destruct (greaterThan5 _); [done|].
  destruct (present _); [|done].
  destruct (signMessage _); [|done].
  by destruct (strictEqStr _ _).
Qed.

(** A missing required field stops validation before anything else. *)
Lemma validateMessage_missing (now : Z) (parsed : json) :
  requiredPresent parsed = false →
  validateMessage now (Some parsed) = Invalid "Missing required fields"
  ∨ validateMessage now (Some parsed) = Invalid "Invalid JSON".
Proof.
  unfold requiredPresent. intros H.
  destruct parsed; try (by left); try (by right).
  left. unfold validateMessage.
  repeat (apply andb_false_iff in H as [H|H]); rewrite H; simpl;
    rewrite ?orb_true_r; done.
Qed.

(** A message with the required fields that passes the freshness test
    and is unsigned, or signed as the relay signs, is accepted. *)
Lemma validateMessage_accepts (now : Z) (parsed : json) :
  requiredPresent parsed = true →
  passesFreshness now parsed →
  signatureOk parsed →
  validateMessage now (Some parsed) = Valid parsed.
Proof.
  intros Hreq (messageTime & Ht & Hfresh) Hsig.
  rewrite validateMessage_required, Ht, Hfresh by done.
  destruct Hsig as [->|(mac & -> & Hsig)]; [done|].
  apply strictEqStr_true in Hsig as ->. by destruct (present _).
Qed.

(** A message with the required fields whose timestamp is more than
    five minutes away is rejected as too old. *)
Lemma validateMessage_stale (now t : Z) (parsed : json) :
  requiredPresent parsed = true →
  new_Date (getProp "timestamp" parsed) = Returns (Some t) →
  Z.abs (now - t) > 5 * 60 * 1000 →
  validateMessage now (Some parsed) = Invalid "Message timestamp too old".
Proof.
  intros Hreq Ht Hfar.
  rewrite validateMessage_required, Ht, greaterThan5_ms by done.
  by destruct (Z.gtb_spec (Z.abs (now - t)) (5 * 60 * 1000)); [|lia].
Qed.

Lemma withinFiveMinutes_passes (now : Z) (parsed : json) :
  withinFiveMinutes now parsed → passesFreshness now parsed.
Proof.
  intros (t & Ht & Hnear). exists (Some t). split; [done|].
  rewrite greaterThan5_ms.
  by destruct (Z.gtb_spec (Z.abs (now - t)) (5 * 60 * 1000)); [lia|].
Qed.

End CodecFacts.

(** ** Validation *)

(** C3, as the code has it: a message whose five required fields are
    present (truthy), whose timestamp is within five minutes of receipt,
    and whose signature is either not present or equal to the HMAC the
    relay computes, is accepted. *)
Theorem C3_validate_accepts (P : Platform) (now : Z) (parsed : json) :
  requiredPresent parsed = true →
  withinFiveMinutes now parsed →
  signatureOk parsed →
  validateMessage now (Some parsed) = Valid parsed.
Proof.
  intros Hreq Hfresh Hsig.
  apply validateMessage_accepts; [done| |done].
  by apply withinFiveMinutes_passes.
Qed.

Lemma C3_validate_accepts_witness :
  requiredPresent Sample.heartbeat = true
  ∧ withinFiveMinutes (P := Demo.platform) Sample.t0 Sample.heartbeat
  ∧ signatureOk (P := Demo.platform) Sample.heartbeat
  ∧ validateMessage (P := Demo.platform) Sample.t0 (Some Sample.heartbeat)
    = Valid Sample.heartbeat.
Proof.
  assert (Hfresh : withinFiveMinutes (P := Demo.platform) Sample.t0 Sample.heartbeat).
  { exists (Sample.t0 - 1000). split; [reflexivity|]. unfold Sample.t0. lia. }
  assert (Hsig : signatureOk (P := Demo.platform) Sample.heartbeat).
  { left. reflexivity. }
  split; [reflexivity|]. split; [exact Hfresh|]. split; [exact Hsig|].
  exact (C3_validate_accepts Demo.platform Sample.t0 Sample.heartbeat
           eq_refl Hfresh Hsig).
Defined.

(** C3 as stated fails: a message with all five fields and a fresh
    timestamp is rejected when its signature is not the relay's HMAC, and
    when one of the fields is there but empty. *)
Lemma C3_validate_rejects_counterexample :
  (hasFields Sample.forged = true
   ∧ withinFiveMinutes (P := Demo.platform) Sample.t0 Sample.forged
   ∧ validateMessage (P := Demo.platform) Sample.t0 (Some Sample.forged)
     = Invalid "Invalid signature")
  ∧ (hasFields Sample.emptyId = true
     ∧ withinFiveMinutes (P := Demo.platform) Sample.t0 Sample.emptyId
     ∧ validateMessage (P := Demo.platform) Sample.t0 (Some Sample.emptyId)
       = Invalid "Missing required fields").
Proof.
  split; (split; [reflexivity|]; split; [|reflexivity]);
    exists (Sample.t0 - 1000); (split; [reflexivity|]); unfold Sample.t0; lia.
Qed.

(** C5: the signature test runs only when a signature is present.  For a
    message that passes the required-field and freshness tests: without
    a signature it is accepted; with one, it is rejected exactly when the
    signature is not the HMAC the relay computes over the message, and
    when that HMAC is computed and differs, with the error of the
    signature test. *)
Theorem C5_signature_checked_only_if_present
    (P : Platform) (now : Z) (parsed : json) :
  requiredPresent parsed = true →
  passesFreshness now parsed →
  (present (getProp "signature" parsed) = false →
     validateMessage now (Some parsed) = Valid parsed)
  ∧ (present (getProp "signature" parsed) = true →
       (accepted (validateMessage now (Some parsed)) = false
        ↔ ¬ signatureMatches parsed)
       ∧ (signatureMatches parsed →
            validateMessage now (Some parsed) = Valid parsed)
       ∧ (∀ mac, signMessage parsed = Returns mac →
                 getProp "signature" parsed ≠ Some (JStr mac) →
                 validateMessage now (Some parsed) = Invalid "Invalid signature")).
Proof.
  intros Hreq Hfresh. split; intros Hsig.
  - apply validateMessage_accepts; [done..|by left].
  - assert (Hyes : signatureMatches parsed →
                   validateMessage now (Some parsed) = Valid parsed).
    { intros. apply validateMessage_accepts; [done..|by right]. }
    destruct Hfresh as (messageTime & Ht & Hfresh).
    assert (Hno : ¬ signatureMatches parsed →
                  accepted (validateMessage now (Some parsed)) = false).
    { intros Hdiff. rewrite validateMessage_required, Ht, Hfresh, Hsig by done.
      destruct (signMessage parsed) as [mac|] eqn:Hmac; [|done].
      destruct (strictEqStr _ _) eqn:E; [|done].
      destruct Hdiff. exists mac. by apply strictEqStr_true in E. }
    split; [|split; [done|]].
    + split; [|done]. intros Hrej Hm. by rewrite (Hyes Hm) in Hrej.
    + intros mac Hmac Hdiff.
      rewrite validateMessage_required, Ht, Hfresh, Hsig, Hmac by done.
      by apply strictEqStr_false in Hdiff as ->.
Qed.

Lemma C5_signature_checked_only_if_present_witness :
  (validateMessage (P := Demo.platform) Sample.t0 (Some Sample.heartbeat)
   = Valid Sample.heartbeat)
  ∧ (validateMessage (P := Demo.platform) Sample.t0 (Some Sample.forged)
     = Invalid "Invalid signature")
  ∧ (validateMessage (P := Demo.platform) Sample.t0
       (Some (Sample.signedHeartbeat (H := Demo.platform)))
     = Valid (Sample.signedHeartbeat (H := Demo.platform))).
Proof.
  assert (Hfresh : ∀ m, getProp "timestamp" m
                        = Some (JStr "2023-12-31T23:59:59.000Z") →
                        passesFreshness (P := Demo.platform) Sample.t0 m).
  { intros m Hm. exists (Some (Sample.t0 - 1000)). rewrite Hm.
    split; reflexivity. }
  split; [|split].
  - destruct (C5_signature_checked_only_if_present
                Demo.platform Sample.t0 Sample.heartbeat) as [H _];
      [reflexivity|by apply Hfresh|].
    apply H. reflexivity.
  - destruct (C5_signature_checked_only_if_present
                Demo.platform Sample.t0 Sample.forged) as [_ H];
      [reflexivity|by apply Hfresh|].
    destruct (H eq_refl) as (_ & _ & Hdiff).
    eapply Hdiff; [reflexivity|discriminate].
  - destruct (C5_signature_checked_only_if_present
                Demo.platform Sample.t0
                (Sample.signedHeartbeat (H := Demo.platform))) as [_ H];
      [reflexivity|by apply Hfresh|].
    destruct (H eq_refl) as (_ & Hsame & _).
    apply Hsame. eexists. split; reflexivity.
Defined.

(** C7: for a message that is otherwise valid, the freshness test
    depends only on the distance between the timestamp and the time of
    receipt, the same in the past and in the future, and its boundary is
    at exactly five minutes: the message is rejected as too old when the
    distance exceeds 300000 ms and accepted when it does not; 5 min 1 s
    either way is rejected, 4 min 59 s either way is accepted. *)
Theorem C7_freshness_boundary
    (P : Platform) (now t : Z) (parsed : json) :
  requiredPresent parsed = true →
  new_Date (getProp "timestamp" parsed) = Returns (Some t) →
  signatureOk parsed →
  (validateMessage now (Some parsed) = Invalid "Message timestamp too old"
     ↔ Z.abs (now - t) > 5 * 60 * 1000)
  ∧ (validateMessage now (Some parsed) = Valid parsed
     ↔ Z.abs (now - t) ≤ 5 * 60 * 1000)
  ∧ (now - t = 301000 ∨ t - now = 301000 →
     validateMessage now (Some parsed) = Invalid "Message timestamp too old")
  ∧ (now - t = 299000 ∨ t - now = 299000 →
     validateMessage now (Some parsed) = Valid parsed).
Proof.
  intros Hreq Ht Hsig.
  assert (Hin : Z.abs (now - t) ≤ 5 * 60 * 1000 →
                validateMessage now (Some parsed) = Valid parsed).
  { intros. apply validateMessage_accepts; [done| |done].
    apply withinFiveMinutes_passes. by exists t. }
  assert (Hout : Z.abs (now - t) > 5 * 60 * 1000 →
                 validateMessage now (Some parsed)
                 = Invalid "Message timestamp too old").
  { intros. by apply validateMessage_stale with t. }
  split; [|split; [|split]].
  - split; [|done].
    intros E. destruct (Z_le_gt_dec (Z.abs (now - t)) (5 * 60 * 1000)); [|done].
    rewrite Hin in E by done. discriminate.
  - split; [|done].
    intros E. destruct (Z_le_gt_dec (Z.abs (now - t)) (5 * 60 * 1000)); [done|].
    rewrite Hout in E by done. discriminate.
  - intros. apply Hout. lia.
  - intros. apply Hin. lia.
Qed.

Lemma C7_freshness_boundary_witness :
  (validateMessage (P := Demo.platform) Sample.t0 (Some Sample.past301)
   = Invalid "Message timestamp too old")
  ∧ (validateMessage (P := Demo.platform) Sample.t0 (Some Sample.past299)
     = Valid Sample.past299)
  ∧ (validateMessage (P := Demo.platform) Sample.t0 (Some Sample.future301)
     = Invalid "Message timestamp too old")
  ∧ (validateMessage (P := Demo.platform) Sample.t0 (Some Sample.future299)
     = Valid Sample.future299).
Proof.
  split; [|split; [|split]].
  - destruct (C7_freshness_boundary Demo.platform Sample.t0 (Sample.t0 - 301000)
                Sample.past301) as (_ & _ & H & _);
      [reflexivity|reflexivity|left; reflexivity|].
    apply H. left. reflexivity.
  - destruct (C7_freshness_boundary Demo.platform Sample.t0 (Sample.t0 - 299000)
                Sample.past299) as (_ & _ & _ & H);
      [reflexivity|reflexivity|left; reflexivity|].
    apply H. left. reflexivity.
  - destruct (C7_freshness_boundary Demo.platform Sample.t0 (Sample.t0 + 301000)
                Sample.future301) as (_ & _ & H & _);
      [reflexivity|reflexivity|left; reflexivity|].
    apply H. right. reflexivity.
  - destruct (C7_freshness_boundary Demo.platform Sample.t0 (Sample.t0 + 299000)
                Sample.future299) as (_ & _ & _ & H);
      [reflexivity|reflexivity|left; reflexivity|].
    apply H. right. reflexivity.
Defined.

(** C9: a timestamp that is a string [Date.parse] does not read as a date
    gives an invalid date, [timeDiff] is NaN, the test [timeDiff > 5] is
    false, and the message is accepted when its five required fields
    are present and its signature, if present, matches. *)
Theorem C9_unparseable_timestamp_passes
    (P : Platform) (now : Z) (parsed : json) (s : string) :
  requiredPresent parsed = true →
  getProp "timestamp" parsed = Some (JStr s) →
  Date_parse s = None →
  signatureOk parsed →
  new_Date (getProp "timestamp" parsed) = Returns None
  ∧ timeDiff now None = None
  ∧ greaterThan5 (timeDiff now None) = false
  ∧ validateMessage now (Some parsed) = Valid parsed.
Proof.
  intros Hreq Hts Hparse Hsig.
  assert (E : new_Date (getProp "timestamp" parsed) = Returns None).
  { rewrite Hts. simpl. by rewrite Hparse. }
  split; [done|]. split; [done|]. split; [done|].
  apply validateMessage_accepts; [done| |done]. by exists None.
Qed.

Lemma C9_unparseable_timestamp_passes_witness :
  validateMessage (P := Demo.platform) Sample.t0 (Some Sample.undated)
  = Valid Sample.undated.
Proof.
  destruct (C9_unparseable_timestamp_passes
              Demo.platform Sample.t0 Sample.undated "yesterday")
    as (_ & _ & _ & H);
    [reflexivity|reflexivity|reflexivity|left; reflexivity|].
  exact H.
Defined.

(** ** The registry as a map *)

Lemma Map_get_set_eq (key : string) (value : ServerInfo) (m : Map) :
  Map_get key (Map_set key value m) = Some value.
Proof.
  unfold Map_get. induction m as [|[k v] m IH]; simpl.
  - by rewrite String.eqb_refl.
  - destruct (String.eqb_spec k key) as [->|Hne]; simpl.
    + by rewrite String.eqb_refl.
    + by apply String.eqb_neq in Hne as ->.
Qed.

Lemma Map_get_set_ne (key key' : string) (value : ServerInfo) (m : Map) :
  key ≠ key' → Map_get key' (Map_set key value m) = Map_get key' m.
Proof.
  intros Hne. unfold Map_get. induction m as [|[k v] m IH]; simpl.
  - by apply String.eqb_neq in Hne as ->.
  - destruct (String.eqb_spec k key) as [->|Hk]; simpl.
    + by apply String.eqb_neq in Hne as ->.
    + by rewrite IH.
Qed.

Lemma Map_get_delete_eq (key : string) (m : Map) :
  Map_get key (Map_delete key m) = None.
Proof.
  unfold Map_get. induction m as [|[k v] m IH]; simpl; [done|].
  destruct (String.eqb_spec k key) as [->|Hk]; simpl; [done|].
  by apply String.eqb_neq in Hk as ->.
Qed.

Lemma Map_get_delete_ne (key key' : string) (m : Map) :
  key ≠ key' → Map_get key' (Map_delete key m) = Map_get key' m.
Proof.
  intros Hne. unfold Map_get. induction m as [|[k v] m IH]; simpl; [done|].
  destruct (String.eqb_spec k key) as [->|Hk]; simpl.
  - by apply String.eqb_neq in Hne as ->.
  - by rewrite IH.
Qed.

Lemma Map_get_None (key : string) (m : Map) :
  Map_get key m = None ↔ key ∉ keys m.
Proof.
  unfold keys, Map_get. induction m as [|[k v] m IH]; simpl.
  - split; [intros _; apply not_elem_of_nil|done].
  - rewrite not_elem_of_cons. destruct (String.eqb_spec k key) as [->|Hk].
    + split; [done|]. by intros [? _].
    + rewrite IH. split; [by split|by intros [_ ?]].
Qed.

Lemma Map_get_Some_elem (key : string) (info : ServerInfo) (m : Map) :
  Map_get key m = Some info → (key, info) ∈ m.
Proof.
  unfold Map_get. induction m as [|[k v] m IH]; simpl; [done|].
  destruct (String.eqb_spec k key) as [->|Hk].
  - intros [= ->]. apply list_elem_of_here.
  - intros. apply list_elem_of_further. auto.
Qed.

Lemma Map_get_elem (key : string) (info : ServerInfo) (m : Map) :
  NoDup (keys m) → (key, info) ∈ m → Map_get key m = Some info.
Proof.
  unfold keys, Map_get. induction m as [|[k v] m IH]; simpl.
  - intros _ H. by apply elem_of_nil in H.
  - intros Hnd H. apply NoDup_cons in Hnd as [Hk Hnd].
    apply elem_of_cons in H as [[= -> ->]|H].
    + by rewrite String.eqb_refl.
    + destruct (String.eqb_spec k key) as [->|?]; [|auto].
      destruct Hk. apply list_elem_of_fmap. by exists (key, info).
Qed.

(** Deleting a key that is not there changes nothing. *)
Lemma Map_delete_absent (key : string) (m : Map) :
  Map_get key m = None → Map_delete key m = m.
Proof.
  unfold Map_get. induction m as [|[k v] m IH]; simpl; [done|].
  destruct (String.eqb_spec k key); [done|]. intros. by rewrite IH.
Qed.

(** [set] then [delete] of one key is [delete]. *)
Lemma Map_delete_set (key : string) (value : ServerInfo) (m : Map) :
  Map_delete key (Map_set key value m) = Map_delete key m.
Proof.
  unfold Map_get. induction m as [|[k v] m IH]; simpl.
  - by rewrite String.eqb_refl.
  - destruct (String.eqb_spec k key) as [->|Hk]; simpl.
    + by rewrite String.eqb_refl.
    + apply String.eqb_neq in Hk as ->. by rewrite IH.
Qed.

(** Deleting a key that is there, once, takes one entry away. *)
Lemma Map_size_delete_present (key : string) (m : Map) :
  NoDup (keys m) → Map_has key m = true →
  S (Map_size (Map_delete key m)) = Map_size m.
Proof.
  unfold keys, Map_has, Map_size, Map_get. induction m as [|[k v] m IH]; simpl; [done|].
  intros Hnd. apply NoDup_cons in Hnd as [Hk Hnd].
  destruct (String.eqb_spec k key) as [->|?]; simpl.
  - intros _. rewrite Map_delete_absent; [done|]. by apply Map_get_None.
  - intros. f_equal. auto.
Qed.

Lemma elem_of_Map_delete (key : string) (m : Map) (id : string) (info : ServerInfo) :
  (id, info) ∈ Map_delete key m ↔ (id, info) ∈ m ∧ id ≠ key.
Proof.
  unfold Map_get. induction m as [|[k v] m IH]; simpl.
  - split; [intros H|intros [H _]]; by apply elem_of_nil in H.
  - destruct (String.eqb_spec k key) as [->|Hk].
    + rewrite IH, elem_of_cons. split; [intros []; auto|].
      intros [[[= -> ->]|?] ?]; done.
    + rewrite !elem_of_cons, IH. split.
      * intros [[= -> ->]|[]]; auto.
      * intros [[|] ?]; auto.
Qed.

Lemma elem_of_Map_set (key : string) (value : ServerInfo) (m : Map)
    (id : string) (info : ServerInfo) :
  (id, info) ∈ Map_set key value m →
  (id, info) = (key, value) ∨ (id, info) ∈ m.
Proof.
  induction m as [|[k v] m IH]; simpl.
  - intros H. apply list_elem_of_singleton in H. by left.
  - destruct (String.eqb_spec k key) as [->|Hk].
    + rewrite elem_of_cons. intros [|H]; [by left|].
      right. by apply list_elem_of_further.
    + rewrite !elem_of_cons. intros [|H]; [right; by left|].
      destruct (IH H); auto.
Qed.

Lemma NoDup_keys_Map_set (key : string) (value : ServerInfo) (m : Map) :
  NoDup (keys m) → NoDup (keys (Map_set key value m)).
Proof.
  unfold keys. induction m as [|[k v] m IH]; simpl.
  - intros _. apply NoDup_singleton.
  - intros Hnd. apply NoDup_cons in Hnd as [Hk Hnd].
    destruct (String.eqb_spec k key) as [->|Hne]; simpl.
    + by apply NoDup_cons.
    + apply NoDup_cons. split; [|auto].
      intros Hin. apply list_elem_of_fmap in Hin as ([k' v'] & -> & Hin).
      apply elem_of_Map_set in Hin as [[= -> ->]|Hin]; [done|].
      apply Hk, list_elem_of_fmap. by exists (k', v').
Qed.

Lemma NoDup_keys_Map_delete (key : string) (m : Map) :
  NoDup (keys m) → NoDup (keys (Map_delete key m)).
Proof.
  unfold keys. induction m as [|[k v] m IH]; simpl; [done|].
  intros Hnd. apply NoDup_cons in Hnd as [Hk Hnd].
  destruct (String.eqb k key); simpl; [auto|].
  apply NoDup_cons. split; [|auto].
  intros Hin. apply list_elem_of_fmap in Hin as ([k' v'] & -> & Hin).
  apply elem_of_Map_delete in Hin as [Hin _].
  apply Hk, list_elem_of_fmap. by exists (k', v').
Qed.

(** C2, as the code has it: [set(id, identity)] followed by [delete(id)]
    leaves the registry as [delete(id)] alone would.  Its size is the
    size before the [set] when no entry for [id] was there, and one less
    when one was. *)
Theorem C2_register_then_remove_size
    (m : Map) (id : string) (identity : ServerInfo) :
  NoDup (keys m) →
  (Map_has id m = false →
     Map_size (Map_delete id (Map_set id identity m)) = Map_size m)
  ∧ (Map_has id m = true →
     S (Map_size (Map_delete id (Map_set id identity m))) = Map_size m).
Proof.
  intros Hnd. rewrite Map_delete_set. split; intros Hhas.
  - rewrite Map_delete_absent; [done|].
    unfold Map_has in Hhas. by destruct (Map_get id m).
  - by apply Map_size_delete_present.
Qed.

Lemma C2_register_then_remove_size_witness :
  NoDup (keys [("B", Sample.entry "B" Sample.sockB Sample.t0)])
  ∧ Map_has "A" [("B", Sample.entry "B" Sample.sockB Sample.t0)] = false
  ∧ Map_size (Map_delete "A" (Map_set "A" (Sample.entry "A" Sample.sockA Sample.t0)
                                [("B", Sample.entry "B" Sample.sockB Sample.t0)]))
    = Map_size [("B", Sample.entry "B" Sample.sockB Sample.t0)].
Proof.
  assert (Hnd : NoDup (keys [("B", Sample.entry "B" Sample.sockB Sample.t0)])).
  { apply NoDup_singleton. }
  split; [exact Hnd|]. split; [reflexivity|].
  destruct (C2_register_then_remove_size
              [("B", Sample.entry "B" Sample.sockB Sample.t0)] "A"
              (Sample.entry "A" Sample.sockA Sample.t0) Hnd) as [H _].
  apply H. reflexivity.
Defined.

(** C2 as stated fails when [id] was already registered: the size drops
    from one to zero. *)
Lemma C2_register_then_remove_counterexample :
  Map_size [("A", Sample.entry "A" Sample.sockA Sample.t0)] = 1%nat
  ∧ Map_size (Map_delete "A" (Map_set "A" (Sample.entry "A" Sample.sockA' Sample.t0)
                                [("A", Sample.entry "A" Sample.sockA Sample.t0)]))
    = 0%nat.
Proof. split; reflexivity. Qed.

(** ** Sequencing *)

Section RelayFacts.
Context {P : Platform}.

Lemma bind_Done {A B} (m : M A) (f : A → M B) (w w' : World) (a : A)
    (out : list effect) :
  m w = Done a w' out →
  (m ≫= f) w = match f a w' with
               | Done b w'' out' => Done b w'' (out ++ out')
               | Threw out' => Threw (out ++ out')
               end.
Proof. intros H. unfold mbind, M_bind. by rewrite H. Qed.

Lemma bind_Done_nil {A B} (m : M A) (f : A → M B) (w w' : World) (a : A) :
  m w = Done a w' [] → (m ≫= f) w = f a w'.
Proof. intros H. unfold mbind, M_bind. rewrite H. by destruct (f a w'). Qed.

Lemma bind_Threw {A B} (m : M A) (f : A → M B) (w : World)
    (out : list effect) :
  m w = Threw out → (m ≫= f) w = Threw out.
Proof. intros H. unfold mbind, M_bind. by rewrite H. Qed.

Lemma bind_gets {A B} (g : World → A) (k : A → M B) (w : World) :
  (gets g ≫= k) w = k (g w) w.
Proof. unfold mbind, M_bind, gets. by destruct (k (g w) w). Qed.

Lemma bind_getWorld {B} (k : World → M B) (w : World) :
  (getWorld ≫= k) w = k w w.
Proof. unfold mbind, M_bind, getWorld. by destruct (k w w). Qed.

Lemma bind_modify {B} (g : World → World) (k : () → M B) (w : World) :
  (modify g ≫= k) w = k () (g w).
Proof. unfold mbind, M_bind, modify. by destruct (k () (g w)). Qed.

Lemma bind_skip {B} (k : () → M B) (w : World) :
  (skip ≫= k) w = k () w.
Proof. unfold mbind, M_bind, skip. by destruct (k () w). Qed.

Lemma bind_mret {A B} (a : A) (k : A → M B) (w : World) :
  (mret a ≫= k) w = k a w.
Proof. unfold mbind, M_bind, mret, M_ret. by destruct (k a w). Qed.

Lemma bind_emit {B} (e : effect) (k : () → M B) (w : World) :
  (emit e ≫= k) w = match k () w with
                    | Done b w' out => Done b w' (e :: out)
                    | Threw out => Threw (e :: out)
                    end.
Proof. reflexivity. Qed.

Lemma bind_eval_Returns {A B} (a : A) (k : A → M B) (w : World) :
  (eval (Returns a) ≫= k) w = k a w.
Proof. apply bind_mret. Qed.

(** ** Created messages *)

(** On strings the conversions of [signMessage] are the identity. *)
Lemma signMessage_strings (now : Z) (n : nat) (type from to : string)
    (payload : json) (rest : list (string * json)) :
  signMessage (JObj ([("type", JStr type);
                      ("id", JStr (randomUUID n));
                      ("timestamp", JStr (toISOString now));
                      ("from", JStr from);
                      ("to", JStr to);
                      ("payload", orEmptyObject (Some payload))] ++ rest))
  = Returns (hmac_sha256_base64 SHARED_SECRET
               (type +:+ "|" +:+ toISOString now +:+ "|" +:+ from +:+ "|" +:+
                to +:+ "|" +:+ JSON_stringify (orEmptyObject (Some payload)))).
Proof.
  unfold signMessage. simpl.
  destruct (truthy payload) eqn:E; simpl; by rewrite ?E.
Qed.

Lemma createMessage_eq (now : Z) (type from to : string) (payload : json)
    (w : World) :
  createMessage now type from to payload w
  = Done (relayMessage now (issued w) type from to payload) (nextIssued w) [].
Proof.
  unfold createMessage. rewrite bind_gets, bind_modify. cbv zeta.
  pose proof (signMessage_strings now (issued w) type from to payload []) as H.
  rewrite app_nil_r in H. rewrite H. by rewrite bind_eval_Returns.
Qed.

Lemma bind_createMessage {B} (now : Z) (type from to : string) (payload : json)
    (k : json → M B) (w : World) :
  (createMessage now type from to payload ≫= k) w
  = k (relayMessage now (issued w) type from to payload) (nextIssued w).
Proof.
  rewrite (bind_Done _ _ _ _ _ _ (createMessage_eq now type from to payload w)).
  by destruct (k _ _).
Qed.

(** Every message the relay creates carries the signature that
    [validateMessage] would check it against. *)
Lemma relayMessage_signed (now : Z) (n : nat) (type from to : string)
    (payload : json) :
  signatureMatches (relayMessage now n type from to payload).
Proof.
  eexists. split; [|reflexivity].
  apply (signMessage_strings now n type from to payload [(_, _)]).
Qed.

(** ** Broadcasting *)

Lemma probeHandle_faulty (w : World) (h : handle) :
  probeHandle w h = TypeError ↔ faulty h = true.
Proof.
  destruct h as [s|v]; simpl.
  - destruct (readyStateOf s w =? OPEN)%nat; split; discriminate.
  - destruct v; simpl; try (split; discriminate); try done;
      destruct (strictEqNum _ _); split; try discriminate; done.
Qed.

Lemma excluded_decide (serverId : string) (exclude : option string) :
  match exclude with
  | Some x => String.eqb serverId x
  | None => false
  end = bool_decide (Some serverId = exclude).
Proof.
  destruct exclude as [x|]; [|done].
  destruct (String.eqb_spec serverId x) as [->|Hne].
  - by rewrite bool_decide_eq_true_2.
  - rewrite bool_decide_eq_false_2; [done|]. by intros [= ->].
Qed.

(** A broadcast over entries without a faulty [ws] field sends the
    message to the recipients and changes nothing. *)
Lemma broadcastToAll_faultless (message : json) (exclude : option string)
    (w : World) :
  faultless exclude (connectedServers w) →
  broadcastToAll message exclude w
  = Done () w (sendEach message (recipients w exclude (connectedServers w))).
Proof.
  unfold broadcastToAll, recipients. rewrite (bind_Done _ _ w w _ []) by done.
  generalize (connectedServers w) as m. intros m Hok.
  match goal with |- context [forEach ?b m w] => set (body := b) end.
  assert (H : forEach body m w
              = Done () w (sendEach message (omap (recipient w exclude) m))).
  { induction m as [|[id info] m IH]; [done|].
    assert (Hm : faultless exclude m).
    { intros ????. eapply Hok; [|done]. by apply list_elem_of_further. }
    specialize (IH Hm). simpl.
    assert (Hb : body (id, info) w
                 = Done () w (sendEach message
                                (option_list (recipient w exclude (id, info))))).
    { unfold body, recipient. simpl. rewrite excluded_decide.
      case_bool_decide as Hex; [done|].
      rewrite (bind_Done _ _ w w w []) by done.
      destruct (probeHandle w (ServerInfo.ws info)) eqn:Hp; try done.
      apply probeHandle_faulty in Hp.
      rewrite (Hok id info) in Hp; [done|apply list_elem_of_here|done]. }
    rewrite (bind_Done _ _ _ _ _ _ Hb), IH.
    by destruct (recipient w exclude (id, info)). }
  by rewrite H.
Qed.

End RelayFacts.


(** ** Closing a connection *)

(** The close listener on a registry whose remaining entries have no
    faulty [ws] field: the entry under [serverId] is deleted, one
    message is created and it is sent to every remaining entry whose
    socket is open. *)
Lemma onClose_faultless (P : Platform) (now : Z) (serverId : string) (w : World) :
  faultless None (Map_delete serverId (connectedServers w)) →
  let w' := nextIssued (setRegistry (Map_delete serverId (connectedServers w)) w) in
  let departMessage :=
    relayMessage now (issued w) "server_update" "relay" "broadcast"
                 (leavePayload serverId) in
  onClose now serverId w
  = Done () w' (sendEach departMessage (recipients w' None (connectedServers w'))).
Proof.
  intros Hok w' departMessage. unfold onClose.
  rewrite (bind_Done _ _ w (setRegistry (Map_delete serverId (connectedServers w)) w)
             () []) by done.
  rewrite (bind_Done _ _ _ w' departMessage []) by (by rewrite createMessage_eq).
  by rewrite broadcastToAll_faultless.
Qed.

(** An event on a socket without listeners reaches no handler. *)
Lemma step_no_session (P : Platform) (now : Z) (ws : socket) (w : World) :
  sessions w !! ws = None →
  (∀ data, step now (Message ws data) w = Done () w [])
  ∧ step now (Close ws) w = Done () (setReadyState ws CLOSED w) []
  ∧ step now (Error ws) w = Done () w [].
Proof.
  intros Hs. unfold step, mbind, M_bind, gets, modify, skip. simpl.
  by rewrite Hs.
Qed.

(** A registry passes [faultless] when a scan of its entries finds no
    faulty [ws] field outside the excluded key. *)
Lemma faultless_scan (exclude : option string) (m : Map) :
  forallb (λ e : string * ServerInfo,
             bool_decide (Some e.1 = exclude) || negb (faulty (ServerInfo.ws e.2))) m
  = true →
  faultless exclude m.
Proof.
  intros H id info Hin Hex.
  rewrite forallb_forall in H. apply list_elem_of_In, H in Hin.
  simpl in Hin. apply orb_true_iff in Hin as [H'|H'].
  - by apply bool_decide_eq_true in H'.
  - by apply negb_true_iff in H'.
Qed.

(** ** Handlers that only read the registry *)

Section Frames.
Context {P : Platform}.

Lemma readonly_bind {A B} (m : M A) (k : A → M B) :
  readonly m → (∀ a, readonly (k a)) → readonly (m ≫= k).
Proof.
  intros Hm Hk w. unfold mbind, M_bind. specialize (Hm w).
  destruct (m w) as [a w' out|]; [|done].
  specialize (Hk a w'). destruct (k a w'); [|done]. congruence.
Qed.

Lemma readonly_skip : readonly skip.
Proof. by intros w. Qed.
Lemma readonly_mret {A} (a : A) : readonly (mret a).
Proof. by intros w. Qed.
Lemma readonly_throw {A} : readonly (@throw A).
Proof. by intros w. Qed.
Lemma readonly_emit (e : effect) : readonly (emit e).
Proof. by intros w. Qed.
Lemma readonly_gets {A} (g : World → A) : readonly (gets g).
Proof. by intros w. Qed.
Lemma readonly_getWorld : readonly getWorld.
Proof. by intros w. Qed.
Lemma readonly_eval {A} (c : completion A) : readonly (eval c).
Proof. intros w. by destruct c. Qed.
Lemma readonly_createMessage (now : Z) (type from to : string) (payload : json) :
  readonly (createMessage now type from to payload).
Proof. intros w. by rewrite createMessage_eq. Qed.
Lemma readonly_setReadyState (s : socket) (st : nat) :
  readonly (modify (setReadyState s st)).
Proof. by intros w. Qed.
Lemma readonly_setSessions (g : gmap socket string → gmap socket string) :
  readonly (modify (setSessions g)).
Proof. by intros w. Qed.

Lemma readonly_forEach {A} (body : A → M ()) (l : list A) :
  (∀ x, readonly (body x)) → readonly (forEach body l).
Proof.
  intros Hb. induction l as [|x l IH]; simpl.
  - apply readonly_skip.
  - apply readonly_bind; [apply Hb|by intros _].
Qed.

Lemma readonly_mapM {A B} (f : A → M B) (l : list A) :
  (∀ x, readonly (f x)) → readonly (mapM f l).
Proof.
  intros Hf. induction l as [|x l IH]; simpl.
  - apply readonly_mret.
  - apply readonly_bind; [apply Hf|intros y].
    apply readonly_bind; [apply IH|intros ys]. apply readonly_mret.
Qed.

End Frames.

(** One step of a proof that a handler is read-only: split a sequence,
    take a branch apart, or close a primitive. *)
Ltac readonly_step :=
  match goal with
  | |- readonly (_ ≫= _) => apply readonly_bind; [|intros ?]
  | |- readonly (forEach _ _) => apply readonly_forEach; intros ?
  | |- readonly (mapM _ _) => apply readonly_mapM; intros ?
  | |- readonly (match ?x with _ => _ end) => destruct x
  | |- readonly _ =>
      first [ apply readonly_skip | apply readonly_mret | apply readonly_throw
            | apply readonly_eval
            | apply readonly_emit | apply readonly_gets | apply readonly_getWorld
            | apply readonly_createMessage | apply readonly_setReadyState
            | apply readonly_setSessions ]
  end.

Section ReadOnlyHandlers.
Context {P : Platform}.

Lemma readonly_broadcastToAll (message : json) (exclude : option string) :
  readonly (broadcastToAll message exclude).
Proof. unfold broadcastToAll. repeat readonly_step. Qed.

Lemma readonly_sendToEntry (target : option ServerInfo) (message : json) :
  readonly (sendToEntry target message).
Proof. unfold sendToEntry. repeat readonly_step. Qed.

Lemma readonly_sendToServer (target : string) (message : json) :
  readonly (sendToServer target message).
Proof.
  unfold sendToServer. readonly_step; [readonly_step|apply readonly_sendToEntry].
Qed.

Lemma readonly_sendToServer_json (target : option json) (message : json) :
  readonly (sendToServer_json target message).
Proof.
  unfold sendToServer_json.
  readonly_step; [readonly_step|apply readonly_sendToEntry].
Qed.

Lemma readonly_handleHeartbeat (now : Z) (serverId : string) (message : json) :
  readonly (handleHeartbeat now serverId message).
Proof. unfold handleHeartbeat, sendOn. repeat readonly_step. Qed.

Lemma readonly_handleTeleportRequest (now : Z) (serverId : string) (message : json) :
  readonly (handleTeleportRequest now serverId message).
Proof.
  unfold handleTeleportRequest.
  repeat first [ apply readonly_sendToServer | apply readonly_sendToServer_json
               | readonly_step ].
Qed.

Lemma readonly_handleTeleportResponse (serverId : string) (message : json) :
  readonly (handleTeleportResponse serverId message).
Proof.
  unfold handleTeleportResponse.
  repeat first [ apply readonly_broadcastToAll | readonly_step ].
Qed.

Lemma readonly_handleStatusUpdate (serverId : string) (message : json) :
  readonly (handleStatusUpdate serverId message).
Proof.
  unfold handleStatusUpdate.
  repeat first [ apply readonly_broadcastToAll | readonly_step ].
Qed.

End ReadOnlyHandlers.


(** ** The reaper's sweep *)

Lemma timed_cons (P : Platform) (k : string) (v : ServerInfo) (m : Map) :
  timed ((k, v) :: m) → lastSeenNumber v ≠ Throws ∧ timed m.
Proof.
  intros H. split; [apply (H k), list_elem_of_here|].
  intros ???. apply (H id). by apply list_elem_of_further.
Qed.

(** When every [lastSeen] converts to a number the sweep returns, with
    exactly the entries that were not stale. *)
Lemma sweep_timed (P : Platform) (now : Z) (m : Map) :
  timed m →
  ∃ m', sweep now m = Returns m'
        ∧ ∀ id info, (id, info) ∈ m'
                     ↔ (id, info) ∈ m ∧ stale now info = Returns false.
Proof.
  induction m as [|[k v] m IH]; intros Hm.
  - exists []. split; [done|]. intros id info.
    split; [intros H|intros [H _]]; by apply elem_of_nil in H.
  - apply timed_cons in Hm as [Hv Hm]. destruct (IH Hm) as (m' & Hsweep & Hin).
    assert (Hs : ∃ old, stale now v = Returns old).
    { unfold stale. destruct (lastSeenNumber v); [by eexists|done]. }
    destruct Hs as [old Hold].
    exists (if old then m' else (k, v) :: m'). split.
    { simpl. by rewrite Hold, Hsweep. }
    intros id info. destruct old.
    + rewrite Hin, elem_of_cons. split; [intros []; auto|].
      intros [[[= -> ->]|?] ?]; [congruence|done].
    + rewrite !elem_of_cons, Hin. split.
      * intros [[= -> ->]|[]]; auto.
      * intros [[|] ?]; auto.
Qed.

(** The sweep keeps the keys apart. *)
Lemma NoDup_keys_swept (P : Platform) (now : Z) (m m' : Map) :
  sweep now m = Returns m' → NoDup (keys m) → NoDup (keys m').
Proof.
  unfold keys. revert m'. induction m as [|[k v] m IH]; intros m' Hsweep Hnd.
  - by injection Hsweep as <-.
  - apply NoDup_cons in Hnd as [Hk Hnd]. simpl in Hsweep.
    destruct (stale now v) as [old|]; [|done].
    destruct (sweep now m) as [rest|] eqn:Hrest; [|done].
    injection Hsweep as <-. specialize (IH rest eq_refl Hnd).
    destruct old; [done|]. simpl. apply NoDup_cons. split; [|done].
    intros Hin. apply Hk. clear -Hin Hrest.
    revert rest Hrest Hin. induction m as [|[k' v'] m IH]; intros rest Hrest Hin.
    + injection Hrest as <-. by apply elem_of_nil in Hin.
    + simpl in Hrest. destruct (stale now v') as [old|]; [|done].
      destruct (sweep now m) as [rest'|]; [|done]. injection Hrest as <-.
      simpl. destruct old.
      * apply list_elem_of_further. by apply (IH rest').
      * simpl in Hin. apply elem_of_cons in Hin as [->|Hin];
          [apply list_elem_of_here|].
        apply list_elem_of_further. by apply (IH rest').
Qed.

(** On an entry whose [lastSeen] is a date, [stale] is the test that more
    than five minutes have passed. *)
Lemma stale_date (P : Platform) (now t : Z) (info : ServerInfo) :
  ServerInfo.lastSeen info = TDate t →
  stale now info = Returns (now - t >? 5 * 60 * 1000).
Proof.
  intros H. unfold stale, lastSeenNumber. rewrite H. simpl. f_equal.
  destruct (Z.gtb_spec (now - t) (5 * 60 * 1000)).
  - apply negb_true_iff, not_true_iff_false. intros Hle.
    apply Qle_bool_iff in Hle. unfold Qle in Hle. simpl in Hle. lia.
  - apply negb_false_iff, Qle_bool_iff. unfold Qle. simpl. lia.
Qed.

Lemma timed_scan (P : Platform) (m : Map) :
  forallb (λ e : string * ServerInfo,
             match lastSeenNumber e.2 with
             | Returns _ => true
             | Throws => false
             end) m = true →
  timed m.
Proof.
  intros H id info Hin.
  rewrite forallb_forall in H. apply list_elem_of_In, H in Hin. simpl in Hin.
  by destruct (lastSeenNumber info).
Qed.


(** ** The entries keep their key as [serverId] *)

Lemma keyed_Map_set (key : string) (value : ServerInfo) (m : Map) :
  keyed m → ServerInfo.serverId value = JStr key → keyed (Map_set key value m).
Proof.
  intros Hm Hv id info Hin.
  apply elem_of_Map_set in Hin as [[= -> ->]|Hin]; [done|by apply Hm].
Qed.

Lemma keyed_Map_delete (key : string) (m : Map) :
  keyed m → keyed (Map_delete key m).
Proof. intros Hm id info Hin. apply elem_of_Map_delete in Hin as [Hin _]. by apply Hm. Qed.

(** What the sweep returns was in the registry. *)
Lemma elem_of_swept (P : Platform) (now : Z) (m m' : Map) (id : string)
    (info : ServerInfo) :
  sweep now m = Returns m' → (id, info) ∈ m' → (id, info) ∈ m.
Proof.
  revert m'. induction m as [|[k v] m IH]; intros m' Hsweep Hin.
  - injection Hsweep as <-. by apply elem_of_nil in Hin.
  - simpl in Hsweep. destruct (stale now v) as [old|]; [|done].
    destruct (sweep now m) as [rest|]; [|done]. injection Hsweep as <-.
    destruct old.
    + apply list_elem_of_further. by apply (IH rest).
    + apply elem_of_cons in Hin as [->|Hin]; [apply list_elem_of_here|].
      apply list_elem_of_further. by apply (IH rest).
Qed.

Lemma keyed_swept (P : Platform) (now : Z) (m m' : Map) :
  sweep now m = Returns m' → keyed m → keyed m'.
Proof. intros Hsweep Hm id info Hin. by eapply Hm, elem_of_swept. Qed.

Lemma serverId_touch (now : Z) (info : ServerInfo) :
  ServerInfo.serverId (touch now info) = ServerInfo.serverId info.
Proof. by destruct info. Qed.

Section Invariant.
Context {P : Platform}.

Lemma stable_readonly {A} (m : M A) : readonly m → stable m.
Proof.
  intros Hm w Hw. specialize (Hm w). destruct (m w); [|done]. by rewrite Hm.
Qed.

Lemma stable_bind {A B} (m : M A) (k : A → M B) :
  stable m → (∀ a, stable (k a)) → stable (m ≫= k).
Proof.
  intros Hm Hk w Hw. unfold mbind, M_bind. specialize (Hm w Hw).
  destruct (m w) as [a w' out|]; [|done].
  specialize (Hk a w' Hm). by destruct (k a w').
Qed.

Lemma stable_touchLastSeen (now : Z) (serverId : string) :
  stable (touchLastSeen now serverId).
Proof.
  intros w Hw. unfold touchLastSeen. rewrite bind_gets.
  destruct (Map_get serverId (connectedServers w)) as [info|] eqn:Hget; [|done].
  simpl. apply keyed_Map_set; [done|].
  rewrite serverId_touch. by apply Hw, Map_get_Some_elem.
Qed.

Lemma stable_onClose (now : Z) (serverId : string) : stable (onClose now serverId).
Proof.
  unfold onClose. apply stable_bind.
  - intros w Hw. simpl. by apply keyed_Map_delete.
  - intros _. apply stable_readonly.
    repeat first [ apply readonly_broadcastToAll | readonly_step ].
Qed.

Lemma stable_reaper (now : Z) : stable (reaper now).
Proof.
  intros w Hw. unfold reaper. rewrite bind_gets.
  destruct (sweep now (connectedServers w)) as [m'|] eqn:Hsweep; [|done].
  rewrite bind_eval_Returns. simpl. by eapply keyed_swept.
Qed.

Lemma stable_onConnection (now : Z) (ws : socket) (req : headers) :
  stable (onConnection now ws req).
Proof.
  unfold onConnection.
  destruct (_ || _); [apply stable_readonly; repeat readonly_step|].
  destruct (_ <? _)%nat; [apply stable_readonly; repeat readonly_step|].
  apply stable_bind.
  - intros w Hw. simpl. by apply keyed_Map_set.
  - intros _. apply stable_readonly. unfold publicView, lastSeenISO.
    repeat first [ apply readonly_broadcastToAll | readonly_step ].
Qed.

(** The handler of any message type but [server_register]. *)
Lemma stable_dispatch (now : Z) (serverId : string) (message : json) :
  strictEqStr (getProp "type" message) "server_register" = false →
  stable (dispatch now serverId message).
Proof.
  intros Hty. unfold dispatch. rewrite Hty.
  repeat destruct (strictEqStr _ _);
    apply stable_readonly;
    first [ apply readonly_handleHeartbeat | apply readonly_handleTeleportRequest
          | apply readonly_handleTeleportResponse | apply readonly_handleStatusUpdate
          | apply readonly_skip ].
Qed.

Lemma validateMessage_Valid (now : Z) (data : frame) (message : json) :
  validateMessage now data = Valid message → data = Some message.
Proof.
  unfold validateMessage. intros H. repeat case_match; congruence.
Qed.

Lemma stable_step (now : Z) (e : event) :
  isServerRegister e = false → stable (step now e).
Proof.
  intros He. destruct e as [ws req|ws data|ws|ws| |ws st]; simpl.
  - apply stable_bind; [apply stable_readonly, readonly_setReadyState|].
    intros _. apply stable_onConnection.
  - apply stable_bind; [apply stable_readonly, readonly_gets|].
    intros [serverId|]; [|apply stable_readonly, readonly_skip].
    unfold onMessage. destruct (validateMessage now data) as [message|error] eqn:Hv.
    + apply validateMessage_Valid in Hv as ->. simpl in He.
      apply stable_bind;
        [apply stable_readonly; unfold logMessage; repeat readonly_step|].
      intros _. apply stable_bind; [apply stable_touchLastSeen|].
      intros _. by apply stable_dispatch.
    + apply stable_readonly. repeat readonly_step.
  - apply stable_bind; [apply stable_readonly, readonly_setReadyState|].
    intros _. apply stable_bind; [apply stable_readonly, readonly_gets|].
    intros [serverId|]; [|apply stable_readonly, readonly_skip].
    apply stable_bind; [apply stable_readonly, readonly_setSessions|].
    intros _. apply stable_onClose.
  - apply stable_readonly. unfold onError. repeat readonly_step.
  - apply stable_reaper.
  - apply stable_readonly, readonly_setReadyState.
Qed.

End Invariant.

(** ** Registration payloads *)

Lemma keyed_scan (m : Map) :
  forallb (λ e : string * ServerInfo,
             strictEqStr (Some (ServerInfo.serverId e.2)) e.1) m = true →
  keyed m.
Proof.
  intros H id info Hin.
  rewrite forallb_forall in H. apply list_elem_of_In, H in Hin.
  by apply strictEqStr_true in Hin as [= ->].
Qed.

(** [handleServerRegister] merges a truthy payload into the sender's
    entry. *)
Lemma handleServerRegister_merges (P : Platform) (serverId : string)
    (message payload : json) (info : ServerInfo) (w : World) :
  Map_get serverId (connectedServers w) = Some info →
  getProp "payload" message = Some payload →
  truthy payload = true →
  handleServerRegister serverId message w
  = Done () (setRegistry (Map_set serverId (Object_assign info payload)
                                   (connectedServers w)) w) [].
Proof.
  intros Hget Hp Ht. unfold handleServerRegister.
  rewrite bind_gets, Hget, Hp, Ht. reflexivity.
Qed.

(** C8, as the code has it: every turn of the event loop other than the
    handling of a [server_register] message keeps each entry's
    [serverId] equal to the key it is stored under.  Handling a
    [server_register] merges the payload into the sender's entry with
    [Object.assign], which overwrites [serverId], [ws] or [lastSeen]
    when the payload names them; a payload with another [serverId]
    leaves a registry in which the invariant does not hold. *)
Theorem C8_serverId_key_invariant (P : Platform) :
  (∀ now e w w' out,
     keyed (connectedServers w) →
     isServerRegister e = false →
     step now e w = Done () w' out →
     keyed (connectedServers w'))
  ∧ (∀ info v,
       ServerInfo.serverId (Object_assign info (JObj [("serverId", v)])) = v
       ∧ ServerInfo.ws (Object_assign info (JObj [("ws", v)])) = WJson v
       ∧ ServerInfo.lastSeen (Object_assign info (JObj [("lastSeen", v)])) = TJson v)
  ∧ (∀ serverId message v info w,
       Map_get serverId (connectedServers w) = Some info →
       getProp "payload" message = Some (JObj [("serverId", v)]) →
       v ≠ JStr serverId →
       ∃ w', handleServerRegister serverId message w = Done () w' []
             ∧ ¬ keyed (connectedServers w')).
Proof.
  split; [|split].
  - intros now e w w' out Hw He Hstep.
    pose proof (stable_step now e He w Hw) as H. by rewrite Hstep in H.
  - intros info v. by destruct info.
  - intros serverId message v info w Hget Hp Hv.
    eexists. split; [by eapply handleServerRegister_merges|].
    intros Hk. apply Hv. simpl in Hk.
    rewrite <- (Hk serverId (Object_assign info (JObj [("serverId", v)]))).
    + by destruct info.
    + apply Map_get_Some_elem, Map_get_set_eq.
Qed.

Lemma C8_serverId_key_invariant_witness :
  keyed (connectedServers Sample.threeServers)
  ∧ (∃ w' out,
       step (P := Demo.platform) (Sample.t0 + 4000) (Close Sample.sockA)
            Sample.threeServers = Done () w' out
       ∧ keyed (connectedServers w'))
  ∧ (∃ w',
       handleServerRegister "B" Sample.renameToA Sample.threeServers
       = Done () w' []
       ∧ ¬ keyed (connectedServers w')).
Proof.
  assert (Hk : keyed (connectedServers Sample.threeServers))
    by (by apply keyed_scan).
  destruct (C8_serverId_key_invariant Demo.platform) as (Hstep & _ & Hreg).
  split; [exact Hk|]. split.
  - eexists _, _. split; [vm_compute; reflexivity|].
    eapply (Hstep (Sample.t0 + 4000) (Close Sample.sockA) Sample.threeServers);
      [exact Hk|reflexivity|vm_compute; reflexivity].
  - apply (Hreg "B" Sample.renameToA (JStr "A")
                (Sample.entry "B" Sample.sockB (Sample.t0 + 1000)));
      [reflexivity|reflexivity|discriminate].
Defined.

(** C8 as stated fails for the handling of [server_register]: after A
    registers with a payload naming [serverId], [lastSeen] and [ws], the
    entry under the key A carries the [serverId] B and the payload's
    values in place of its date and its socket. *)
Lemma C8_server_register_counterexample :
  Map_get "A" (connectedServers
                 (Sample.worldAfter
                    [(Sample.t0 - 1000, Connection Sample.sockA (Sample.bearer "A"))]))
  = Some (Sample.entry "A" Sample.sockA (Sample.t0 - 1000))
  ∧ ServerInfo.serverId <$> Map_get "A" (connectedServers Sample.afterTakeover)
    = Some (JStr "B")
  ∧ ServerInfo.lastSeen <$> Map_get "A" (connectedServers Sample.afterTakeover)
    = Some (TJson (num 0))
  ∧ ServerInfo.ws <$> Map_get "A" (connectedServers Sample.afterTakeover)
    = Some (WJson JNull).
Proof. repeat split; reflexivity. Qed.

(** ** Teleport requests *)

Section Teleport.
Context {P : Platform}.

Lemma sendToServer_open (serverId : string) (message : json) (w : World)
    (info : ServerInfo) (h : socket) :
  Map_get serverId (connectedServers w) = Some info →
  probeHandle w (ServerInfo.ws info) = IsOpen h →
  sendToServer serverId message w = Done true w [Send h message].
Proof.
  intros Hget Hp. unfold sendToServer. rewrite bind_gets, Hget. simpl.
  rewrite bind_getWorld, Hp. reflexivity.
Qed.

Lemma sendToServer_absent (serverId : string) (message : json) (w : World) :
  Map_get serverId (connectedServers w) = None →
  sendToServer serverId message w = Done false w [].
Proof. intros Hget. unfold sendToServer. by rewrite bind_gets, Hget. Qed.

(** The three ways a teleport request ends when the requester's entry
    is in the registry with an open socket [h] and the target converts
    to the string [text]. *)
Lemma handleTeleportRequest_cases (now : Z) (serverId : string)
    (message : json) (w : World) (requester : ServerInfo) (h : socket)
    (text : string) :
  Map_get serverId (connectedServers w) = Some requester →
  probeHandle w (ServerInfo.ws requester) = IsOpen h →
  template (getProp "to" message) = Returns text →
  match Map_get_json (getProp "to" message) (connectedServers w) with
  | None =>
      handleTeleportRequest now serverId message w
      = Done () (nextIssued w)
          [Send h (failedResponse now (issued w) serverId message
                     "SERVER_NOT_FOUND" text " not found")]
  | Some target =>
      match probeHandle w (ServerInfo.ws target) with
      | IsOpen t =>
          handleTeleportRequest now serverId message w = Done () w [Send t message]
      | NotOpen =>
          handleTeleportRequest now serverId message w
          = Done () (nextIssued w)
              [Send h (failedResponse now (issued w) serverId message
                         "TARGET_UNAVAILABLE" text " is not available")]
      | TypeError =>
          handleTeleportRequest now serverId message w = Threw []
      end
  end.
Proof.
  intros Hget Hp Htext.
  assert (Hsend : ∀ errorMessage,
            sendToServer serverId errorMessage (nextIssued w)
            = Done true (nextIssued w) [Send h errorMessage]).
  { intros. by apply sendToServer_open with requester. }
  destruct (Map_get_json _ _) as [target|] eqn:Ht.
  - assert (Hfwd : sendToServer_json (getProp "to" message) message w
                   = match probeHandle w (ServerInfo.ws target) with
                     | IsOpen t => Done true w [Send t message]
                     | NotOpen => Done false w []
                     | TypeError => Threw []
                     end).
    { unfold sendToServer_json. rewrite bind_gets, Ht.
      unfold sendToEntry. rewrite bind_getWorld.
      by destruct (probeHandle w (ServerInfo.ws target)). }
    destruct (probeHandle w (ServerInfo.ws target)) eqn:Hpt;
      unfold handleTeleportRequest; cbv zeta; rewrite bind_gets, Ht.
    + by rewrite (bind_Done _ _ _ _ _ _ Hfwd).
    + rewrite (bind_Done _ _ _ _ _ _ Hfwd). simpl.
      rewrite Htext, bind_eval_Returns, bind_createMessage.
      rewrite (bind_Done _ _ _ _ _ _ (Hsend _)). reflexivity.
    + by rewrite (bind_Threw _ _ _ _ Hfwd).
  - unfold handleTeleportRequest; cbv zeta. rewrite bind_gets, Ht.
    rewrite Htext, bind_eval_Returns, bind_createMessage.
    rewrite (bind_Done _ _ _ _ _ _ (Hsend _)). reflexivity.
Qed.

(** A lookup under a message key after the entry of [id] was replaced. *)
Lemma Map_get_json_set (key : option json) (id : string) (value : ServerInfo)
    (m : Map) :
  Map_get_json key (Map_set id value m)
  = if strictEqStr key id then Some value else Map_get_json key m.
Proof.
  destruct key as [[]|]; try done. simpl.
  destruct (String.eqb_spec s id) as [->|Hne].
  - apply Map_get_set_eq.
  - by apply Map_get_set_ne.
Qed.

Lemma ws_touch (now : Z) (info : ServerInfo) :
  ServerInfo.ws (touch now info) = ServerInfo.ws info.
Proof. by destruct info. Qed.

End Teleport.


Lemma touchLastSeen_present (now : Z) (serverId : string) (info : ServerInfo)
    (w : World) :
  Map_get serverId (connectedServers w) = Some info →
  touchLastSeen now serverId w
  = Done () (setRegistry (Map_set serverId (touch now info) (connectedServers w)) w) [].
Proof. intros Hget. unfold touchLastSeen. by rewrite bind_gets, Hget. Qed.

Lemma touchLastSeen_absent (now : Z) (serverId : string) (w : World) :
  Map_get serverId (connectedServers w) = None →
  touchLastSeen now serverId w = Done () w [].
Proof. intros Hget. unfold touchLastSeen. by rewrite bind_gets, Hget. Qed.

Lemma dispatch_teleport_request (P : Platform) (now : Z) (serverId : string)
    (message : json) :
  getProp "type" message = Some (JStr "teleport_request") →
  dispatch now serverId message = handleTeleportRequest now serverId message.
Proof. intros H. unfold dispatch. by rewrite H. Qed.

(** A valid message on a socket with listeners, whose [type] and [to]
    convert to strings: [lastSeen] is touched and the message is
    dispatched. *)
Lemma step_valid_message (P : Platform) (now : Z) (ws : socket)
    (serverId : string) (message : json) (w : World) (type to : string) :
  sessions w !! ws = Some serverId →
  validateMessage now (Some message) = Valid message →
  template (getProp "type" message) = Returns type →
  template (getProp "to" message) = Returns to →
  step now (Message ws (Some message)) w
  = (touchLastSeen now serverId ;; dispatch now serverId message) w.
Proof.
  intros Hs Hv Hty Hto. unfold step. rewrite bind_gets, Hs.
  unfold onMessage. rewrite Hv. unfold logMessage at 1.
  rewrite Hty, Hto.
  assert (Hlog : (eval (Returns type) ;; eval (Returns to) ;; skip) w = Done () w [])
    by done.
  by rewrite (bind_Done_nil _ _ _ _ _ Hlog).
Qed.

(** ** Admission *)

Section Admission.
Context {P : Platform}.

Lemma publicView_eq (server : ServerInfo) (w : World) :
  publicView server w
  = match publicViewOf server with
    | Some v => Done v w []
    | None => Threw []
    end.
Proof.
  unfold publicView, publicViewOf, lastSeenISO.
  by destruct (ServerInfo.lastSeen server).
Qed.

(** Mapping [publicView] over entries that all hold a date returns their
    views and touches nothing. *)
Lemma mapM_publicView (l : list ServerInfo) (w : World) :
  (∀ server, server ∈ l → ∃ t, ServerInfo.lastSeen server = TDate t) →
  ∃ views, mapM publicView l w = Done views w []
           ∧ Forall2 (λ server v, publicViewOf server = Some v) l views.
Proof.
  induction l as [|x l IH]; intros Hd.
  - exists []. split; [done|constructor].
  - destruct IH as (views & Hm & Hall).
    { intros ??. apply Hd. by apply list_elem_of_further. }
    destruct (Hd x) as [t Ht]; [apply list_elem_of_here|].
    assert (Hx : ∃ v, publicViewOf x = Some v).
    { unfold publicViewOf. rewrite Ht. by eexists. }
    destruct Hx as [v Hv]. exists (v :: views). split; [|by constructor].
    simpl. rewrite (bind_Done_nil _ _ w w v) by (by rewrite publicView_eq, Hv).
    by rewrite (bind_Done_nil _ _ w w views).
Qed.

Lemma keyed_cons (k : string) (v : ServerInfo) (m : Map) :
  keyed ((k, v) :: m) → ServerInfo.serverId v = JStr k ∧ keyed m.
Proof.
  intros H. split; [apply H, list_elem_of_here|].
  intros ???. apply H. by apply list_elem_of_further.
Qed.

(** When every entry carries its key, a filter on the [serverId] fields
    is a filter on the keys. *)
Lemma filter_serverId_keyed (serverId : string) (m : Map) :
  keyed m →
  List.filter (λ server, negb (strictEqStr (Some (ServerInfo.serverId server)) serverId))
              (List.map snd m)
  = List.map snd (Map_delete serverId m).
Proof.
  induction m as [|[k v] m IH]; intros Hm; [done|].
  apply keyed_cons in Hm as [Hk Hm]. specialize (IH Hm).
  simpl. rewrite Hk. simpl.
  destruct (String.eqb k serverId); simpl; [exact IH|by f_equal].
Qed.

(** So the welcome list, computed after the new entry is stored, holds
    the entries stored under the other keys. *)
Lemma otherServers_keyed (serverId : string) (value : ServerInfo) (m : Map) :
  keyed m → ServerInfo.serverId value = JStr serverId →
  otherServers serverId (Map_set serverId value m)
  = List.map snd (Map_delete serverId m).
Proof.
  intros Hm Hv. unfold otherServers.
  rewrite filter_serverId_keyed by (by apply keyed_Map_set).
  by rewrite Map_delete_set.
Qed.

Lemma recipients_ext (w w' : World) (exclude : option string) (m : Map) :
  readyState w = readyState w' → recipients w exclude m = recipients w' exclude m.
Proof.
  intros H. unfold recipients.
  assert (E : ∀ e, recipient w exclude e = recipient w' exclude e).
  { intros [id info]. unfold recipient. destruct (bool_decide _); [done|].
    unfold probeHandle, readyStateOf. by rewrite H. }
  apply list_omap_ext. induction m as [|e m IH]; constructor; auto.
Qed.

Lemma faultless_Map_set (serverId : string) (value : ServerInfo) (m : Map) :
  faultless (Some serverId) m → faultless (Some serverId) (Map_set serverId value m).
Proof.
  intros Hm id info Hin Hne.
  apply elem_of_Map_set in Hin as [[= -> ->]|Hin]; [done|by apply (Hm id info)].
Qed.

End Admission.

Lemma dated_scan (m : Map) :
  forallb (λ e : string * ServerInfo,
             match ServerInfo.lastSeen e.2 with
             | TDate _ => true
             | TJson _ => false
             end) m = true →
  dated m.
Proof.
  intros H id info Hin.
  rewrite forallb_forall in H. apply list_elem_of_In, H in Hin. simpl in Hin.
  destruct (ServerInfo.lastSeen info) as [t|]; [by exists t|done].
Qed.


(** * Further properties *)

(** ** Validation, completed *)

(** X1: [validateMessage] accepts a frame exactly when it parses, its
    five required fields are present, its timestamp passes the freshness
    test, and its signature is absent or the one the relay computes; and
    what it hands on is the parsed frame itself. *)
Theorem validate_succeeds_exactly_when
    (P : Platform) (now : Z) (data : frame) (message : json) :
  validateMessage now data = Valid message
  ↔ data = Some message
    ∧ requiredPresent message = true
    ∧ passesFreshness now message
    ∧ signatureOk message.
Proof.
  split.
  - intros Hv. pose proof (validateMessage_Valid now data message Hv) as ->.
    split; [done|].
    destruct (requiredPresent message) eqn:Hreq.
    + split; [done|]. rewrite validateMessage_required in Hv by done.
      destruct (new_Date _) as [messageTime|] eqn:Ht; [|done].
      destruct (greaterThan5 _) eqn:Hfresh; [done|].
      split; [by exists messageTime|].
      destruct (present (getProp "signature" message)) eqn:Hsig; [|by left].
      destruct (signMessage message) as [mac|] eqn:Hmac; [|done].
      destruct (strictEqStr _ mac) eqn:E; [|done].
      right. exists mac. by apply strictEqStr_true in E.
    + by destruct (validateMessage_missing now message Hreq) as [H|H];
        rewrite H in Hv.
  - intros (-> & Hreq & Hfresh & Hsig). by apply validateMessage_accepts.
Qed.

(** X2: the errors of [validateMessage] and their order.  A frame that
    does not parse, and the frame [null], are ['Invalid JSON']; any
    other frame with a required field missing, a number, a string or an
    array among them, is ['Missing required fields']; with the fields
    present, a timestamp more than five minutes away is ['Message
    timestamp too old'] whatever the signature; and there is no error
    besides these and ['Invalid signature']. *)
Theorem validate_error_order (P : Platform) (now : Z) :
  validateMessage now None = Invalid "Invalid JSON"
  ∧ validateMessage now (Some JNull) = Invalid "Invalid JSON"
  ∧ (∀ parsed, parsed ≠ JNull → requiredPresent parsed = false →
       validateMessage now (Some parsed) = Invalid "Missing required fields")
  ∧ (∀ parsed messageTime,
       requiredPresent parsed = true →
       new_Date (getProp "timestamp" parsed) = Returns messageTime →
       greaterThan5 (timeDiff now messageTime) = true →
       validateMessage now (Some parsed) = Invalid "Message timestamp too old")
  ∧ (∀ data error,
       validateMessage now data = Invalid error →
       error ∈ ["Invalid JSON"; "Missing required fields";
                "Message timestamp too old"; "Invalid signature"]).
Proof.
  split; [done|]. split; [done|]. split; [|split].
  - intros parsed Hnull Hreq. unfold requiredPresent in Hreq.
    destruct parsed; try done; unfold validateMessage;
      repeat (apply andb_false_iff in Hreq as [Hreq|Hreq]); rewrite Hreq; simpl;
      rewrite ?orb_true_r; done.
  - intros parsed messageTime Hreq Ht Hold.
    by rewrite validateMessage_required, Ht, Hold.
  - intros data error. unfold validateMessage.
    repeat case_match; intros [= <-]; set_solver.
Qed.

Lemma validate_error_order_witness :
  (* a string is a frame with the fields missing *)
  validateMessage (P := Demo.platform) Sample.t0 (Some (JStr "hello"))
  = Invalid "Missing required fields"
  (* a stale message with a wrong signature is reported as stale *)
  ∧ validateMessage (P := Demo.platform) Sample.t0 (Some Traffic.staleForged)
    = Invalid "Message timestamp too old".
Proof.
  destruct (validate_error_order Demo.platform Sample.t0)
    as (_ & _ & Hmissing & Hstale & _).
  split.
  - apply Hmissing; [discriminate|reflexivity].
  - apply (Hstale Traffic.staleForged (Some (Sample.t0 - 301000))); reflexivity.
Defined.

Lemma signMessage_sameSignedFields (P : Platform) (m m' : json) :
  sameSignedFields m m' → signMessage m = signMessage m'.
Proof.
  intros H. unfold signMessage.
  rewrite (H "type"), (H "timestamp"), (H "from"), (H "to"), (H "payload");
    [done|unfold signedFields; set_solver..].
Qed.

(** X3: validation reads [type], [timestamp], [from], [to], [payload]
    and [signature], and of [id] only whether it is present.  Two frames
    that agree on these are accepted or rejected alike: a signed message
    stays acceptable under another [id] and with other fields added. *)
Theorem validation_ignores_id_and_other_fields
    (P : Platform) (now : Z) (m m' : json) :
  sameSignedFields m m' →
  present (getProp "id" m) = present (getProp "id" m') →
  accepted (validateMessage now (Some m)) = accepted (validateMessage now (Some m')).
Proof.
  intros H Hid.
  assert (Hreq : requiredPresent m = requiredPresent m').
  { unfold requiredPresent.
    rewrite (H "type"), (H "timestamp"), (H "from"), (H "to"), Hid;
      [done|unfold signedFields; set_solver..]. }
  destruct (requiredPresent m') eqn:Hreq'.
  - rewrite !validateMessage_required by done.
    rewrite (signMessage_sameSignedFields P m m' H).
    rewrite (H "timestamp"), (H "signature") by (unfold signedFields; set_solver).
    destruct (new_Date _); [|done]. destruct (greaterThan5 _); [done|].
    destruct (present (getProp "signature" m')); [|done].
    destruct (signMessage m'); [|done].
    by destruct (strictEqStr _ _).
  - destruct (validateMessage_missing now m Hreq) as [-> | ->];
      destruct (validateMessage_missing now m' Hreq') as [-> | ->]; done.
Qed.

Lemma validation_ignores_id_and_other_fields_witness :
  sameSignedFields (Sample.signedHeartbeat (H := Demo.platform)) Traffic.replayed
  ∧ validateMessage (P := Demo.platform) Sample.t0 (Some Traffic.replayed)
    = Valid Traffic.replayed.
Proof.
  assert (Hsame : sameSignedFields (Sample.signedHeartbeat (H := Demo.platform))
                                   Traffic.replayed).
  { intros name Hin. unfold signedFields in Hin.
    repeat (apply elem_of_cons in Hin as [->|Hin]; [reflexivity|]).
    by apply elem_of_nil in Hin. }
  split; [exact Hsame|].
  pose proof (validation_ignores_id_and_other_fields
                Demo.platform Sample.t0 _ _ Hsame eq_refl) as H.
  destruct (validateMessage (P := Demo.platform) Sample.t0 (Some Traffic.replayed))
    as [message|error] eqn:Hv.
  - by apply validateMessage_Valid in Hv as [= <-].
  - discriminate H.
Defined.

(** X4: a message [createMessage] builds passes [validateMessage] for
    five minutes.  The preconditions hold for every call the relay
    makes on Node: the strings are not empty and [Date.parse] reads back
    what [toISOString] prints. *)
Theorem created_message_validates
    (P : Platform) (now now' : Z) (type from to : string) (payload : json)
    (w : World) :
  type ≠ "" → from ≠ "" → to ≠ "" →
  randomUUID (issued w) ≠ "" →
  toISOString now ≠ "" →
  Date_parse (toISOString now) = Some now →
  Z.abs (now' - now) ≤ 5 * 60 * 1000 →
  ∃ message,
    createMessage now type from to payload w = Done message (nextIssued w) []
    ∧ validateMessage now' (Some message) = Valid message.
Proof.
  intros Hty Hfrom Hto Hid Hiso Hparse Hnear.
  eexists. split; [apply createMessage_eq|].
  apply validateMessage_accepts.
  - unfold requiredPresent, relayMessage. simpl.
    apply String.eqb_neq in Hty as ->. apply String.eqb_neq in Hfrom as ->.
    apply String.eqb_neq in Hto as ->. apply String.eqb_neq in Hid as ->.
    by apply String.eqb_neq in Hiso as ->.
  - apply withinFiveMinutes_passes. exists now. split; [|done].
    unfold relayMessage. simpl. by rewrite Hparse.
  - right. apply relayMessage_signed.
Qed.

Lemma created_message_validates_witness :
  ∃ message,
    createMessage (P := Demo.platform) Sample.t0 "heartbeat_ack" "relay" "A"
                  (JObj []) initial
    = Done message (nextIssued initial) []
    ∧ validateMessage (P := Demo.platform) (Sample.t0 + 300000) (Some message)
      = Valid message.
Proof.
  apply (created_message_validates Demo.platform Sample.t0 (Sample.t0 + 300000)
           "heartbeat_ack" "relay" "A" (JObj []) initial);
    [discriminate|discriminate|discriminate
    |vm_compute; discriminate|vm_compute; discriminate
    |vm_compute; reflexivity|vm_compute; discriminate].
Defined.

(** ** The message listener *)

Lemma setRegistry_same (w : World) : setRegistry (connectedServers w) w = w.
Proof. by destruct w. Qed.

Lemma touchLastSeen_eq (now : Z) (serverId : string) (w : World) :
  touchLastSeen now serverId w
  = Done () (setRegistry (touched now serverId (connectedServers w)) w) [].
Proof.
  unfold touchLastSeen, touched. rewrite bind_gets.
  destruct (Map_get serverId (connectedServers w)); [done|].
  by rewrite setRegistry_same.
Qed.

(** A valid message on a socket with listeners is dispatched on the
    registry with the sender's entry refreshed. *)
Lemma step_dispatches (P : Platform) (now : Z) (ws : socket)
    (serverId : string) (message : json) (w : World) (type to : string) :
  sessions w !! ws = Some serverId →
  validateMessage now (Some message) = Valid message →
  template (getProp "type" message) = Returns type →
  template (getProp "to" message) = Returns to →
  step now (Message ws (Some message)) w
  = dispatch now serverId message
      (setRegistry (touched now serverId (connectedServers w)) w).
Proof.
  intros Hs Hv Hty Hto.
  rewrite (step_valid_message P now ws serverId message w type to) by done.
  by rewrite (bind_Done_nil _ _ _ _ _ (touchLastSeen_eq now serverId w)).
Qed.

Lemma keys_Map_set_present (key : string) (value : ServerInfo) (m : Map) :
  Map_has key m = true → keys (Map_set key value m) = keys m.
Proof.
  unfold Map_has, Map_get, keys. induction m as [|[k v] m IH]; simpl; [done|].
  destruct (String.eqb_spec k key) as [->|Hne]; [done|].
  intros H. csimpl. f_equal. by apply IH.
Qed.

Lemma Map_set_twice (key : string) (value value' : ServerInfo) (m : Map) :
  Map_set key value' (Map_set key value m) = Map_set key value' m.
Proof.
  induction m as [|[k v] m IH]; simpl.
  - by rewrite String.eqb_refl.
  - destruct (String.eqb_spec k key) as [->|Hne]; simpl.
    + by rewrite String.eqb_refl.
    + apply String.eqb_neq in Hne as ->. by rewrite IH.
Qed.

Lemma keys_touched (now : Z) (serverId : string) (m : Map) :
  keys (touched now serverId m) = keys m.
Proof.
  unfold touched. destruct (Map_get serverId m) eqn:Hget; [|done].
  apply keys_Map_set_present. unfold Map_has. by rewrite Hget.
Qed.

Lemma Map_size_keys (m : Map) : Map_size m = length (keys m).
Proof. unfold Map_size, keys. by rewrite length_fmap. Qed.

Lemma Map_size_touched (now : Z) (serverId : string) (m : Map) :
  Map_size (touched now serverId m) = Map_size m.
Proof. by rewrite !Map_size_keys, keys_touched. Qed.

Lemma Map_get_touched (now : Z) (serverId id : string) (m : Map) :
  Map_get id (touched now serverId m)
  = if String.eqb serverId id then touch now <$> Map_get id m else Map_get id m.
Proof.
  unfold touched. destruct (String.eqb_spec serverId id) as [->|Hne].
  - destruct (Map_get id m) eqn:Hget; [|by rewrite Hget].
    by rewrite Map_get_set_eq.
  - destruct (Map_get serverId m); [|done]. by apply Map_get_set_ne.
Qed.

Lemma lastSeen_touch (now : Z) (info : ServerInfo) :
  ServerInfo.lastSeen (touch now info) = TDate now.
Proof. by destruct info. Qed.

(** Replacing an entry by one that maps to the same thing. *)
Lemma omap_Map_set_same {A} (f : string * ServerInfo → option A)
    (key : string) (value old : ServerInfo) (m : Map) :
  Map_get key m = Some old →
  f (key, value) = f (key, old) →
  omap f (Map_set key value m) = omap f m.
Proof.
  unfold Map_get. intros Hget Hf. induction m as [|[k v] m IH]; [done|].
  simpl in Hget. simpl Map_set. destruct (String.eqb_spec k key) as [->|Hne].
  - injection Hget as ->. csimpl. by rewrite Hf.
  - csimpl. by rewrite IH.
Qed.

(** Refreshing [lastSeen] changes no [ws] field: the sockets a
    broadcast reaches are the same. *)
Lemma recipients_touched (w w' : World) (exclude : option string) (now : Z)
    (serverId : string) (m : Map) :
  readyState w' = readyState w →
  recipients w' exclude (touched now serverId m) = recipients w exclude m.
Proof.
  intros Hrs. rewrite (recipients_ext w' w) by done.
  unfold touched. destruct (Map_get serverId m) as [info|] eqn:Hget; [|done].
  unfold recipients. apply omap_Map_set_same with info; [done|].
  unfold recipient. simpl. by rewrite ws_touch.
Qed.

Lemma faultless_touched (exclude : option string) (now : Z) (serverId : string)
    (m : Map) :
  faultless exclude m → faultless exclude (touched now serverId m).
Proof.
  unfold touched. destruct (Map_get serverId m) as [old|] eqn:Hget; [|done].
  intros Hm id info Hin Hne.
  apply elem_of_Map_set in Hin as [[= -> ->]|Hin]; [|by apply (Hm id info)].
  rewrite ws_touch. apply (Hm serverId old); [|done]. by apply Map_get_Some_elem.
Qed.

Lemma timed_touched (P : Platform) (now : Z) (serverId : string) (m : Map) :
  timed m → timed (touched now serverId m).
Proof.
  unfold touched. destruct (Map_get serverId m) as [old|]; [|done].
  intros Hm id info Hin.
  apply elem_of_Map_set in Hin as [[= -> ->]|Hin]; [|by apply (Hm id info)].
  by destruct old.
Qed.

(** X5: a frame that fails validation gets exactly one reply: a signed
    [error] message with code [INVALID_MESSAGE] and the validation
    error, sent on the socket the frame came in on, whether or not the
    sender still has an entry.  The registry is left as it was: an
    invalid frame does not refresh [lastSeen]. *)
Theorem invalid_frame_gets_one_error_reply
    (P : Platform) (now : Z) (ws : socket) (serverId : string) (data : frame)
    (error : string) (w : World) :
  sessions w !! ws = Some serverId →
  validateMessage now data = Invalid error →
  let reply := relayMessage now (issued w) "error" "relay" serverId
                            (errorPayload error) in
  step now (Message ws data) w = Done () (nextIssued w) [Send ws reply]
  ∧ connectedServers (nextIssued w) = connectedServers w
  ∧ signatureMatches reply.
Proof.
  intros Hs Hv reply. split; [|split; [done|apply relayMessage_signed]].
  unfold step. rewrite bind_gets, Hs. unfold onMessage. rewrite Hv.
  by rewrite bind_createMessage.
Qed.

Lemma invalid_frame_gets_one_error_reply_witness :
  (* the entry of A was evicted; its socket still has its listeners *)
  Map_get "A" (connectedServers Sample.evicted) = None
  ∧ step (P := Demo.platform) (Sample.t0 + 400000)
         (Message Sample.sockA None) Sample.evicted
    = Done () (nextIssued Sample.evicted)
        [Send Sample.sockA
           (relayMessage (P := Demo.platform) (Sample.t0 + 400000)
              (issued Sample.evicted) "error" "relay" "A"
              (errorPayload "Invalid JSON"))].
Proof.
  split; [reflexivity|].
  destruct (invalid_frame_gets_one_error_reply
              Demo.platform (Sample.t0 + 400000) Sample.sockA "A" None
              "Invalid JSON" Sample.evicted) as (H & _); [reflexivity..|].
  exact H.
Defined.

(** ** Heartbeats *)

Lemma step_heartbeat (P : Platform) (now : Z) (ws : socket)
    (serverId text : string) (message : json) (w : World) :
  sessions w !! ws = Some serverId →
  validateMessage now (Some message) = Valid message →
  getProp "type" message = Some (JStr "heartbeat") →
  template (getProp "to" message) = Returns text →
  let ack := relayMessage now (issued w) "heartbeat_ack" "relay" serverId
               (ackPayload now (Map_size (connectedServers w))) in
  let w' := nextIssued (setRegistry (touched now serverId (connectedServers w)) w) in
  step now (Message ws (Some message)) w
  = match Map_get serverId (connectedServers w) with
    | Some info => sendOn (ServerInfo.ws info) ack w'
    | None => Done () w' []
    end.
Proof.
  intros Hs Hv Hty Hto ack w'.
  rewrite (step_dispatches P now ws serverId message w "heartbeat" text)
    by (by rewrite ?Hty).
  unfold dispatch. rewrite Hty. simpl.
  unfold handleHeartbeat. rewrite bind_gets, bind_createMessage, bind_gets.
  simpl. rewrite Map_size_touched, Map_get_touched, String.eqb_refl.
  destruct (Map_get serverId (connectedServers w)); [|done].
  simpl. by rewrite ws_touch.
Qed.



(** ** A valid message keeps its sender registered *)

Lemma readonly_dispatch (P : Platform) (now : Z) (serverId : string)
    (message : json) :
  strictEqStr (getProp "type" message) "server_register" = false →
  readonly (dispatch now serverId message).
Proof.
  intros Hty. unfold dispatch. rewrite Hty.
  repeat destruct (strictEqStr _ _);
    first [ apply readonly_handleHeartbeat | apply readonly_handleTeleportRequest
          | apply readonly_handleTeleportResponse | apply readonly_handleStatusUpdate
          | apply readonly_skip ].
Qed.

(** When the listener returns from a valid message that is no
    [server_register], the registry differs by the refreshed [lastSeen]
    alone. *)
Lemma step_message_registry (P : Platform) (now : Z) (ws : socket)
    (serverId : string) (message : json) (w w' : World) (out : list effect) :
  sessions w !! ws = Some serverId →
  validateMessage now (Some message) = Valid message →
  strictEqStr (getProp "type" message) "server_register" = false →
  step now (Message ws (Some message)) w = Done () w' out →
  connectedServers w' = touched now serverId (connectedServers w).
Proof.
  intros Hs Hv Hty Hstep. unfold step in Hstep. rewrite bind_gets, Hs in Hstep.
  unfold onMessage in Hstep. rewrite Hv in Hstep.
  unfold logMessage in Hstep.
  destruct (template (getProp "type" message)) as [type|]; [|done].
  destruct (template (getProp "to" message)) as [to|]; [|done].
  assert (Hlog : (eval (Returns type) ;; eval (Returns to) ;; skip) w = Done () w [])
    by done.
  rewrite (bind_Done_nil _ _ _ _ _ Hlog) in Hstep.
  rewrite (bind_Done_nil _ _ _ _ _ (touchLastSeen_eq now serverId w)) in Hstep.
  pose proof (readonly_dispatch P now serverId message Hty
                (setRegistry (touched now serverId (connectedServers w)) w)) as H.
  by rewrite Hstep in H.
Qed.

(** ** The sweep, on every registry *)

Lemma sweep_throws (P : Platform) (now : Z) (m : Map) (id : string)
    (info : ServerInfo) :
  (id, info) ∈ m → lastSeenNumber info = Throws → sweep now m = Throws.
Proof.
  intros Hin Hthrows. induction m as [|[k v] m IH]; [by apply elem_of_nil in Hin|].
  simpl. apply elem_of_cons in Hin as [[= <- <-]|Hin].
  - unfold stale. by rewrite Hthrows.
  - destruct (stale now v); [|done]. simpl. by rewrite (IH Hin).
Qed.

Lemma swept_keeps_fresh (P : Platform) (now : Z) (m m' : Map) (id : string)
    (info : ServerInfo) :
  sweep now m = Returns m' → (id, info) ∈ m → stale now info = Returns false →
  (id, info) ∈ m'.
Proof.
  revert m'. induction m as [|[k v] m IH]; intros m' Hsweep Hin Hfresh;
    [by apply elem_of_nil in Hin|].
  simpl in Hsweep. destruct (stale now v) as [old|] eqn:Hold; [|done].
  destruct (sweep now m) as [rest|]; [|done]. injection Hsweep as <-.
  apply elem_of_cons in Hin as [[= <- <-]|Hin].
  - rewrite Hfresh in Hold. injection Hold as <-. apply list_elem_of_here.
  - destruct old; [by apply IH|]. apply list_elem_of_further. by apply IH.
Qed.

(** ** Ticks after a valid message *)

Lemma step_Tick (P : Platform) (now : Z) (w : World) :
  step now Tick w = match sweep now (connectedServers w) with
                    | Returns m' => Done () (setRegistry m' w) []
                    | Throws => Threw []
                    end.
Proof.
  unfold step, reaper. rewrite bind_gets.
  destruct (sweep now (connectedServers w)); [|done].
  by rewrite bind_eval_Returns.
Qed.

(** An entry that no tick of a series finds stale is there after the
    series, if the series does not throw. *)
Lemma ticks_keep_fresh (P : Platform) (times : list Z) (id : string)
    (info : ServerInfo) (w : World) :
  NoDup (keys (connectedServers w)) →
  Map_get id (connectedServers w) = Some info →
  Forall (λ t, stale t info = Returns false) times →
  match run (ticksAt times) w with
  | Done _ w' out => out = [] ∧ Map_get id (connectedServers w') = Some info
  | Threw out => out = []
  end.
Proof.
  revert w. induction times as [|t times IH]; intros w Hnd Hget Hfresh; [done|].
  apply Forall_cons in Hfresh as [Ht Hfresh]. simpl run.
  pose proof (step_Tick P t w) as Hstep.
  destruct (sweep t (connectedServers w)) as [m'|] eqn:Hsweep.
  - rewrite (bind_Done_nil _ _ _ _ _ Hstep). apply IH; [|simpl|done].
    + by eapply NoDup_keys_swept.
    + apply Map_get_elem; [by eapply NoDup_keys_swept|].
      eapply swept_keeps_fresh; [done| |done]. by apply Map_get_Some_elem.
  - by rewrite (bind_Threw _ _ _ _ Hstep).
Qed.

(** X7: when the listener returns from a valid message other than a
    [server_register], sent on a socket whose server has an entry in a
    registry with distinct keys, the registry is the one before with the
    [lastSeen] of the sender's entry set to the time of receipt: same
    keys, the other entries as they were, the other fields of the
    sender's entry as they were.  The ticks of the reaper that follow
    directly, each at most five minutes after the receipt, emit nothing
    and do not evict the sender: if they return, the sender's key still
    finds that entry.  A tick returns whenever every [lastSeen] of the
    registry converts to a number. *)
Theorem valid_message_keeps_sender_registered
    (P : Platform) (now : Z) (ws : socket) (serverId : string)
    (message : json) (info : ServerInfo) (w w1 : World) (out : list effect) :
  sessions w !! ws = Some serverId →
  validateMessage now (Some message) = Valid message →
  getProp "type" message ≠ Some (JStr "server_register") →
  Map_get serverId (connectedServers w) = Some info →
  NoDup (keys (connectedServers w)) →
  step now (Message ws (Some message)) w = Done () w1 out →
  connectedServers w1 = Map_set serverId (touch now info) (connectedServers w)
  ∧ keys (connectedServers w1) = keys (connectedServers w)
  ∧ (∀ id, id ≠ serverId →
           Map_get id (connectedServers w1) = Map_get id (connectedServers w))
  ∧ Map_get serverId (connectedServers w1) = Some (touch now info)
  ∧ touch now info
    = {| ServerInfo.serverId := ServerInfo.serverId info;
         ServerInfo.version := ServerInfo.version info;
         ServerInfo.capabilities := ServerInfo.capabilities info;
         ServerInfo.connected := ServerInfo.connected info;
         ServerInfo.lastSeen := TDate now;
         ServerInfo.ws := ServerInfo.ws info;
         ServerInfo.others := ServerInfo.others info |}
  ∧ (∀ times,
       Forall (λ t, t - now ≤ 5 * 60 * 1000) times →
       match run (ticksAt times) w1 with
       | Done _ w2 out' =>
           out' = []
           ∧ Map_get serverId (connectedServers w2) = Some (touch now info)
       | Threw out' => out' = []
       end)
  ∧ (∀ now',
       now' - now ≤ 5 * 60 * 1000 →
       match step now' Tick w1 with
       | Done _ w2 out' =>
           out' = []
           ∧ Map_get serverId (connectedServers w2) = Some (touch now info)
       | Threw out' => out' = []
       end
       ∧ (timed (connectedServers w) →
          ∃ w2, step now' Tick w1 = Done () w2 []
                ∧ Map_get serverId (connectedServers w2)
                  = Some (touch now info))).
Proof.
  intros Hs Hv Hty Hget Hnd Hstep.
  apply strictEqStr_false in Hty.
  pose proof (step_message_registry P now ws serverId message w w1 out
                Hs Hv Hty Hstep) as Hreg.
  assert (Hreg' : connectedServers w1
                  = Map_set serverId (touch now info) (connectedServers w)).
  { rewrite Hreg. unfold touched. by rewrite Hget. }
  assert (Hget1 : Map_get serverId (connectedServers w1) = Some (touch now info)).
  { by rewrite Hreg, Map_get_touched, String.eqb_refl, Hget. }
  assert (Hnd1 : NoDup (keys (connectedServers w1)))
    by (by rewrite Hreg, keys_touched).
  assert (Hfresh : ∀ now', now' - now ≤ 5 * 60 * 1000 →
                           stale now' (touch now info) = Returns false).
  { intros now' Hnear.
    rewrite (stale_date P now' now) by apply lastSeen_touch.
    by destruct (Z.gtb_spec (now' - now) (5 * 60 * 1000)); [lia|]. }
  assert (Hkept : ∀ now' m', now' - now ≤ 5 * 60 * 1000 →
                             sweep now' (connectedServers w1) = Returns m' →
                             Map_get serverId m' = Some (touch now info)).
  { intros now' m' Hnear Hsweep.
    apply Map_get_elem; [by eapply NoDup_keys_swept|].
    eapply swept_keeps_fresh; [done| |by apply Hfresh].
    by apply Map_get_Some_elem. }
  split; [done|]. split; [by rewrite Hreg, keys_touched|].
  split.
  { intros id Hne. rewrite Hreg, Map_get_touched.
    by apply not_eq_sym, String.eqb_neq in Hne as ->. }
  split; [done|]. split; [by destruct info|].
  split.
  { intros times Hnear. apply ticks_keep_fresh; [done|done|].
    eapply Forall_impl; [exact Hnear|]. intros t. apply Hfresh. }
  intros now' Hnear. rewrite step_Tick. split.
  - destruct (sweep now' (connectedServers w1)) as [m'|] eqn:Hsweep; [|done].
    split; [done|]. by apply (Hkept now').
  - intros Htimed.
    assert (Htimed1 : timed (connectedServers w1))
      by (rewrite Hreg; by apply timed_touched).
    destruct (sweep_timed P now' (connectedServers w1) Htimed1) as (m' & Hsweep & _).
    exists (setRegistry m' w1). rewrite Hsweep.
    split; [done|]. by apply (Hkept now').
Qed.

Lemma valid_message_keeps_sender_registered_witness :
  (* without the heartbeat the tick six minutes after [t0] evicts A *)
  Map_get "A" (connectedServers Sample.evicted) = None
  (* with a heartbeat 250 seconds after [t0] it does not *)
  ∧ ∃ w2,
      step (P := Demo.platform) (Sample.t0 + 360000) Tick
           (Traffic.after (Sample.t0 + 250000)
              (Message Sample.sockA (Some Traffic.lateHeartbeat))
              Sample.twoServers)
      = Done () w2 []
      ∧ Map_get "A" (connectedServers w2)
        = Some (touch (Sample.t0 + 250000)
                      (Sample.entry "A" Sample.sockA Sample.t0)).
Proof.
  split; [reflexivity|].
  assert (Hnd : NoDup (keys (connectedServers Sample.twoServers))).
  { apply (bool_decide_unpack _). vm_compute. exact I. }
  destruct (valid_message_keeps_sender_registered
              Demo.platform (Sample.t0 + 250000)
              Sample.sockA "A" Traffic.lateHeartbeat
              (Sample.entry "A" Sample.sockA Sample.t0) Sample.twoServers
              (Traffic.after (Sample.t0 + 250000)
                 (Message Sample.sockA (Some Traffic.lateHeartbeat))
                 Sample.twoServers)
              [Send Sample.sockA
                 (relayMessage (P := Demo.platform) (Sample.t0 + 250000)
                    (issued Sample.twoServers) "heartbeat_ack" "relay" "A"
                    (ackPayload (P := Demo.platform) (Sample.t0 + 250000) 2))])
    as (_ & _ & _ & _ & _ & _ & H);
    [reflexivity|reflexivity|discriminate|reflexivity|exact Hnd|reflexivity|].
  destruct (H (Sample.t0 + 360000)) as [_ H']; [vm_compute; discriminate|].
  apply H'. by apply timed_scan.
Defined.

(** ** What the tests on a [ws] field come to *)

Lemma probeHandle_IsOpen (w : World) (info : ServerInfo) (s : socket) :
  probeHandle w (ServerInfo.ws info) = IsOpen s ↔ openSocket w info s.
Proof.
  unfold openSocket. destruct (ServerInfo.ws info) as [h|v]; simpl.
  - destruct (Nat.eqb_spec (readyStateOf h w) OPEN) as [E|E]; split.
    + by intros [= ->].
    + by intros [[= ->] _].
    + done.
    + intros [[= ->] ?]. done.
  - split; [|by intros [? _]].
    destruct v; try done; by destruct (strictEqNum _ _).
Qed.

Lemma probeHandle_NotOpen (w : World) (info : ServerInfo) :
  probeHandle w (ServerInfo.ws info) = NotOpen ↔ closedSocket w info.
Proof.
  unfold closedSocket. split.
  - intros Hp. split.
    + apply not_true_iff_false. intros Hf.
      apply (probeHandle_faulty w) in Hf. congruence.
    + intros s Hs. apply probeHandle_IsOpen in Hs. congruence.
  - intros [Hf Hs].
    destruct (probeHandle w (ServerInfo.ws info)) as [s| |] eqn:Hp; [|done|].
    + by apply probeHandle_IsOpen, Hs in Hp.
    + apply probeHandle_faulty in Hp. congruence.
Qed.

(** ** Broadcasts, on every registry *)

Lemma elem_of_recipients_iff (w : World) (exclude : option string) (m : Map)
    (s : socket) :
  s ∈ recipients w exclude m
  ↔ ∃ id info, (id, info) ∈ m ∧ Some id ≠ exclude ∧ openSocket w info s.
Proof.
  unfold recipients. rewrite list_elem_of_omap. split.
  - intros ([id info] & Hin & Hr). exists id, info. split; [done|].
    unfold recipient in Hr. simpl in Hr.
    case_bool_decide as Hex; [done|]. split; [done|].
    apply probeHandle_IsOpen.
    destruct (probeHandle w (ServerInfo.ws info)); by try injection Hr as ->.
  - intros (id & info & Hin & Hex & Hopen). exists (id, info). split; [done|].
    unfold recipient. simpl. rewrite bool_decide_eq_false_2 by done.
    by apply probeHandle_IsOpen in Hopen as ->.
Qed.

Lemma faultless_no_break (exclude : option string) (m : Map) :
  faultless exclude m →
  existsb (breaks exclude) m = false ∧ beforeFault exclude m = m.
Proof.
  induction m as [|[id info] m IH]; intros Hm; [done|].
  assert (Hb : breaks exclude (id, info) = false).
  { unfold breaks. simpl. case_bool_decide as Hex; [done|]. simpl.
    apply (Hm id info); [apply list_elem_of_here|done]. }
  destruct IH as [IH1 IH2].
  { intros ????. eapply Hm; [|done]. by apply list_elem_of_further. }
  simpl. by rewrite Hb, IH1, IH2.
Qed.

(** [broadcastToAll] on any registry: the entries before the first
    faulty one are served, and the loop throws if there is a faulty
    one. *)
Lemma broadcastToAll_served (message : json) (exclude : option string)
    (w : World) :
  broadcastToAll message exclude w
  = if existsb (breaks exclude) (connectedServers w)
    then Threw (sendEach message (served w exclude (connectedServers w)))
    else Done () w (sendEach message (served w exclude (connectedServers w))).
Proof.
  unfold served, broadcastToAll. rewrite bind_gets.
  generalize (connectedServers w) as m. intros m.
  match goal with |- context [forEach ?b m w] => set (body := b) end.
  induction m as [|[id info] m IH]; [done|].
  simpl forEach. simpl existsb. simpl beforeFault.
  assert (Hb : body (id, info) w
               = if bool_decide (Some id = exclude) then Done () w []
                 else match probeHandle w (ServerInfo.ws info) with
                      | IsOpen s => Done () w [Send s message]
                      | NotOpen => Done () w []
                      | TypeError => Threw []
                      end).
  { unfold body. rewrite excluded_decide. case_bool_decide; [done|].
    rewrite bind_getWorld. by destruct (probeHandle _ _). }
  destruct (breaks exclude (id, info)) eqn:Hbr; unfold breaks in Hbr;
    simpl in Hbr.
  - apply andb_true_iff in Hbr as [Hex Hf].
    apply negb_true_iff in Hex. rewrite Hex in Hb.
    apply probeHandle_faulty with (w := w) in Hf. rewrite Hf in Hb.
    by rewrite (bind_Threw _ _ _ _ Hb).
  - assert (Hr : body (id, info) w
                 = Done () w (sendEach message
                                (option_list (recipient w exclude (id, info))))).
    { rewrite Hb. unfold recipient. simpl.
      destruct (bool_decide (Some id = exclude)); [done|]. simpl in Hbr.
      destruct (probeHandle w (ServerInfo.ws info)) eqn:Hp; try done.
      apply probeHandle_faulty in Hp. congruence. }
    rewrite (bind_Done _ _ _ _ _ _ Hr), IH. unfold recipients. csimpl.
    by destruct (recipient w exclude (id, info)), (existsb _ _).
Qed.

Lemma served_faultless (w : World) (exclude : option string) (m : Map) :
  faultless exclude m → served w exclude m = recipients w exclude m.
Proof. intros Hm. unfold served. by destruct (faultless_no_break exclude m Hm) as [_ ->]. Qed.

(** Replacing an entry by one with the same [ws] field changes neither
    where a broadcast throws nor whom it serves. *)
Lemma breaks_Map_set_same (exclude : option string) (key : string)
    (value old : ServerInfo) (m : Map) :
  Map_get key m = Some old →
  ServerInfo.ws value = ServerInfo.ws old →
  existsb (breaks exclude) (Map_set key value m) = existsb (breaks exclude) m.
Proof.
  unfold Map_get. intros Hget Hws. induction m as [|[k v] m IH]; [done|].
  simpl in Hget. simpl Map_set. destruct (String.eqb_spec k key) as [->|Hne].
  - injection Hget as ->. simpl. unfold breaks. simpl. by rewrite Hws.
  - simpl. by rewrite IH.
Qed.

Lemma served_Map_set_same (w : World) (exclude : option string) (key : string)
    (value old : ServerInfo) (m : Map) :
  Map_get key m = Some old →
  ServerInfo.ws value = ServerInfo.ws old →
  served w exclude (Map_set key value m) = served w exclude m.
Proof.
  unfold Map_get, served, recipients. intros Hget Hws.
  induction m as [|[k v] m IH]; [done|].
  simpl in Hget. simpl Map_set. destruct (String.eqb_spec k key) as [->|Hne].
  - injection Hget as ->. simpl beforeFault.
    assert (Hb : breaks exclude (key, value) = breaks exclude (key, old))
      by (unfold breaks; simpl; by rewrite Hws).
    assert (Hr : recipient w exclude (key, value) = recipient w exclude (key, old))
      by (unfold recipient; simpl; by rewrite Hws).
    rewrite Hb. destruct (breaks exclude (key, old)); [done|]. csimpl.
    by rewrite Hr.
  - simpl beforeFault. destruct (breaks exclude (k, v)); [done|].
    csimpl. by rewrite IH.
Qed.

Lemma breaks_touched (exclude : option string) (now : Z) (serverId : string)
    (m : Map) :
  existsb (breaks exclude) (touched now serverId m) = existsb (breaks exclude) m.
Proof.
  unfold touched. destruct (Map_get serverId m) as [old|] eqn:Hget; [|done].
  apply breaks_Map_set_same with old; [done|apply ws_touch].
Qed.

Lemma served_touched (w w' : World) (exclude : option string) (now : Z)
    (serverId : string) (m : Map) :
  readyState w' = readyState w →
  served w' exclude (touched now serverId m) = served w exclude m.
Proof.
  intros Hrs. unfold served at 1. rewrite (recipients_ext w' w) by done.
  fold (served w exclude (touched now serverId m)).
  unfold touched. destruct (Map_get serverId m) as [old|] eqn:Hget; [|done].
  apply served_Map_set_same with old; [done|apply ws_touch].
Qed.

(** The entries a broadcast visits before it throws are the longest
    prefix of the registry with no faulty entry outside the excluded
    key. *)
Lemma beforeFault_prefix (exclude : option string) (m : Map) :
  ∃ rest,
    m = beforeFault exclude m ++ rest
    ∧ Forall (λ e, breaks exclude e = false) (beforeFault exclude m)
    ∧ (if existsb (breaks exclude) m
       then ∃ e tail, rest = e :: tail ∧ breaks exclude e = true
       else rest = []).
Proof.
  induction m as [|e m (rest & Hm & Hall & Hrest)]; [by exists []|].
  simpl. destruct (breaks exclude e) eqn:He.
  - exists (e :: m). split; [done|]. split; [constructor|]. by exists e, m.
  - exists rest. split; [simpl; by f_equal|]. split; [by constructor|done].
Qed.

Lemma elem_of_beforeFault (exclude : option string) (m : Map)
    (e : string * ServerInfo) :
  e ∈ beforeFault exclude m → e ∈ m.
Proof.
  destruct (beforeFault_prefix exclude m) as (rest & Hm & _).
  intros Hin. rewrite Hm. apply elem_of_app. by left.
Qed.

Lemma elem_of_served (w : World) (exclude : option string) (m : Map) (s : socket) :
  s ∈ served w exclude m
  ↔ ∃ id info, (id, info) ∈ beforeFault exclude m ∧ Some id ≠ exclude
               ∧ openSocket w info s.
Proof. apply elem_of_recipients_iff. Qed.

(** The broadcast of a handler, which excludes the sender: the refresh
    of the sender's [lastSeen] changes nothing to it. *)
Lemma excluded_broadcast_served (message : json) (serverId : string) (now : Z)
    (w : World) :
  let w' := setRegistry (touched now serverId (connectedServers w)) w in
  broadcastToAll message (Some serverId) w'
  = if existsb (breaks (Some serverId)) (connectedServers w)
    then Threw (sendEach message (served w (Some serverId) (connectedServers w)))
    else Done () w' (sendEach message
                       (served w (Some serverId) (connectedServers w))).
Proof.
  intros w'. rewrite broadcastToAll_served.
  change (connectedServers w') with (touched now serverId (connectedServers w)).
  by rewrite breaks_touched, (served_touched w w').
Qed.

Lemma recipients_others (w : World) (serverId : string) (m : Map) (s : socket) :
  s ∈ recipients w (Some serverId) m
  ↔ ∃ id info, (id, info) ∈ m ∧ id ≠ serverId ∧ openSocket w info s.
Proof.
  rewrite elem_of_recipients_iff. split; intros (id & info & ? & ? & ?);
    exists id, info; (split; [done|]); (split; [congruence|done]).
Qed.

Lemma served_others (w : World) (serverId : string) (m : Map) (s : socket) :
  s ∈ served w (Some serverId) m
  ↔ ∃ id info, (id, info) ∈ beforeFault (Some serverId) m ∧ id ≠ serverId
               ∧ openSocket w info s.
Proof. apply recipients_others. Qed.

Lemma served_all (w : World) (m : Map) (s : socket) :
  s ∈ served w None m
  ↔ ∃ id info, (id, info) ∈ beforeFault None m ∧ openSocket w info s.
Proof.
  rewrite elem_of_served. split.
  - intros (id & info & ? & _ & ?). by exists id, info.
  - intros (id & info & ? & ?). by exists id, info.
Qed.

(** ** Teleport requests, on every registry *)

(** [sendToServer] under a message key, by the state of the entry. *)
Lemma sendToServer_json_eq (P : Platform) (key : option json) (message : json)
    (w : World) :
  sendToServer_json key message w
  = match Map_get_json key (connectedServers w) with
    | None => Done false w []
    | Some info =>
        match probeHandle w (ServerInfo.ws info) with
        | IsOpen s => Done true w [Send s message]
        | NotOpen => Done false w []
        | TypeError => Threw []
        end
    end.
Proof.
  unfold sendToServer_json. rewrite bind_gets.
  destruct (Map_get_json key (connectedServers w)) as [info|]; [|done].
  unfold sendToEntry. rewrite bind_getWorld.
  by destruct (probeHandle w (ServerInfo.ws info)).
Qed.

Lemma sendToServer_eq (P : Platform) (key : string) (message : json) (w : World) :
  sendToServer key message w
  = match Map_get key (connectedServers w) with
    | None => Done false w []
    | Some info =>
        match probeHandle w (ServerInfo.ws info) with
        | IsOpen s => Done true w [Send s message]
        | NotOpen => Done false w []
        | TypeError => Threw []
        end
    end.
Proof.
  unfold sendToServer. rewrite bind_gets.
  destruct (Map_get key (connectedServers w)) as [info|]; [|done].
  unfold sendToEntry. rewrite bind_getWorld.
  by destruct (probeHandle w (ServerInfo.ws info)).
Qed.

(** The failure reply of [handleTeleportRequest], by the state of the
    requester's entry. *)
Lemma teleportFailure_reply (P : Platform) (now : Z) (serverId text code tail : string)
    (message : json) (w : World) :
  template (getProp "to" message) = Returns text →
  (target ← eval (template (getProp "to" message));
   errorMessage ← createMessage now "teleport_response" "relay" serverId
                    (teleportFailure message code
                       ("Target server " +:+ target +:+ tail));
   sendToServer serverId errorMessage ;; skip) w
  = match Map_get serverId (connectedServers w) with
    | None => Done () (nextIssued w) []
    | Some requester =>
        match probeHandle w (ServerInfo.ws requester) with
        | IsOpen h =>
            Done () (nextIssued w)
                 [Send h (failedResponse now (issued w) serverId message
                            code text tail)]
        | NotOpen => Done () (nextIssued w) []
        | TypeError => Threw []
        end
    end.
Proof.
  intros Hto. rewrite Hto, bind_eval_Returns, bind_createMessage.
  pose proof (sendToServer_eq P serverId
                (failedResponse now (issued w) serverId message code text tail)
                (nextIssued w)) as Hsend.
  simpl in Hsend.
  destruct (Map_get serverId (connectedServers w)) as [requester|].
  - change (probeHandle (nextIssued w) (ServerInfo.ws requester))
      with (probeHandle w (ServerInfo.ws requester)) in Hsend.
    destruct (probeHandle w (ServerInfo.ws requester)).
    + by rewrite (bind_Done _ _ _ _ _ _ Hsend).
    + by rewrite (bind_Done_nil _ _ _ _ _ Hsend).
    + by rewrite (bind_Threw _ _ _ _ Hsend).
  - by rewrite (bind_Done_nil _ _ _ _ _ Hsend).
Qed.

(** [handleTeleportRequest] on any registry. *)
Lemma handleTeleportRequest_eq (P : Platform) (now : Z) (serverId text : string)
    (message : json) (w : World) :
  template (getProp "to" message) = Returns text →
  let respond code tail :=
    match Map_get serverId (connectedServers w) with
    | None => Done () (nextIssued w) []
    | Some requester =>
        match probeHandle w (ServerInfo.ws requester) with
        | IsOpen h =>
            Done () (nextIssued w)
                 [Send h (failedResponse now (issued w) serverId message
                            code text tail)]
        | NotOpen => Done () (nextIssued w) []
        | TypeError => Threw []
        end
    end in
  handleTeleportRequest now serverId message w
  = match Map_get_json (getProp "to" message) (connectedServers w) with
    | None => respond "SERVER_NOT_FOUND" " not found"
    | Some target =>
        match probeHandle w (ServerInfo.ws target) with
        | IsOpen t => Done () w [Send t message]
        | NotOpen => respond "TARGET_UNAVAILABLE" " is not available"
        | TypeError => Threw []
        end
    end.
Proof.
  intros Hto respond. unfold handleTeleportRequest. cbv zeta. rewrite bind_gets.
  pose proof (sendToServer_json_eq P (getProp "to" message) message w) as Hfwd.
  destruct (Map_get_json (getProp "to" message) (connectedServers w))
    as [target|].
  - destruct (probeHandle w (ServerInfo.ws target)).
    + by rewrite (bind_Done _ _ _ _ _ _ Hfwd).
    + rewrite (bind_Done_nil _ _ _ _ _ Hfwd).
      by apply (teleportFailure_reply P now serverId text "TARGET_UNAVAILABLE"
                  " is not available").
    + by rewrite (bind_Threw _ _ _ _ Hfwd).
  - by apply (teleportFailure_reply P now serverId text "SERVER_NOT_FOUND"
                " not found").
Qed.

Lemma Map_get_json_touched (now : Z) (serverId : string) (key : option json)
    (m : Map) :
  ServerInfo.ws <$> Map_get_json key (touched now serverId m)
  = ServerInfo.ws <$> Map_get_json key m.
Proof.
  destruct key as [[]|]; try done. simpl. rewrite Map_get_touched.
  destruct (String.eqb serverId s); [|done].
  destruct (Map_get s m); [|done]. simpl. by rewrite ws_touch.
Qed.

Lemma Map_get_ws_touched (now : Z) (serverId key : string) (m : Map) :
  ServerInfo.ws <$> Map_get key (touched now serverId m)
  = ServerInfo.ws <$> Map_get key m.
Proof. apply (Map_get_json_touched now serverId (Some (JStr key))). Qed.

(** A valid [teleport_request] on any registry, by the states of the
    target's and of the requester's entry before the turn. *)
Lemma step_teleport_request (P : Platform) (now : Z) (ws : socket)
    (serverId text : string) (message : json) (w : World) :
  sessions w !! ws = Some serverId →
  validateMessage now (Some message) = Valid message →
  getProp "type" message = Some (JStr "teleport_request") →
  template (getProp "to" message) = Returns text →
  let w1 := setRegistry (touched now serverId (connectedServers w)) w in
  let respond code tail :=
    match ServerInfo.ws <$> Map_get serverId (connectedServers w) with
    | None => Done () (nextIssued w1) []
    | Some h =>
        match probeHandle w h with
        | IsOpen s =>
            Done () (nextIssued w1)
                 [Send s (failedResponse now (issued w) serverId message
                            code text tail)]
        | NotOpen => Done () (nextIssued w1) []
        | TypeError => Threw []
        end
    end in
  step now (Message ws (Some message)) w
  = match ServerInfo.ws <$> Map_get_json (getProp "to" message) (connectedServers w) with
    | None => respond "SERVER_NOT_FOUND" " not found"
    | Some h =>
        match probeHandle w h with
        | IsOpen t => Done () w1 [Send t message]
        | NotOpen => respond "TARGET_UNAVAILABLE" " is not available"
        | TypeError => Threw []
        end
    end.
Proof.
  intros Hs Hv Hty Hto w1 respond.
  rewrite (step_dispatches P now ws serverId message w "teleport_request" text)
    by (by rewrite ?Hty).
  rewrite (dispatch_teleport_request P now serverId message Hty). fold w1.
  rewrite (handleTeleportRequest_eq P now serverId text message w1 Hto).
  cbv zeta. unfold respond.
  pose proof (Map_get_json_touched now serverId (getProp "to" message)
                (connectedServers w)) as Ht.
  pose proof (Map_get_ws_touched now serverId serverId (connectedServers w)) as Hr.
  change (connectedServers w1) with (touched now serverId (connectedServers w)).
  destruct (Map_get_json (getProp "to" message)
              (touched now serverId (connectedServers w))) as [t1|];
    destruct (Map_get_json (getProp "to" message) (connectedServers w)) as [t0|];
    simpl in Ht; try done;
    destruct (Map_get serverId (touched now serverId (connectedServers w))) as [r1|];
    destruct (Map_get serverId (connectedServers w)) as [r0|];
    simpl in Hr; try done; simpl;
    repeat match goal with H : Some _ = Some _ |- _ => injection H as H; rewrite H end;
    done.
Qed.

(** The log line converts [to] to a string before the message is
    handled: when the conversion throws, so does the listener. *)
Lemma step_to_throws (P : Platform) (now : Z) (ws : socket) (serverId : string)
    (message : json) (w : World) (type : string) :
  sessions w !! ws = Some serverId →
  validateMessage now (Some message) = Valid message →
  template (getProp "type" message) = Returns type →
  template (getProp "to" message) = Throws →
  step now (Message ws (Some message)) w = Threw [].
Proof.
  intros Hs Hv Hty Hto. unfold step. rewrite bind_gets, Hs.
  unfold onMessage. rewrite Hv. unfold logMessage at 1.
  rewrite Hty, Hto.
  assert (Hlog : (eval (Returns type) ;; eval (@Throws string) ;; skip) w
                 = Threw [])
    by done.
  by rewrite (bind_Threw _ _ _ _ Hlog).
Qed.


(** ** Registration *)



(** What [setProp] leaves alone. *)
Lemma setProp_other (name : string) (v : json) (o : ServerInfo) :
  (String.eqb name "serverId" = false →
   ServerInfo.serverId (setProp name v o) = ServerInfo.serverId o)
  ∧ (String.eqb name "version" = false →
     ServerInfo.version (setProp name v o) = ServerInfo.version o)
  ∧ (String.eqb name "capabilities" = false →
     ServerInfo.capabilities (setProp name v o) = ServerInfo.capabilities o)
  ∧ (String.eqb name "connected" = false →
     ServerInfo.connected (setProp name v o) = ServerInfo.connected o)
  ∧ (String.eqb name "lastSeen" = false →
     ServerInfo.lastSeen (setProp name v o) = ServerInfo.lastSeen o)
  ∧ (String.eqb name "ws" = false →
     ServerInfo.ws (setProp name v o) = ServerInfo.ws o).
Proof.
  destruct o. unfold setProp.
  repeat split; intros H; rewrite ?H; repeat case_match; done.
Qed.

Lemma assoc_cons_None {A} (name k : string) (v : A) (props : list (string * A)) :
  assoc name ((k, v) :: props) = None →
  String.eqb k name = false ∧ assoc name props = None.
Proof. simpl. by destruct (String.eqb k name). Qed.

(** [Object.assign] leaves the fields the source does not name. *)
Lemma Object_assign_unnamed (info : ServerInfo) (payload : json) :
  (unnamed "serverId" payload →
   ServerInfo.serverId (Object_assign info payload) = ServerInfo.serverId info)
  ∧ (unnamed "version" payload →
     ServerInfo.version (Object_assign info payload) = ServerInfo.version info)
  ∧ (unnamed "capabilities" payload →
     ServerInfo.capabilities (Object_assign info payload)
     = ServerInfo.capabilities info)
  ∧ (unnamed "connected" payload →
     ServerInfo.connected (Object_assign info payload) = ServerInfo.connected info)
  ∧ (unnamed "lastSeen" payload →
     ServerInfo.lastSeen (Object_assign info payload) = ServerInfo.lastSeen info)
  ∧ (unnamed "ws" payload →
     ServerInfo.ws (Object_assign info payload) = ServerInfo.ws info).
Proof.
  unfold unnamed, Object_assign.
  generalize (ownProperties payload) as props. intros props. revert info.
  induction props as [|[k v] props IH]; intros info; [done|].
  simpl foldl.
  destruct (IH (setProp k v info)) as (I1 & I2 & I3 & I4 & I5 & I6).
  destruct (setProp_other k v info) as (S1 & S2 & S3 & S4 & S5 & S6).
  repeat split; intros [Hk Hrest]%assoc_cons_None;
    [rewrite I1, S1|rewrite I2, S2|rewrite I3, S3|rewrite I4, S4
    |rewrite I5, S5|rewrite I6, S6]; done.
Qed.

(** The registry a [server_register] with a payload leaves, when the
    listener returns. *)
Lemma step_register_registry (P : Platform) (now : Z) (ws : socket)
    (serverId : string) (message payload : json) (info : ServerInfo)
    (w w' : World) (out : list effect) :
  sessions w !! ws = Some serverId →
  validateMessage now (Some message) = Valid message →
  getProp "type" message = Some (JStr "server_register") →
  getProp "payload" message = Some payload →
  Map_get serverId (connectedServers w) = Some info →
  step now (Message ws (Some message)) w = Done () w' out →
  connectedServers w'
  = Map_set serverId (registered now message info) (connectedServers w).
Proof.
  intros Hs Hv Hty Hp Hget Hstep.
  unfold step in Hstep. rewrite bind_gets, Hs in Hstep.
  unfold onMessage in Hstep. rewrite Hv in Hstep.
  unfold logMessage in Hstep. rewrite Hty in Hstep.
  destruct (template (getProp "to" message)) as [to|]; [|done].
  assert (Hlog : (eval (template (Some (JStr "server_register"))) ;;
                  eval (Returns to) ;; skip) w = Done () w [])
    by done.
  rewrite (bind_Done_nil _ _ _ _ _ Hlog) in Hstep.
  rewrite (bind_Done_nil _ _ _ _ _ (touchLastSeen_eq now serverId w)) in Hstep.
  unfold dispatch in Hstep. rewrite Hty in Hstep. simpl in Hstep.
  unfold handleServerRegister in Hstep. rewrite bind_gets in Hstep.
  simpl in Hstep.
  rewrite Map_get_touched, String.eqb_refl, Hget, Hp in Hstep. simpl in Hstep.
  unfold registered. rewrite Hp. unfold touched in *. rewrite Hget in *.
  destruct (truthy payload); injection Hstep as <- _; simpl.
  - apply Map_set_twice.
  - done.
Qed.

(** X9: the merge of a [server_register] touches only the fields its
    payload names.  When the payload has no [serverId], the entry keeps
    its [serverId], and the registry keeps every entry under its own
    [serverId]; without [ws] the entry keeps its socket; without
    [lastSeen] its [lastSeen] is the time of receipt; and so for
    [connected], [capabilities] and [version]. *)
Theorem server_register_leaves_unnamed_fields
    (P : Platform) (now : Z) (ws : socket) (serverId : string)
    (message payload : json) (info : ServerInfo) (w w' : World)
    (out : list effect) :
  sessions w !! ws = Some serverId →
  validateMessage now (Some message) = Valid message →
  getProp "type" message = Some (JStr "server_register") →
  getProp "payload" message = Some payload →
  Map_get serverId (connectedServers w) = Some info →
  step now (Message ws (Some message)) w = Done () w' out →
  ∃ info',
    Map_get serverId (connectedServers w') = Some info'
    ∧ (unnamed "serverId" payload →
       ServerInfo.serverId info' = ServerInfo.serverId info
       ∧ (keyed (connectedServers w) → keyed (connectedServers w')))
    ∧ (unnamed "ws" payload → ServerInfo.ws info' = ServerInfo.ws info)
    ∧ (unnamed "lastSeen" payload → ServerInfo.lastSeen info' = TDate now)
    ∧ (unnamed "connected" payload →
       ServerInfo.connected info' = ServerInfo.connected info)
    ∧ (unnamed "capabilities" payload →
       ServerInfo.capabilities info' = ServerInfo.capabilities info)
    ∧ (unnamed "version" payload →
       ServerInfo.version info' = ServerInfo.version info).
Proof.
  intros Hs Hv Hty Hp Hget Hstep.
  pose proof (step_register_registry P now ws serverId message payload info
                w w' out Hs Hv Hty Hp Hget Hstep) as Hreg.
  exists (registered now message info).
  split; [rewrite Hreg; apply Map_get_set_eq|].
  assert (Hmerged : registered now message info = touch now info
                    ∨ registered now message info
                      = Object_assign (touch now info) payload).
  { unfold registered. rewrite Hp. destruct (truthy payload); auto. }
  destruct (Object_assign_unnamed (touch now info) payload)
    as (I1 & I2 & I3 & I4 & I5 & I6).
  assert (F1 : unnamed "serverId" payload →
               ServerInfo.serverId (registered now message info)
               = ServerInfo.serverId info).
  { intros Hname. destruct Hmerged as [-> | ->]; rewrite ?I1 by done;
      apply serverId_touch. }
  split; [|split; [|split; [|split; [|split]]]]; intros Hname.
  - split; [by apply F1|]. intros Hk. rewrite Hreg. apply keyed_Map_set; [done|].
    rewrite F1 by done. by apply Hk, Map_get_Some_elem.
  - destruct Hmerged as [-> | ->]; rewrite ?I6 by done; apply ws_touch.
  - destruct Hmerged as [-> | ->]; rewrite ?I5 by done; apply lastSeen_touch.
  - destruct Hmerged as [-> | ->]; rewrite ?I4 by done; by destruct info.
  - destruct Hmerged as [-> | ->]; rewrite ?I3 by done; by destruct info.
  - destruct Hmerged as [-> | ->]; rewrite ?I2 by done; by destruct info.
Qed.

Lemma server_register_leaves_unnamed_fields_witness :
  ∃ info',
    Map_get "A" (connectedServers
                   (Traffic.after (Sample.t0 + 4000)
                      (Message Sample.sockA (Some Traffic.register))
                      Sample.threeServers))
    = Some info'
    ∧ ServerInfo.serverId info' = JStr "A"
    ∧ ServerInfo.ws info' = WSock Sample.sockA
    ∧ ServerInfo.lastSeen info' = TDate (Sample.t0 + 4000)
    ∧ keyed (connectedServers
               (Traffic.after (Sample.t0 + 4000)
                  (Message Sample.sockA (Some Traffic.register))
                  Sample.threeServers)).
Proof.
  destruct (server_register_leaves_unnamed_fields
              Demo.platform (Sample.t0 + 4000) Sample.sockA "A"
              Traffic.register
              (JObj [("version", JStr "2.0"); ("region", JStr "eu")])
              (Sample.entry "A" Sample.sockA Sample.t0) Sample.threeServers
              (Traffic.after (Sample.t0 + 4000)
                 (Message Sample.sockA (Some Traffic.register))
                 Sample.threeServers)
              [])
    as (info' & Hget & Hid & Hws & Hseen & _); [reflexivity..|].
  exists info'. split; [exact Hget|].
  destruct (Hid eq_refl) as [Hsame Hkeyed].
  split; [exact Hsame|]. split; [exact (Hws eq_refl)|].
  split; [exact (Hseen eq_refl)|].
  apply Hkeyed. by apply keyed_scan.
Defined.

(** ** Teleport requests of a sender without entry *)

(** X10: the forward of a [teleport_request] does not depend on the
    sender's entry, the failure reply does.  From a sender without entry
    (one the reaper evicted, say), a request to a target with an open
    socket is forwarded as usual; a request to a target that is absent
    or not open produces no message at all, though an identifier is
    used up for the reply that is not sent. *)
Theorem teleport_request_of_unregistered_sender
    (P : Platform) (now : Z) (ws : socket) (serverId text : string)
    (message : json) (w : World) :
  sessions w !! ws = Some serverId →
  validateMessage now (Some message) = Valid message →
  getProp "type" message = Some (JStr "teleport_request") →
  template (getProp "to" message) = Returns text →
  Map_get serverId (connectedServers w) = None →
  (Map_get_json (getProp "to" message) (connectedServers w) = None →
   step now (Message ws (Some message)) w = Done () (nextIssued w) [])
  ∧ (∀ target,
       Map_get_json (getProp "to" message) (connectedServers w) = Some target →
       probeHandle w (ServerInfo.ws target) = NotOpen →
       step now (Message ws (Some message)) w = Done () (nextIssued w) [])
  ∧ (∀ target t,
       Map_get_json (getProp "to" message) (connectedServers w) = Some target →
       probeHandle w (ServerInfo.ws target) = IsOpen t →
       step now (Message ws (Some message)) w = Done () w [Send t message]).
Proof.
  intros Hs Hv Hty Hto Hget.
  assert (Hstep : step now (Message ws (Some message)) w
                  = handleTeleportRequest now serverId message w).
  { rewrite (step_dispatches P now ws serverId message w "teleport_request" text)
      by (by rewrite ?Hty).
    unfold touched. rewrite Hget, setRegistry_same.
    unfold dispatch. by rewrite Hty. }
  assert (Hfail : ∀ errorMessage,
            sendToServer serverId errorMessage (nextIssued w)
            = Done false (nextIssued w) []).
  { intros. by apply sendToServer_absent. }
  rewrite Hstep. unfold handleTeleportRequest. cbv zeta. rewrite bind_gets.
  split; [|split].
  - intros ->. rewrite Hto, bind_eval_Returns, bind_createMessage.
    by rewrite (bind_Done_nil _ _ _ _ _ (Hfail _)).
  - intros target Ht Hp. rewrite Ht.
    assert (Hfwd : sendToServer_json (getProp "to" message) message w
                   = Done false w []).
    { unfold sendToServer_json. rewrite bind_gets, Ht.
      unfold sendToEntry. by rewrite bind_getWorld, Hp. }
    rewrite (bind_Done_nil _ _ _ _ _ Hfwd).
    rewrite Hto, bind_eval_Returns, bind_createMessage.
    by rewrite (bind_Done_nil _ _ _ _ _ (Hfail _)).
  - intros target t Ht Hp. rewrite Ht.
    assert (Hfwd : sendToServer_json (getProp "to" message) message w
                   = Done true w [Send t message]).
    { unfold sendToServer_json. rewrite bind_gets, Ht.
      unfold sendToEntry. by rewrite bind_getWorld, Hp. }
    by rewrite (bind_Done _ _ _ _ _ _ Hfwd).
Qed.

Lemma teleport_request_of_unregistered_sender_witness :
  Map_get "A" (connectedServers Sample.evicted) = None
  ∧ step (P := Demo.platform) (Sample.t0 + 400000)
         (Message Sample.sockA (Some Traffic.lateTeleportToB)) Sample.evicted
    = Done () Sample.evicted [Send Sample.sockB Traffic.lateTeleportToB].
Proof.
  split; [reflexivity|].
  destruct (teleport_request_of_unregistered_sender
              Demo.platform (Sample.t0 + 400000) Sample.sockA "A" "B"
              Traffic.lateTeleportToB Sample.evicted)
    as (_ & _ & H); [reflexivity..|].
  apply (H (Sample.entry "B" Sample.sockB (Sample.t0 + 240000)));
    reflexivity.
Defined.

(** ** Teleport responses and status updates *)

(** X11: a valid [teleport_response] whose payload is neither absent
    nor [null] is sent, as it came in and whatever server its [to]
    names, along the registry on the open sockets of the entries under
    another id than the sender's, until the broadcast meets such an
    entry whose [ws] field is faulty: there the handler throws, and the
    entries after it get nothing.  When no entry under another id is
    faulty the handler returns, and the message has gone to exactly the
    entries under another id with an open socket.  This is so when the
    log line can convert [to] to a string; when that conversion throws,
    and when the payload is absent or [null], the listener throws
    before anything is sent. *)
Theorem teleport_response_is_broadcast_or_throws
    (P : Platform) (now : Z) (ws : socket) (serverId : string)
    (message : json) (w : World) :
  sessions w !! ws = Some serverId →
  validateMessage now (Some message) = Valid message →
  getProp "type" message = Some (JStr "teleport_response") →
  let w' := setRegistry (touched now serverId (connectedServers w)) w in
  (∀ text payload,
     template (getProp "to" message) = Returns text →
     getProp "payload" message = Some payload → payload ≠ JNull →
     step now (Message ws (Some message)) w
     = (if existsb (breaks (Some serverId)) (connectedServers w)
        then Threw (sendEach message
                      (served w (Some serverId) (connectedServers w)))
        else Done () w' (sendEach message
                           (served w (Some serverId) (connectedServers w))))
     ∧ (∀ s, s ∈ served w (Some serverId) (connectedServers w)
             ↔ ∃ id info,
                 (id, info) ∈ beforeFault (Some serverId) (connectedServers w)
                 ∧ id ≠ serverId ∧ openSocket w info s)
     ∧ (faultless (Some serverId) (connectedServers w) →
        step now (Message ws (Some message)) w
        = Done () w' (sendEach message
                        (recipients w (Some serverId) (connectedServers w)))
        ∧ ∀ s, s ∈ recipients w (Some serverId) (connectedServers w)
               ↔ ∃ id info, (id, info) ∈ connectedServers w ∧ id ≠ serverId
                            ∧ openSocket w info s))
  ∧ (template (getProp "to" message) = Throws →
     step now (Message ws (Some message)) w = Threw [])
  ∧ (getProp "payload" message = None ∨ getProp "payload" message = Some JNull →
     step now (Message ws (Some message)) w = Threw []).
Proof.
  intros Hs Hv Hty w'.
  assert (Hthrows : template (getProp "to" message) = Throws →
                    step now (Message ws (Some message)) w = Threw []).
  { apply (step_to_throws P now ws serverId message w "teleport_response");
      [done|done|by rewrite Hty]. }
  assert (Hstep : ∀ text, template (getProp "to" message) = Returns text →
                          step now (Message ws (Some message)) w
                          = handleTeleportResponse serverId message w').
  { intros text Hto.
    rewrite (step_dispatches P now ws serverId message w "teleport_response" text)
      by (by rewrite ?Hty).
    unfold dispatch. by rewrite Hty. }
  split; [|split; [done|]].
  - intros text payload Hto Hpayload Hnull. rewrite (Hstep text Hto).
    unfold handleTeleportResponse. rewrite Hpayload.
    pose proof (excluded_broadcast_served message serverId now w) as Hb.
    fold w' in Hb.
    split; [by destruct payload|]. split; [apply served_others|].
    intros Hok. split; [|apply recipients_others].
    destruct (faultless_no_break _ _ Hok) as [Hno _]. rewrite Hno in Hb.
    rewrite served_faultless in Hb by done. by destruct payload.
  - intros Hpayload.
    destruct (template (getProp "to" message)) as [text|] eqn:Hto; [|by apply Hthrows].
    rewrite (Hstep text eq_refl). unfold handleTeleportResponse.
    by destruct Hpayload as [-> | ->].
Qed.

Lemma teleport_response_is_broadcast_or_throws_witness :
  (* addressed to C, sent to B: the socket of C is closing *)
  (∃ w', step (P := Demo.platform) (Sample.t0 + 4000)
              (Message Sample.sockA (Some Traffic.response)) Sample.threeServers
         = Done () w' [Send Sample.sockB Traffic.response])
  (* from C, once the [ws] of A is [null]: B is served, then the
     handler throws *)
  ∧ step (P := Demo.platform) (Sample.t0 + 5000)
         (Message Sample.sockC (Some Traffic.response)) Traffic.unplugged
    = Threw [Send Sample.sockB Traffic.response]
  ∧ step (P := Demo.platform) (Sample.t0 + 4000)
         (Message Sample.sockA (Some Traffic.responseWithoutPayload))
         Sample.threeServers
    = Threw [].
Proof.
  split; [|split].
  - destruct (teleport_response_is_broadcast_or_throws
                Demo.platform (Sample.t0 + 4000) Sample.sockA "A"
                Traffic.response Sample.threeServers) as (H & _);
      [reflexivity..|].
    destruct (H "C" (JObj [("request_id", JStr "req-0");
                           ("status", JStr "accepted")]))
      as (_ & _ & Hok); [reflexivity|reflexivity|discriminate|].
    eexists. apply Hok. by apply faultless_scan.
  - destruct (teleport_response_is_broadcast_or_throws
                Demo.platform (Sample.t0 + 5000) Sample.sockC "C"
                Traffic.response Traffic.unplugged) as (H & _);
      [reflexivity..|].
    destruct (H "C" (JObj [("request_id", JStr "req-0");
                           ("status", JStr "accepted")]))
      as (Hstep & _); [reflexivity|reflexivity|discriminate|].
    exact Hstep.
  - destruct (teleport_response_is_broadcast_or_throws
                Demo.platform (Sample.t0 + 4000) Sample.sockA "A"
                Traffic.responseWithoutPayload Sample.threeServers)
      as (_ & _ & H); [reflexivity..|].
    apply H. left. reflexivity.
Defined.

(** X12: a valid [status_update] whose [to] is [broadcast] is sent, as
    it came in, along the registry on the open sockets of the entries
    under another id than the sender's, until the broadcast meets such
    an entry whose [ws] field is faulty: there the handler throws, and
    the entries after it get nothing.  When no entry under another id is
    faulty the handler returns, and the message has gone to exactly the
    entries under another id with an open socket.  A [status_update]
    with any other [to] is sent to no one: the listener returns when the
    log line can convert that [to] to a string, and throws when it
    cannot. *)
Theorem status_update_goes_to_the_others_or_nowhere
    (P : Platform) (now : Z) (ws : socket) (serverId : string)
    (message : json) (w : World) :
  sessions w !! ws = Some serverId →
  validateMessage now (Some message) = Valid message →
  getProp "type" message = Some (JStr "status_update") →
  let w' := setRegistry (touched now serverId (connectedServers w)) w in
  (getProp "to" message = Some (JStr "broadcast") →
   step now (Message ws (Some message)) w
   = (if existsb (breaks (Some serverId)) (connectedServers w)
      then Threw (sendEach message
                    (served w (Some serverId) (connectedServers w)))
      else Done () w' (sendEach message
                         (served w (Some serverId) (connectedServers w))))
   ∧ (∀ s, s ∈ served w (Some serverId) (connectedServers w)
           ↔ ∃ id info,
               (id, info) ∈ beforeFault (Some serverId) (connectedServers w)
               ∧ id ≠ serverId ∧ openSocket w info s)
   ∧ (faultless (Some serverId) (connectedServers w) →
      step now (Message ws (Some message)) w
      = Done () w' (sendEach message
                      (recipients w (Some serverId) (connectedServers w)))
      ∧ ∀ s, s ∈ recipients w (Some serverId) (connectedServers w)
             ↔ ∃ id info, (id, info) ∈ connectedServers w ∧ id ≠ serverId
                          ∧ openSocket w info s))
  ∧ (getProp "to" message ≠ Some (JStr "broadcast") →
     match template (getProp "to" message) with
     | Returns _ => step now (Message ws (Some message)) w = Done () w' []
     | Throws => step now (Message ws (Some message)) w = Threw []
     end).
Proof.
  intros Hs Hv Hty w'.
  assert (Hstep : ∀ text, template (getProp "to" message) = Returns text →
                          step now (Message ws (Some message)) w
                          = handleStatusUpdate serverId message w').
  { intros text Hto.
    rewrite (step_dispatches P now ws serverId message w "status_update" text)
      by (by rewrite ?Hty).
    unfold dispatch. by rewrite Hty. }
  split.
  - intros Hto. rewrite (Hstep "broadcast") by (by rewrite Hto).
    unfold handleStatusUpdate. rewrite Hto. simpl.
    pose proof (excluded_broadcast_served message serverId now w) as Hb.
    fold w' in Hb.
    split; [done|]. split; [apply served_others|].
    intros Hok. split; [|apply recipients_others].
    destruct (faultless_no_break _ _ Hok) as [Hno _]. rewrite Hno in Hb.
    by rewrite served_faultless in Hb.
  - intros Hne.
    destruct (template (getProp "to" message)) as [text|] eqn:Hto.
    + rewrite (Hstep text eq_refl). unfold handleStatusUpdate.
      by apply strictEqStr_false in Hne as ->.
    + apply (step_to_throws P now ws serverId message w "status_update");
        [done|done|by rewrite Hty|done].
Qed.

Lemma status_update_goes_to_the_others_or_nowhere_witness :
  (∃ w', step (P := Demo.platform) (Sample.t0 + 4000)
              (Message Sample.sockA (Some Traffic.statusToAll)) Sample.threeServers
         = Done () w' [Send Sample.sockB Traffic.statusToAll])
  (* from C, once the [ws] of A is [null]: B is served, then the
     handler throws *)
  ∧ step (P := Demo.platform) (Sample.t0 + 5000)
         (Message Sample.sockC (Some Traffic.statusToAll)) Traffic.unplugged
    = Threw [Send Sample.sockB Traffic.statusToAll]
  ∧ (∃ w', step (P := Demo.platform) (Sample.t0 + 4000)
                (Message Sample.sockA (Some Traffic.statusToB)) Sample.threeServers
           = Done () w' []).
Proof.
  split; [|split].
  - destruct (status_update_goes_to_the_others_or_nowhere
                Demo.platform (Sample.t0 + 4000) Sample.sockA "A"
                Traffic.statusToAll Sample.threeServers) as (H & _);
      [reflexivity..|].
    destruct H as (_ & _ & H); [reflexivity|].
    eexists. apply H. by apply faultless_scan.
  - destruct (status_update_goes_to_the_others_or_nowhere
                Demo.platform (Sample.t0 + 5000) Sample.sockC "C"
                Traffic.statusToAll Traffic.unplugged) as (H & _);
      [reflexivity..|].
    destruct H as (Hstep & _); [reflexivity|]. exact Hstep.
  - destruct (status_update_goes_to_the_others_or_nowhere
                Demo.platform (Sample.t0 + 4000) Sample.sockA "A"
                Traffic.statusToB Sample.threeServers) as (_ & H);
      [reflexivity..|].
    eexists. apply H. discriminate.
Defined.




(** ** Broadcasts over a registry with a faulty entry *)

Lemma elem_of_recipients (w : World) (exclude : option string) (m : Map)
    (s : socket) :
  s ∈ recipients w exclude m →
  ∃ id info, (id, info) ∈ m ∧ Some id ≠ exclude
             ∧ ServerInfo.ws info = WSock s ∧ readyStateOf s w = OPEN.
Proof.
  unfold recipients. intros Hin.
  apply list_elem_of_omap in Hin as ([id info] & Hin & Hr).
  exists id, info. split; [done|]. unfold recipient in Hr. simpl in Hr.
  case_bool_decide as Hex; [done|]. split; [done|].
  destruct (ServerInfo.ws info) as [h|v]; simpl in Hr.
  - destruct (Nat.eqb_spec (readyStateOf h w) OPEN); [|done].
    by injection Hr as ->.
  - destruct v; try done; by destruct (strictEqNum _ _).
Qed.

(** X14: [broadcastToAll] visits the entries in registry order and
    sends the message on the socket of every entry that is not the
    excluded one and whose socket is open, to no other socket, and
    changes nothing.  At the first entry, other than the excluded one,
    whose [ws] field a registration made faulty it throws: the entries
    before it have been served, those after it are not. *)
Theorem broadcast_stops_at_the_first_faulty_entry
    (message : json) (exclude : option string) (w : World) :
  let out := sendEach message
               (recipients w exclude (beforeFault exclude (connectedServers w))) in
  broadcastToAll message exclude w
  = (if existsb (breaks exclude) (connectedServers w) then Threw out
     else Done () w out)
  ∧ ∀ s, s ∈ recipients w exclude (connectedServers w) →
         ∃ id info, (id, info) ∈ connectedServers w ∧ Some id ≠ exclude
                    ∧ ServerInfo.ws info = WSock s ∧ readyStateOf s w = OPEN.
Proof.
  intros out. split; [|apply elem_of_recipients].
  unfold out, broadcastToAll. rewrite bind_gets.
  generalize (connectedServers w) as m. intros m.
  match goal with |- context [forEach ?b m w] => set (body := b) end.
  induction m as [|[id info] m IH]; [done|].
  simpl forEach. simpl existsb. simpl beforeFault.
  assert (Hb : body (id, info) w
               = if bool_decide (Some id = exclude) then Done () w []
                 else match probeHandle w (ServerInfo.ws info) with
                      | IsOpen s => Done () w [Send s message]
                      | NotOpen => Done () w []
                      | TypeError => Threw []
                      end).
  { unfold body. rewrite excluded_decide. case_bool_decide; [done|].
    rewrite bind_getWorld. by destruct (probeHandle _ _). }
  destruct (breaks exclude (id, info)) eqn:Hbr; unfold breaks in Hbr;
    simpl in Hbr.
  - apply andb_true_iff in Hbr as [Hex Hf].
    apply negb_true_iff in Hex. rewrite Hex in Hb.
    apply probeHandle_faulty with (w := w) in Hf. rewrite Hf in Hb.
    by rewrite (bind_Threw _ _ _ _ Hb).
  - assert (Hr : body (id, info) w
                 = Done () w (sendEach message
                                (option_list (recipient w exclude (id, info))))).
    { rewrite Hb. unfold recipient. simpl.
      destruct (bool_decide (Some id = exclude)); [done|]. simpl in Hbr.
      destruct (probeHandle w (ServerInfo.ws info)) eqn:Hp; try done.
      apply probeHandle_faulty in Hp. congruence. }
    rewrite (bind_Done _ _ _ _ _ _ Hr), IH. unfold recipients. csimpl.
    by destruct (recipient w exclude (id, info)), (existsb _ _).
Qed.

Lemma broadcast_stops_at_the_first_faulty_entry_witness :
  keys (connectedServers Traffic.faultyMiddle) = ["B"; "A"; "C"]
  ∧ readyStateOf Sample.sockC Traffic.faultyMiddle = OPEN
  ∧ broadcastToAll Sample.heartbeat None Traffic.faultyMiddle
    = Threw [Send Sample.sockB Sample.heartbeat].
Proof.
  split; [reflexivity|]. split; [reflexivity|].
  destruct (broadcast_stops_at_the_first_faulty_entry
              Sample.heartbeat None Traffic.faultyMiddle) as [H _].
  rewrite H. reflexivity.
Defined.

(** ** Rejected connections *)

(** X15: a connection without [authorization] or without server id
    header, or with a token of fewer than ten characters, is closed with
    code 1008 and the reason the code gives for it, and leaves nothing
    behind: no entry, no listener, no identifier used, no message
    sent. *)
Theorem rejected_connection_leaves_no_trace
    (P : Platform) (now : Z) (ws : socket) (req : headers) (w : World) :
  (truthyStr (authorization req) = false
   ∨ truthyStr (x_minegate_server_id req) = false →
   step now (Connection ws req) w
   = Done () (rejecting ws w)
       [CloseSocket ws 1008 "Missing authentication or server ID"])
  ∧ (∀ auth,
       authorization req = Some auth → auth ≠ "" →
       truthyStr (x_minegate_server_id req) = true →
       (String.length (String_replace "Bearer " "" auth) < 10)%nat →
       step now (Connection ws req) w
       = Done () (rejecting ws w) [CloseSocket ws 1008 "Invalid token"])
  ∧ connectedServers (rejecting ws w) = connectedServers w
  ∧ sessions (rejecting ws w) = sessions w
  ∧ issued (rejecting ws w) = issued w
  ∧ readyStateOf ws (rejecting ws w) = CLOSING.
Proof.
  split; [|split; [|split; [done|split; [done|split; [done|]]]]].
  - intros H. unfold step. rewrite bind_modify. unfold onConnection. cbv zeta.
    assert (E : negb (truthyStr (authorization req))
                || negb (truthyStr (x_minegate_server_id req)) = true).
    { destruct H as [-> | ->]; [done|apply orb_true_r]. }
    by rewrite E.
  - intros auth Hauth Hne Hid Hshort. unfold step. rewrite bind_modify.
    unfold onConnection. cbv zeta. rewrite Hid, Hauth. simpl.
    apply String.eqb_neq in Hne as ->. simpl.
    by apply Nat.ltb_lt in Hshort as ->.
  - unfold rejecting, readyStateOf. simpl. by rewrite lookup_insert_eq.
Qed.

Lemma rejected_connection_leaves_no_trace_witness :
  step (P := Demo.platform) Sample.t0 (Connection Sample.sockA Traffic.anonymous)
       initial
  = Done () (rejecting Sample.sockA initial)
      [CloseSocket Sample.sockA 1008 "Missing authentication or server ID"]
  ∧ step (P := Demo.platform) Sample.t0
         (Connection Sample.sockA Traffic.shortToken) initial
    = Done () (rejecting Sample.sockA initial)
        [CloseSocket Sample.sockA 1008 "Invalid token"].
Proof.
  split.
  - destruct (rejected_connection_leaves_no_trace
                Demo.platform Sample.t0 Sample.sockA Traffic.anonymous initial)
      as (H & _).
    apply H. left. reflexivity.
  - destruct (rejected_connection_leaves_no_trace
                Demo.platform Sample.t0 Sample.sockA Traffic.shortToken initial)
      as (_ & H & _).
    apply (H "Bearer abc"); [reflexivity|discriminate|reflexivity|].
    vm_compute. lia.
Defined.

(** ** The token *)

Lemma length_dropChars (n : nat) (s : string) :
  String.length (dropChars n s) = (String.length s - n)%nat.
Proof.
  revert s. induction n as [|n IH]; intros s; simpl; [lia|].
  destruct s; simpl; [done|apply IH].
Qed.

Lemma length_append_ge (r s : string) :
  (String.length s ≤ String.length (r +:+ s))%nat.
Proof.
  induction r as [|c r IH]; [done|].
  change (String c r +:+ s) with (String c (r +:+ s)). simpl. lia.
Qed.

(** Replacing the first occurrence of [pattern] takes away at most the
    length of [pattern]. *)
Lemma length_String_replace (pattern replacement s : string) :
  (String.length s - String.length pattern
   ≤ String.length (String_replace pattern replacement s))%nat.
Proof.
  induction s as [|c s IH].
  - simpl. destruct (isPrefix pattern ""); simpl; lia.
  - unfold String_replace; fold String_replace.
    destruct (isPrefix pattern (String c s)).
    + etransitivity; [|apply length_append_ge]. by rewrite length_dropChars.
    + cbn [String.length]. lia.
Qed.

(** X16: the token is checked by its length only.  Two connection
    requests that differ in nothing but their [authorization] values,
    each of 17 characters or more, are treated alike in every respect:
    the value is compared with no secret, and it need not be a bearer
    token. *)
Theorem token_is_checked_by_length_only
    (P : Platform) (now : Z) (ws : socket) (req req' : headers)
    (auth auth' : string) (w : World) :
  authorization req = Some auth →
  authorization req' = Some auth' →
  x_minegate_server_id req' = x_minegate_server_id req →
  x_minegate_version req' = x_minegate_version req →
  x_minegate_capabilities req' = x_minegate_capabilities req →
  (17 ≤ String.length auth)%nat →
  (17 ≤ String.length auth')%nat →
  step now (Connection ws req') w = step now (Connection ws req) w.
Proof.
  intros Hauth Hauth' Hid Hversion Hcapabilities Hlong Hlong'.
  assert (Htoken : ∀ a, (17 ≤ String.length a)%nat →
            truthyStr (Some a) = true
            ∧ (String.length (String_replace "Bearer " "" a) <? 10)%nat = false).
  { intros a Ha. split.
    - destruct a; [simpl in Ha; lia|done].
    - apply Nat.ltb_ge.
      pose proof (length_String_replace "Bearer " "" a) as H. simpl in H. lia. }
  destruct (Htoken auth Hlong) as [Ht Hl].
  destruct (Htoken auth' Hlong') as [Ht' Hl'].
  unfold step. rewrite !bind_modify. unfold onConnection. cbv zeta.
  rewrite Hauth, Hauth', Hid, Hversion, Hcapabilities, Ht, Ht'. simpl.
  by rewrite Hl, Hl'.
Qed.

Lemma token_is_checked_by_length_only_witness :
  step (P := Demo.platform) (Sample.t0 + 300000)
       (Connection Sample.sockC (Traffic.unchecked "C")) Sample.twoServers
  = step (P := Demo.platform) (Sample.t0 + 300000)
         (Connection Sample.sockC (Sample.bearer "C")) Sample.twoServers.
Proof.
  apply (token_is_checked_by_length_only
           Demo.platform (Sample.t0 + 300000) Sample.sockC
           (Sample.bearer "C") (Traffic.unchecked "C")
           "Bearer 0123456789abcdef" "anything of 17 or more characters"
           Sample.twoServers);
    [reflexivity|reflexivity|reflexivity|reflexivity|reflexivity
    |vm_compute; lia|vm_compute; lia].
Defined.

(** ** The close of a connection that was replaced *)

(** X17: when a server has connected again under the same id and the
    older connection then closes, the close listener deletes the entry
    of the newer connection.  The newer connection stays as it is, its
    socket in its state and its listeners installed, but the server is
    no longer in the registry: a valid heartbeat on the newer
    connection gets no acknowledgement. *)
Theorem close_of_replaced_connection_unregisters_the_newer
    (P : Platform) (now : Z) (ws ws' : socket) (serverId : string)
    (newer : ServerInfo) (w : World) :
  ws ≠ ws' →
  sessions w !! ws = Some serverId →
  sessions w !! ws' = Some serverId →
  Map_get serverId (connectedServers w) = Some newer →
  ServerInfo.ws newer = WSock ws' →
  faultless None (Map_delete serverId (connectedServers w)) →
  ∃ w' out,
    step now (Close ws) w = Done () w' out
    ∧ Map_get serverId (connectedServers w') = None
    ∧ sessions w' !! ws' = Some serverId
    ∧ readyStateOf ws' w' = readyStateOf ws' w
    ∧ ∀ now' message text,
        validateMessage now' (Some message) = Valid message →
        getProp "type" message = Some (JStr "heartbeat") →
        template (getProp "to" message) = Returns text →
        ∃ w'', step now' (Message ws' (Some message)) w' = Done () w'' [].
Proof.
  intros Hne Hs Hs' Hget Hws Hok.
  set (w1 := setSessions (delete ws) (setReadyState ws CLOSED w)).
  pose proof (onClose_faultless P now serverId w1 Hok) as Hclose.
  simpl in Hclose.
  set (w' := nextIssued (setRegistry (Map_delete serverId (connectedServers w1)) w1))
    in Hclose.
  assert (Hgone : Map_get serverId (connectedServers w') = None)
    by apply Map_get_delete_eq.
  assert (Hs'' : sessions w' !! ws' = Some serverId).
  { simpl. by rewrite lookup_delete_ne. }
  exists w'. eexists. split; [|split; [done|split; [done|split]]].
  - unfold step.
    rewrite (bind_Done _ _ w (setReadyState ws CLOSED w) () []) by done.
    rewrite (bind_Done _ _ _ (setReadyState ws CLOSED w) (Some serverId) [])
      by (unfold gets; simpl; by rewrite Hs).
    rewrite (bind_Done _ _ _ w1 () []) by done.
    rewrite Hclose. reflexivity.
  - unfold readyStateOf. simpl. by rewrite lookup_insert_ne.
  - intros now' message text Hv Hty Hto.
    rewrite (step_heartbeat P now' ws' serverId text message w') by done.
    rewrite Hgone. by eexists.
Qed.

Lemma close_of_replaced_connection_unregisters_the_newer_witness :
  ∃ w' out,
    step (P := Demo.platform) (Sample.t0 + 3000) (Close Sample.sockA)
         Sample.reconnected
    = Done () w' out
    ∧ Map_get "A" (connectedServers w') = None
    ∧ sessions w' !! Sample.sockA' = Some "A"
    ∧ readyStateOf Sample.sockA' w' = OPEN
    ∧ ∃ w'', step (P := Demo.platform) (Sample.t0 + 4000)
                  (Message Sample.sockA' (Some Sample.heartbeat)) w'
             = Done () w'' [].
Proof.
  destruct (close_of_replaced_connection_unregisters_the_newer
              Demo.platform (Sample.t0 + 3000) Sample.sockA Sample.sockA' "A"
              (Sample.entry "A" Sample.sockA' (Sample.t0 + 2000))
              Sample.reconnected)
    as (w' & out & Hstep & Hgone & Hs & Hrs & Hbeat);
    [discriminate|reflexivity|reflexivity|reflexivity|reflexivity
    |by apply faultless_scan|].
  exists w', out. split; [exact Hstep|]. split; [exact Hgone|].
  split; [exact Hs|]. split; [rewrite Hrs; reflexivity|].
  apply (Hbeat (Sample.t0 + 4000) Sample.heartbeat "relay"); reflexivity.
Defined.

(** ** Properties of the registry every handler keeps *)

Section Preservation.
Context {P : Platform}.
Variable I : Map → Prop.

Lemma preserves_readonly {A} (m : M A) : readonly m → preserves I m.
Proof.
  intros Hm w Hw. specialize (Hm w). destruct (m w); [|done]. by rewrite Hm.
Qed.

Lemma preserves_bind {A B} (m : M A) (k : A → M B) :
  preserves I m → (∀ a, preserves I (k a)) → preserves I (m ≫= k).
Proof.
  intros Hm Hk w Hw. unfold mbind, M_bind. specialize (Hm w Hw).
  destruct (m w) as [a w' out|]; [|done].
  specialize (Hk a w' Hm). by destruct (k a w').
Qed.

(** [I] holds again after the entry of a key that is there is replaced,
    after a key is deleted, and after the sweep. *)
Hypothesis I_replace :
  ∀ key value m, Map_has key m = true → I m → I (Map_set key value m).
Hypothesis I_delete : ∀ key m, I m → I (Map_delete key m).
Hypothesis I_sweep : ∀ now m m', sweep now m = Returns m' → I m → I m'.

Lemma preserves_touchLastSeen (now : Z) (serverId : string) :
  preserves I (touchLastSeen now serverId).
Proof.
  intros w Hw. unfold touchLastSeen. rewrite bind_gets.
  destruct (Map_get serverId (connectedServers w)) as [info|] eqn:Hget; [|done].
  simpl. apply I_replace; [|done]. unfold Map_has. by rewrite Hget.
Qed.

Lemma preserves_handleServerRegister (serverId : string) (message : json) :
  preserves I (handleServerRegister serverId message).
Proof.
  intros w Hw. unfold handleServerRegister. rewrite bind_gets.
  destruct (Map_get serverId (connectedServers w)) as [info|] eqn:Hget; [|done].
  destruct (getProp "payload" message) as [payload|]; [|done].
  destruct (truthy payload); [|done].
  simpl. apply I_replace; [|done]. unfold Map_has. by rewrite Hget.
Qed.

Lemma preserves_dispatch (now : Z) (serverId : string) (message : json) :
  preserves I (dispatch now serverId message).
Proof.
  unfold dispatch.
  repeat destruct (strictEqStr _ _);
    first [ apply preserves_handleServerRegister
          | apply preserves_readonly;
            first [ apply readonly_handleHeartbeat
                  | apply readonly_handleTeleportRequest
                  | apply readonly_handleTeleportResponse
                  | apply readonly_handleStatusUpdate
                  | apply readonly_skip ] ].
Qed.

Lemma preserves_onMessage (now : Z) (ws : socket) (serverId : string)
    (data : frame) :
  preserves I (onMessage now ws serverId data).
Proof.
  unfold onMessage. destruct (validateMessage now data) as [message|error].
  - apply preserves_bind;
      [apply preserves_readonly; unfold logMessage; repeat readonly_step|].
    intros _. apply preserves_bind; [apply preserves_touchLastSeen|].
    intros _. apply preserves_dispatch.
  - apply preserves_readonly. repeat readonly_step.
Qed.

Lemma preserves_onClose (now : Z) (serverId : string) :
  preserves I (onClose now serverId).
Proof.
  unfold onClose. apply preserves_bind.
  - intros w Hw. simpl. by apply I_delete.
  - intros _. apply preserves_readonly.
    repeat first [ apply readonly_broadcastToAll | readonly_step ].
Qed.

Lemma preserves_reaper (now : Z) : preserves I (reaper now).
Proof.
  intros w Hw. unfold reaper. rewrite bind_gets.
  destruct (sweep now (connectedServers w)) as [m'|] eqn:Hsweep; [|done].
  rewrite bind_eval_Returns. simpl. by eapply I_sweep.
Qed.

(** Every turn of the event loop but an admission keeps [I]. *)
Lemma preserves_step (now : Z) (e : event) :
  isConnection e = false → preserves I (step now e).
Proof.
  intros He. destruct e as [ws req|ws data|ws|ws| |ws st]; [done|..]; simpl.
  - apply preserves_bind; [apply preserves_readonly, readonly_gets|].
    intros [serverId|]; [|apply preserves_readonly, readonly_skip].
    apply preserves_onMessage.
  - apply preserves_bind; [apply preserves_readonly, readonly_setReadyState|].
    intros _. apply preserves_bind; [apply preserves_readonly, readonly_gets|].
    intros [serverId|]; [|apply preserves_readonly, readonly_skip].
    apply preserves_bind; [apply preserves_readonly, readonly_setSessions|].
    intros _. apply preserves_onClose.
  - apply preserves_readonly. unfold onError. repeat readonly_step.
  - apply preserves_reaper.
  - apply preserves_readonly, readonly_setReadyState.
Qed.

(** An admission keeps [I] when [I] also holds after any key is set. *)
Hypothesis I_set : ∀ key value m, I m → I (Map_set key value m).

Lemma preserves_onConnection (now : Z) (ws : socket) (req : headers) :
  preserves I (onConnection now ws req).
Proof.
  unfold onConnection.
  destruct (_ || _); [apply preserves_readonly; repeat readonly_step|].
  destruct (_ <? _)%nat; [apply preserves_readonly; repeat readonly_step|].
  apply preserves_bind.
  - intros w Hw. simpl. by apply I_set.
  - intros _. apply preserves_readonly. unfold publicView, lastSeenISO.
    repeat first [ apply readonly_broadcastToAll | readonly_step ].
Qed.

Lemma preserves_every_step (now : Z) (e : event) : preserves I (step now e).
Proof.
  destruct (isConnection e) eqn:He; [|by apply preserves_step].
  destruct e as [ws req| | | | | ]; try done. simpl.
  apply preserves_bind; [apply preserves_readonly, readonly_setReadyState|].
  intros _. apply preserves_onConnection.
Qed.

Lemma preserves_run (events : list (Z * event)) : preserves I (run events).
Proof.
  induction events as [|[now e] events IH]; simpl.
  - apply preserves_readonly, readonly_skip.
  - apply preserves_bind; [apply preserves_every_step|by intros _].
Qed.

End Preservation.

Lemma sublist_Map_delete (key : string) (m : Map) : sublist (Map_delete key m) m.
Proof.
  induction m as [|[k v] m IH]; simpl; [constructor|].
  destruct (String.eqb k key); by constructor.
Qed.

Lemma sublist_swept (P : Platform) (now : Z) (m m' : Map) :
  sweep now m = Returns m' → sublist m' m.
Proof.
  revert m'. induction m as [|[k v] m IH]; intros m' Hsweep.
  - injection Hsweep as <-. constructor.
  - simpl in Hsweep. destruct (stale now v) as [old|]; [|done].
    destruct (sweep now m) as [rest|]; [|done]. injection Hsweep as <-.
    destruct old; constructor; by apply IH.
Qed.

(** X18: only an admission adds a key to the registry.  After any
    other turn of the event loop (a message of any kind, a close, an
    error, a tick of the reaper, a change of a socket's state) the keys
    are the keys of before, in their order, with some of them gone: a
    server that is not in the registry, because it never was or because
    the reaper or a close removed its entry, is not put there by
    anything it sends. *)
Theorem only_an_admission_adds_a_key
    (P : Platform) (now : Z) (e : event) (w w' : World) (out : list effect) :
  isConnection e = false →
  step now e w = Done () w' out →
  sublist (keys (connectedServers w')) (keys (connectedServers w))
  ∧ ∀ id, Map_get id (connectedServers w) = None →
          Map_get id (connectedServers w') = None.
Proof.
  intros He Hstep.
  assert (Hsub : sublist (keys (connectedServers w')) (keys (connectedServers w))).
  { pose proof (preserves_step
                  (λ m, sublist (keys m) (keys (connectedServers w)))) as H.
    assert (H1 : ∀ key value m, Map_has key m = true →
              sublist (keys m) (keys (connectedServers w)) →
              sublist (keys (Map_set key value m)) (keys (connectedServers w))).
    { intros key value m Hhas Hm. by rewrite keys_Map_set_present. }
    assert (H2 : ∀ key m,
              sublist (keys m) (keys (connectedServers w)) →
              sublist (keys (Map_delete key m)) (keys (connectedServers w))).
    { intros key m Hm. etransitivity; [|exact Hm].
      apply fmap_sublist, sublist_Map_delete. }
    assert (H3 : ∀ now m m', sweep now m = Returns m' →
              sublist (keys m) (keys (connectedServers w)) →
              sublist (keys m') (keys (connectedServers w))).
    { intros now0 m m' Hsweep Hm. etransitivity; [|exact Hm].
      by eapply fmap_sublist, sublist_swept. }
    specialize (H H1 H2 H3 now e He w (reflexivity _)).
    by rewrite Hstep in H. }
  split; [done|].
  intros id Hid. apply Map_get_None. apply Map_get_None in Hid.
  intros Hin. apply Hid. by eapply elem_of_sublist.
Qed.

Lemma only_an_admission_adds_a_key_witness :
  (* A was evicted; its next heartbeat does not bring its entry back *)
  keys (connectedServers Sample.evicted) = ["B"]
  ∧ sublist (keys (connectedServers
                     (Traffic.after (Sample.t0 + 400000)
                        (Message Sample.sockA (Some Traffic.lateTeleportToB))
                        Sample.evicted)))
            (keys (connectedServers Sample.evicted))
  ∧ Map_get "A" (connectedServers
                   (Traffic.after (Sample.t0 + 400000)
                      (Message Sample.sockA (Some Traffic.lateTeleportToB))
                      Sample.evicted))
    = None.
Proof.
  split; [reflexivity|].
  destruct (only_an_admission_adds_a_key
              Demo.platform (Sample.t0 + 400000)
              (Message Sample.sockA (Some Traffic.lateTeleportToB))
              Sample.evicted
              (Traffic.after (Sample.t0 + 400000)
                 (Message Sample.sockA (Some Traffic.lateTeleportToB))
                 Sample.evicted)
              [Send Sample.sockB Traffic.lateTeleportToB])
    as [Hsub Habsent]; [reflexivity|reflexivity|].
  split; [exact Hsub|]. apply Habsent. reflexivity.
Defined.

(** X19: the registry never holds two entries under one key.  Whatever
    events the relay processes, in whatever order, a registry with
    distinct keys is left with distinct keys; the registry the process
    starts with is empty. *)
Theorem registry_keys_stay_distinct
    (P : Platform) (events : list (Z * event)) (w w' : World) (out : list effect) :
  NoDup (keys (connectedServers w)) →
  run events w = Done () w' out →
  NoDup (keys (connectedServers w')).
Proof.
  intros Hnd Hrun.
  pose proof (preserves_run (λ m, NoDup (keys m))) as H.
  assert (H1 : ∀ key value m, Map_has key m = true →
            NoDup (keys m) → NoDup (keys (Map_set key value m))).
  { intros key value m _. apply NoDup_keys_Map_set. }
  assert (H3 : ∀ now m m', sweep now m = Returns m' →
            NoDup (keys m) → NoDup (keys m')).
  { intros now m m'. apply NoDup_keys_swept. }
  specialize (H H1 NoDup_keys_Map_delete H3 NoDup_keys_Map_set events w Hnd).
  by rewrite Hrun in H.
Qed.

Lemma registry_keys_stay_distinct_witness :
  NoDup (keys (connectedServers Sample.reconnected)).
Proof.
  assert (Hrun : ∃ out,
            run (P := Demo.platform)
                [(Sample.t0, Connection Sample.sockA (Sample.bearer "A"));
                 (Sample.t0 + 1000, Connection Sample.sockB (Sample.bearer "B"));
                 (Sample.t0 + 2000, Connection Sample.sockA' (Sample.bearer "A"))]
                initial
            = Done () Sample.reconnected out).
  { eexists. vm_compute. reflexivity. }
  destruct Hrun as [out Hrun].
  exact (registry_keys_stay_distinct Demo.platform _ initial Sample.reconnected
           out (NoDup_nil_2 : NoDup (keys (connectedServers initial))) Hrun).
Defined.

(** ** What the relay emits *)

Section Emissions.
Context {P : Platform}.
Variable Q : effect → Prop.

Lemma emitsOnly_bind {A B} (m : M A) (k : A → M B) :
  emitsOnly Q m → (∀ a, emitsOnly Q (k a)) → emitsOnly Q (m ≫= k).
Proof.
  intros Hm Hk w. unfold mbind, M_bind. specialize (Hm w).
  destruct (m w) as [a w' out|]; [|done].
  specialize (Hk a w'). destruct (k a w'); by apply Forall_app_2.
Qed.

Lemma emitsOnly_skip : emitsOnly Q skip.
Proof. intros w. constructor. Qed.
Lemma emitsOnly_mret {A} (a : A) : emitsOnly Q (mret a).
Proof. intros w. constructor. Qed.
Lemma emitsOnly_throw {A} : emitsOnly Q (@throw A).
Proof. intros w. constructor. Qed.
Lemma emitsOnly_eval {A} (c : completion A) : emitsOnly Q (eval c).
Proof. intros w. destruct c; constructor. Qed.
Lemma emitsOnly_gets {A} (g : World → A) : emitsOnly Q (gets g).
Proof. intros w. constructor. Qed.
Lemma emitsOnly_getWorld : emitsOnly Q getWorld.
Proof. intros w. constructor. Qed.
Lemma emitsOnly_modify (g : World → World) : emitsOnly Q (modify g).
Proof. intros w. constructor. Qed.
Lemma emitsOnly_emit (e : effect) : Q e → emitsOnly Q (emit e).
Proof. intros He w. repeat constructor. exact He. Qed.

Lemma emitsOnly_forEach {A} (body : A → M ()) (l : list A) :
  (∀ x, emitsOnly Q (body x)) → emitsOnly Q (forEach body l).
Proof.
  intros Hb. induction l as [|x l IH]; simpl.
  - apply emitsOnly_skip.
  - apply emitsOnly_bind; [apply Hb|by intros _].
Qed.

Lemma emitsOnly_mapM {A B} (f : A → M B) (l : list A) :
  (∀ x, emitsOnly Q (f x)) → emitsOnly Q (mapM f l).
Proof.
  intros Hf. induction l as [|x l IH]; simpl.
  - apply emitsOnly_mret.
  - apply emitsOnly_bind; [apply Hf|intros y].
    apply emitsOnly_bind; [apply IH|intros ys]. apply emitsOnly_mret.
Qed.

(** What follows a [createMessage] in the relay's name receives a
    message the relay made. *)
Lemma emitsOnly_createMessage {B} (now : Z) (type to : string) (payload : json)
    (k : json → M B) :
  (∀ m, relayMade m → emitsOnly Q (k m)) →
  emitsOnly Q (createMessage now type "relay" to payload ≫= k).
Proof.
  intros Hk w. rewrite bind_createMessage. apply Hk.
  split; [done|apply relayMessage_signed].
Qed.

End Emissions.

(** One step of a proof about what a handler emits. *)
Ltac emits_step :=
  match goal with
  | |- emitsOnly _ (createMessage _ _ _ _ _ ≫= _) =>
      apply emitsOnly_createMessage; intros ? ?
  | |- emitsOnly _ (_ ≫= _) => apply emitsOnly_bind; [|intros ?]
  | |- emitsOnly _ (forEach _ _) => apply emitsOnly_forEach; intros ?
  | |- emitsOnly _ (mapM _ _) => apply emitsOnly_mapM; intros ?
  | |- emitsOnly _ (match ?x with _ => _ end) => destruct x
  | |- emitsOnly _ (emit _) => apply emitsOnly_emit
  | |- emitsOnly _ _ =>
      first [ apply emitsOnly_skip | apply emitsOnly_mret | apply emitsOnly_throw
            | apply emitsOnly_eval | apply emitsOnly_gets
            | apply emitsOnly_getWorld | apply emitsOnly_modify ]
  end.

Section EmissionsOfHandlers.
Context {P : Platform}.
Variable Q : effect → Prop.

Lemma emitsOnly_broadcastToAll (message : json) (exclude : option string) :
  (∀ s, Q (Send s message)) → emitsOnly Q (broadcastToAll message exclude).
Proof. intros H. unfold broadcastToAll. repeat emits_step; apply H. Qed.

Lemma emitsOnly_sendToEntry (target : option ServerInfo) (message : json) :
  (∀ s, Q (Send s message)) → emitsOnly Q (sendToEntry target message).
Proof. intros H. unfold sendToEntry. repeat emits_step; apply H. Qed.

Lemma emitsOnly_sendToServer (target : string) (message : json) :
  (∀ s, Q (Send s message)) → emitsOnly Q (sendToServer target message).
Proof.
  intros H. unfold sendToServer.
  emits_step; [emits_step|by apply emitsOnly_sendToEntry].
Qed.

Lemma emitsOnly_sendToServer_json (target : option json) (message : json) :
  (∀ s, Q (Send s message)) → emitsOnly Q (sendToServer_json target message).
Proof.
  intros H. unfold sendToServer_json.
  emits_step; [emits_step|by apply emitsOnly_sendToEntry].
Qed.

(** Every message the relay made may be sent, on any socket. *)
Hypothesis Q_relayMade : ∀ s m, relayMade m → Q (Send s m).

Lemma emitsOnly_handleHeartbeat (now : Z) (serverId : string) (message : json) :
  emitsOnly Q (handleHeartbeat now serverId message).
Proof.
  unfold handleHeartbeat, sendOn. repeat emits_step. by apply Q_relayMade.
Qed.

Lemma emitsOnly_handleServerRegister (serverId : string) (message : json) :
  emitsOnly Q (handleServerRegister serverId message).
Proof. unfold handleServerRegister. repeat emits_step. Qed.

Lemma emitsOnly_onClose (now : Z) (serverId : string) :
  emitsOnly Q (onClose now serverId).
Proof.
  unfold onClose. emits_step; [emits_step|]. emits_step.
  apply emitsOnly_broadcastToAll. intros s. by apply Q_relayMade.
Qed.

Lemma emitsOnly_reaper (now : Z) : emitsOnly Q (reaper now).
Proof. unfold reaper. repeat emits_step. Qed.

(** The failure reply of a teleport request. *)
Lemma emitsOnly_teleportFailure (now : Z) (serverId : string)
    (target : option json) (payload : string → json) :
  emitsOnly Q
    (text ← eval (template target);
     errorMessage ← createMessage now "teleport_response" "relay" serverId
                                  (payload text);
     sendToServer serverId errorMessage ;; skip).
Proof.
  emits_step; [emits_step|]. emits_step.
  emits_step; [|emits_step].
  apply emitsOnly_sendToServer. intros s. by apply Q_relayMade.
Qed.

Lemma emitsOnly_handleTeleportRequest (now : Z) (serverId : string)
    (message : json) :
  (∀ s, Q (Send s message)) →
  emitsOnly Q (handleTeleportRequest now serverId message).
Proof.
  intros H. unfold handleTeleportRequest. cbv zeta.
  emits_step; [emits_step|].
  destruct (Map_get_json _ _).
  - apply emitsOnly_bind; [by apply emitsOnly_sendToServer_json|].
    intros [|]; [emits_step|].
    apply (emitsOnly_teleportFailure now serverId (getProp "to" message)
             (λ text, teleportFailure message "TARGET_UNAVAILABLE"
                        ("Target server " +:+ text +:+ " is not available"))).
  - apply (emitsOnly_teleportFailure now serverId (getProp "to" message)
             (λ text, teleportFailure message "SERVER_NOT_FOUND"
                        ("Target server " +:+ text +:+ " not found"))).
Qed.

Lemma emitsOnly_dispatch (now : Z) (serverId : string) (message : json) :
  (∀ s, Q (Send s message)) → emitsOnly Q (dispatch now serverId message).
Proof.
  intros H. unfold dispatch.
  repeat destruct (strictEqStr _ _);
    first [ apply emitsOnly_handleHeartbeat
          | apply emitsOnly_handleServerRegister
          | by apply emitsOnly_handleTeleportRequest
          | unfold handleTeleportResponse;
            destruct (getProp "payload" message) as [[]|];
            first [ apply emitsOnly_throw | by apply emitsOnly_broadcastToAll ]
          | unfold handleStatusUpdate; destruct (strictEqStr _ _);
            first [ apply emitsOnly_skip | by apply emitsOnly_broadcastToAll ]
          | apply emitsOnly_skip ].
Qed.

Lemma emitsOnly_onMessage (now : Z) (ws : socket) (serverId : string)
    (data : frame) :
  (∀ s message, validateMessage now data = Valid message → Q (Send s message)) →
  emitsOnly Q (onMessage now ws serverId data).
Proof.
  intros H. unfold onMessage.
  destruct (validateMessage now data) as [message|error].
  - emits_step; [unfold logMessage; repeat emits_step|].
    emits_step; [unfold touchLastSeen; repeat emits_step|].
    apply emitsOnly_dispatch. intros s. by apply H.
  - emits_step. emits_step. by apply Q_relayMade.
Qed.

Lemma emitsOnly_onConnection (now : Z) (ws : socket) (req : headers) :
  (∀ reason, Q (CloseSocket ws 1008 reason)) →
  emitsOnly Q (onConnection now ws req).
Proof.
  intros H. unfold onConnection. cbv zeta.
  destruct (_ || _); [emits_step; [emits_step; apply H|emits_step]|].
  destruct (_ <? _)%nat; [emits_step; [emits_step; apply H|emits_step]|].
  emits_step; [emits_step|]. emits_step; [emits_step|].
  emits_step; [unfold publicView, lastSeenISO; repeat emits_step|].
  emits_step. emits_step; [emits_step; by apply Q_relayMade|].
  emits_step. emits_step; [|emits_step].
  apply emitsOnly_broadcastToAll. intros s. by apply Q_relayMade.
Qed.

End EmissionsOfHandlers.

(** X20: what a turn of the event loop emits, whether it returns or
    throws.  Every message sent is either one the relay made, naming
    the relay as sender and carrying its signature, or the inbound
    message of this very turn, which passed validation and is sent on as
    it came in; the relay sends nothing else and alters no message it
    forwards.  A socket is closed by the relay only when its connection
    request is rejected, with code 1008: never on a message, a tick of
    the reaper or an eviction. *)
Theorem relay_emits_only_its_own_and_valid_inbound_messages
    (P : Platform) (now : Z) (e : event) (w : World) :
  match step now e w with
  | Done _ _ out | Threw out => Forall (permitted now e) out
  end.
Proof.
  assert (H : emitsOnly (permitted now e) (step now e)).
  { assert (Hrelay : ∀ s m, relayMade m → permitted now e (Send s m))
      by (intros; by left).
    destruct e as [ws req|ws data|ws|ws| |ws st]; simpl.
    - emits_step; [emits_step|]. apply emitsOnly_onConnection; [done|].
      intros reason. split; [done|by exists req].
    - apply emitsOnly_bind; [emits_step|]. intros [serverId|]; [|emits_step].
      apply emitsOnly_onMessage; [done|]. intros s message Hv. right.
      exists ws. by pose proof (validateMessage_Valid now data message Hv) as ->.
    - emits_step; [emits_step|].
      apply emitsOnly_bind; [emits_step|]. intros [serverId|]; [|emits_step].
      emits_step; [emits_step|]. by apply emitsOnly_onClose.
    - apply emitsOnly_bind; [emits_step|]. intros [serverId|]; emits_step.
    - apply emitsOnly_reaper.
    - emits_step. }
  exact (H w).
Qed.


(** ** Sending to one server *)

(** X21: [sendToServer] tells the truth and changes nothing.  It
    returns [true] exactly when it has sent the message, once, on the
    open socket of the entry under the target id; it returns [false],
    having sent nothing, when there is no such entry or its socket is
    not open; and it throws, having sent nothing, only on an entry
    whose [ws] field is faulty. *)
Theorem sendToServer_reports_delivery
    (targetServerId : string) (message : json) (w : World) :
  match sendToServer targetServerId message w with
  | Done true w' out =>
      w' = w
      ∧ ∃ info s, Map_get targetServerId (connectedServers w) = Some info
                  ∧ ServerInfo.ws info = WSock s
                  ∧ readyStateOf s w = OPEN
                  ∧ out = [Send s message]
  | Done false w' out =>
      w' = w ∧ out = []
      ∧ (Map_get targetServerId (connectedServers w) = None
         ∨ ∃ info, Map_get targetServerId (connectedServers w) = Some info
                   ∧ probeHandle w (ServerInfo.ws info) = NotOpen)
  | Threw out =>
      out = []
      ∧ ∃ info, Map_get targetServerId (connectedServers w) = Some info
                ∧ faulty (ServerInfo.ws info) = true
  end.
Proof.
  unfold sendToServer. rewrite bind_gets.
  destruct (Map_get targetServerId (connectedServers w)) as [info|] eqn:Hget;
    simpl; [|by auto].
  rewrite bind_getWorld.
  destruct (probeHandle w (ServerInfo.ws info)) as [s| |] eqn:Hp; simpl.
  - split; [done|]. exists info, s. split; [done|].
    destruct (ServerInfo.ws info) as [h|v]; simpl in Hp.
    + destruct (Nat.eqb_spec (readyStateOf h w) OPEN); [|done].
      by injection Hp as ->.
    + destruct v; try done; by destruct (strictEqNum _ _).
  - split; [done|]. split; [done|]. right. by exists info.
  - split; [done|]. exists info. split; [done|]. by apply (probeHandle_faulty w).
Qed.

(** ** Admission into a registry with an undated entry *)

Lemma elem_of_Map_set_other (key : string) (value : ServerInfo) (m : Map)
    (id : string) (info : ServerInfo) :
  (id, info) ∈ m → id ≠ key → (id, info) ∈ Map_set key value m.
Proof.
  intros Hin Hne. induction m as [|[k v] m IH]; [by apply elem_of_nil in Hin|].
  simpl. apply elem_of_cons in Hin as [[= <- <-]|Hin].
  - apply String.eqb_neq in Hne as ->. apply list_elem_of_here.
  - destruct (String.eqb k key);
      apply list_elem_of_further; [done|by apply IH].
Qed.

(** The welcome list cannot be built when one of its entries holds no
    date. *)
Lemma mapM_publicView_undated (P : Platform) (l : list ServerInfo)
    (info : ServerInfo) (v : json) (w : World) :
  info ∈ l → ServerInfo.lastSeen info = TJson v →
  mapM publicView l w = Threw [].
Proof.
  intros Hin Hv. induction l as [|x l IH]; [by apply elem_of_nil in Hin|].
  simpl mapM. pose proof (publicView_eq x w) as Hview.
  destruct (publicViewOf x) as [view|] eqn:Hx.
  - apply elem_of_cons in Hin as [->|Hin].
    { unfold publicViewOf in Hx. by rewrite Hv in Hx. }
    rewrite (bind_Done_nil _ _ w w view Hview).
    by rewrite (bind_Threw _ _ w [] (IH Hin)).
  - by rewrite (bind_Threw _ _ w [] Hview).
Qed.

(** X22: an admission throws, before the welcome message is sent, when
    the registry holds an entry for another server whose [lastSeen] a
    registration replaced by a JSON value: the welcome list calls
    [toISOString] on it.  One [server_register] naming [lastSeen] thus
    ends the relay at the next connection. *)
Theorem admission_throws_on_an_undated_entry
    (P : Platform) (now : Z) (ws : socket) (req : headers)
    (auth serverId id : string) (info : ServerInfo) (v : json) (w : World) :
  authorization req = Some auth → auth ≠ "" →
  x_minegate_server_id req = Some serverId → serverId ≠ "" →
  (10 ≤ String.length (String_replace "Bearer " "" auth))%nat →
  (id, info) ∈ connectedServers w →
  id ≠ serverId →
  ServerInfo.serverId info ≠ JStr serverId →
  ServerInfo.lastSeen info = TJson v →
  step now (Connection ws req) w = Threw [].
Proof.
  intros Hauth Hauth' Hid Hid' Htoken Hin Hne Hfield Hv.
  unfold step. rewrite bind_modify.
  unfold onConnection. cbv zeta. rewrite Hauth, Hid. simpl.
  apply String.eqb_neq in Hauth' as ->. apply String.eqb_neq in Hid' as ->.
  simpl.
  destruct (Nat.ltb_spec (String.length (String_replace "Bearer " "" auth)) 10)
    as [?|_]; [lia|].
  rewrite bind_modify, bind_gets.
  match goal with
  | |- context [mapM publicView ?l] =>
      assert (Hl : info ∈ l)
  end.
  { unfold otherServers. apply list_elem_of_In, filter_In. split.
    - apply in_map_iff. exists (id, info). split; [done|].
      apply list_elem_of_In. simpl. by apply elem_of_Map_set_other.
    - apply negb_true_iff, strictEqStr_false. congruence. }
  rewrite (bind_Threw _ _ _ [] (mapM_publicView_undated P _ info v _ Hl Hv)).
  reflexivity.
Qed.

Lemma admission_throws_on_an_undated_entry_witness :
  (* A has registered a payload with [lastSeen] 0 *)
  ServerInfo.lastSeen <$> Map_get "A" (connectedServers Sample.afterTakeover)
  = Some (TJson (num 0))
  ∧ step (P := Demo.platform) (Sample.t0 + 1000)
         (Connection Sample.sockC (Sample.bearer "C")) Sample.afterTakeover
    = Threw [].
Proof.
  split; [reflexivity|].
  apply (admission_throws_on_an_undated_entry
           Demo.platform (Sample.t0 + 1000) Sample.sockC (Sample.bearer "C")
           "Bearer 0123456789abcdef" "C" "A"
           {| ServerInfo.serverId := JStr "B";
              ServerInfo.version := Some (JStr "1.0");
              ServerInfo.capabilities := JArr [JStr "teleport"; JStr "chat"];
              ServerInfo.connected := TDate (Sample.t0 - 1000);
              ServerInfo.lastSeen := TJson (num 0);
              ServerInfo.ws := WJson JNull;
              ServerInfo.others := ∅ |}
           (num 0) Sample.afterTakeover);
    [reflexivity|discriminate|reflexivity|discriminate|vm_compute; lia
    |apply Map_get_Some_elem; reflexivity
    |discriminate|discriminate|reflexivity].
Defined.


(** * Properties on every registry

    A [server_register] can overwrite the [ws] and the [lastSeen] of
    its sender's entry.  The properties of this part make no assumption
    on these fields: they say what a close, a [teleport_request], a
    tick of the reaper and an admission do on every registry, faulty
    entries included. *)

(** C1, as the code has it.  When a connection that was admitted as
    [serverId] closes, the relay deletes the entry under [serverId],
    whatever it holds, creates one signed [server_update] whose payload
    is the [leave] of [serverId], and sends it along the registry, to
    the entries whose socket is open, until it meets an entry whose
    [ws] field is faulty, where it throws.  When no remaining entry is
    faulty the turn returns, and the message has gone to exactly the
    remaining entries with an open socket.  The listeners of the socket
    are gone afterwards, so no later event on it removes or broadcasts
    again; the [error] listener does neither. *)
Theorem C1_close_removes_and_broadcasts_once
    (P : Platform) (now : Z) (ws : socket) (serverId : string) (w : World) :
  sessions w !! ws = Some serverId →
  let remaining := Map_delete serverId (connectedServers w) in
  let departMessage := relayMessage now (issued w) "server_update" "relay"
                                    "broadcast" (leavePayload serverId) in
  ∃ w',
    step now (Close ws) w
    = (if existsb (breaks None) remaining
       then Threw (sendEach departMessage (served w' None remaining))
       else Done () w' (sendEach departMessage (served w' None remaining)))
    ∧ connectedServers w' = remaining
    ∧ Map_get serverId (connectedServers w') = None
    ∧ issued w' = S (issued w)
    ∧ readyStateOf ws w' = CLOSED
    ∧ (∀ s, s ≠ ws → readyStateOf s w' = readyStateOf s w)
    ∧ getProp "type" departMessage = Some (JStr "server_update")
    ∧ getProp "from" departMessage = Some (JStr "relay")
    ∧ getProp "payload" departMessage
      = Some (JObj [("action", JStr "leave");
                    ("server", JObj [("serverId", JStr serverId);
                                     ("status", JStr "offline")])])
    ∧ signatureMatches departMessage
    ∧ (∀ s, s ∈ served w' None remaining
            ↔ ∃ id info, (id, info) ∈ beforeFault None remaining
                         ∧ openSocket w' info s)
    ∧ (∀ id info, (id, info) ∈ beforeFault None remaining →
                  (id, info) ∈ remaining)
    ∧ (faultless None remaining →
       step now (Close ws) w
       = Done () w' (sendEach departMessage (recipients w' None remaining))
       ∧ ∀ s, s ∈ recipients w' None remaining
              ↔ ∃ id info, (id, info) ∈ remaining ∧ openSocket w' info s)
    ∧ step now (Error ws) w = Done () w []
    ∧ sessions w' !! ws = None
    ∧ (∀ now' data, step now' (Message ws data) w' = Done () w' [])
    ∧ (∀ now', ∃ w'', step now' (Close ws) w' = Done () w'' []
                     ∧ connectedServers w'' = connectedServers w')
    ∧ (∀ now', step now' (Error ws) w' = Done () w' []).
Proof.
  intros Hs remaining departMessage.
  set (w1 := setSessions (delete ws) (setReadyState ws CLOSED w)).
  set (w' := nextIssued (setRegistry remaining w1)).
  assert (Hs' : sessions w' !! ws = None) by apply lookup_delete_eq.
  assert (Hstep : step now (Close ws) w
                  = if existsb (breaks None) remaining
                    then Threw (sendEach departMessage (served w' None remaining))
                    else Done () w' (sendEach departMessage
                                       (served w' None remaining))).
  { unfold step.
    rewrite (bind_Done _ _ w (setReadyState ws CLOSED w) () []) by done.
    rewrite (bind_Done _ _ _ (setReadyState ws CLOSED w) (Some serverId) [])
      by (unfold gets; simpl; by rewrite Hs).
    rewrite (bind_Done _ _ _ w1 () []) by done.
    unfold onClose.
    rewrite (bind_Done _ _ w1 (setRegistry remaining w1) () []) by done.
    rewrite (bind_Done _ _ _ w' departMessage [])
      by (by rewrite createMessage_eq).
    rewrite (broadcastToAll_served departMessage None w'). simpl.
    by destruct (existsb _ _). }
  assert (Hmember : ∀ m s, s ∈ recipients w' None m
                           ↔ ∃ id info, (id, info) ∈ m ∧ openSocket w' info s).
  { intros m s. rewrite elem_of_recipients_iff. split.
    - intros (id & info & ? & _ & ?). by exists id, info.
    - intros (id & info & ? & ?). by exists id, info. }
  exists w'. split; [exact Hstep|].
  split; [done|]. split; [apply Map_get_delete_eq|]. split; [done|].
  split; [unfold readyStateOf; simpl; by rewrite lookup_insert_eq|].
  split; [intros s Hne; unfold readyStateOf; simpl; by rewrite lookup_insert_ne|].
  do 3 (split; [done|]). split; [apply relayMessage_signed|].
  split; [apply served_all|].
  split; [intros id info; apply elem_of_beforeFault|].
  split.
  { intros Hok. split; [|apply Hmember].
    rewrite Hstep. destruct (faultless_no_break None remaining Hok) as [-> _].
    by rewrite served_faultless. }
  split.
  { unfold step, mbind, M_bind, gets, onError, skip. simpl. by rewrite Hs. }
  split; [done|].
  destruct (step_no_session P now ws w' Hs') as (_ & _ & _).
  split; [|split].
  - intros now' data. by apply (step_no_session P now' ws w' Hs').
  - intros now'. exists (setReadyState ws CLOSED w').
    split; [|done]. by apply (step_no_session P now' ws w' Hs').
  - intros now'. by apply (step_no_session P now' ws w' Hs').
Qed.

Lemma C1_close_removes_and_broadcasts_once_witness :
  (* the connection's own entry is in the registry *)
  (∃ w' m,
     step (P := Demo.platform) (Sample.t0 + 4000) (Close Sample.sockA)
          Sample.threeServers
     = Done () w' (sendEach m (recipients w' None (connectedServers w')))
     ∧ keys (connectedServers w') = ["B"; "C"])
  (* a later connection of the same server replaced the entry *)
  ∧ (∃ w' m,
       step (P := Demo.platform) (Sample.t0 + 4000) (Close Sample.sockA)
            Sample.reconnected
       = Done () w' (sendEach m (recipients w' None (connectedServers w')))
       ∧ keys (connectedServers w') = ["B"])
  (* the reaper took the entry *)
  ∧ (∃ w' m,
       step (P := Demo.platform) (Sample.t0 + 400000) (Close Sample.sockA)
            Sample.evicted
       = Done () w' (sendEach m (recipients w' None (connectedServers w')))
       ∧ keys (connectedServers w') = ["B"]).
Proof.
  split; [|split].
  - destruct (C1_close_removes_and_broadcasts_once
                Demo.platform (Sample.t0 + 4000) Sample.sockA "A"
                Sample.threeServers eq_refl)
      as (w' & _ & Hreg & _ & _ & _ & _ & _ & _ & _ & _ & _ & _ & Hok & _).
    destruct Hok as [Hstep _]; [by apply faultless_scan|].
    eexists w', _. rewrite Hreg. split; [exact Hstep|reflexivity].
  - destruct (C1_close_removes_and_broadcasts_once
                Demo.platform (Sample.t0 + 4000) Sample.sockA "A"
                Sample.reconnected eq_refl)
      as (w' & _ & Hreg & _ & _ & _ & _ & _ & _ & _ & _ & _ & _ & Hok & _).
    destruct Hok as [Hstep _]; [by apply faultless_scan|].
    eexists w', _. rewrite Hreg. split; [exact Hstep|reflexivity].
  - destruct (C1_close_removes_and_broadcasts_once
                Demo.platform (Sample.t0 + 400000) Sample.sockA "A"
                Sample.evicted eq_refl)
      as (w' & _ & Hreg & _ & _ & _ & _ & _ & _ & _ & _ & _ & _ & Hok & _).
    destruct Hok as [Hstep _]; [by apply faultless_scan|].
    eexists w', _. rewrite Hreg. split; [exact Hstep|reflexivity].
Defined.

(** C1 as stated fails on a registry in which a registration has
    replaced a [ws] field: B, A and C are connected and A has registered
    a payload with [ws] [null].  When B closes, the broadcast throws at
    the entry of A: C, whose socket is open, gets no [leave]. *)
Lemma C1_unplugged_entry_counterexample :
  keys (connectedServers Traffic.unplugged) = ["B"; "A"; "C"]
  ∧ ServerInfo.ws <$> Map_get "A" (connectedServers Traffic.unplugged)
    = Some (WJson JNull)
  ∧ ServerInfo.ws <$> Map_get "C" (connectedServers Traffic.unplugged)
    = Some (WSock Sample.sockC)
  ∧ readyStateOf Sample.sockC Traffic.unplugged = OPEN
  ∧ sessions Traffic.unplugged !! Sample.sockB = Some "B"
  ∧ step (P := Demo.platform) (Sample.t0 + 5000) (Close Sample.sockB)
         Traffic.unplugged
    = Threw [].
Proof. repeat split; reflexivity. Qed.

(** C4, as the code has it.  For a valid [teleport_request], by the
    entries the registry holds for the target and for the requester when
    the message arrives.  The log line first converts [to] to a string:
    if that throws, the listener throws and nothing is sent.  Otherwise,
    with [text] the string: a target with an open socket gets the
    request as it came in, and the relay creates nothing, whatever the
    requester's entry.  For a target that is absent, or present with a
    socket that is not open, the relay creates one signed
    [teleport_response] with status [failed] and code
    [SERVER_NOT_FOUND], or [TARGET_UNAVAILABLE], and sends it through the
    registry: on the requester's socket, and nowhere else, when the
    requester's entry has an open socket; to no one when the requester
    has no entry or its socket is not open.  On a faulty [ws] field, of
    the target or, with a reply to send, of the requester, the handler
    throws and nothing is sent. *)
Theorem C4_teleport_request_replies
    (P : Platform) (now : Z) (ws : socket) (serverId : string)
    (message : json) (w : World) :
  sessions w !! ws = Some serverId →
  validateMessage now (Some message) = Valid message →
  getProp "type" message = Some (JStr "teleport_request") →
  let target := Map_get_json (getProp "to" message) (connectedServers w) in
  let requester := Map_get serverId (connectedServers w) in
  let unreachable (entry : option ServerInfo) :=
    entry = None ∨ ∃ info, entry = Some info ∧ closedSocket w info in
  (template (getProp "to" message) = Throws →
   step now (Message ws (Some message)) w = Threw [])
  ∧ ∀ text,
  template (getProp "to" message) = Returns text →
  (∀ info t,
     target = Some info → openSocket w info t →
     ∃ w', step now (Message ws (Some message)) w = Done () w' [Send t message]
           ∧ issued w' = issued w)
  ∧ (∀ info,
       target = Some info → faulty (ServerInfo.ws info) = true →
       step now (Message ws (Some message)) w = Threw [])
  ∧ (∀ info h,
       requester = Some info → openSocket w info h →
       (target = None →
        ∃ w', step now (Message ws (Some message)) w
              = Done () w' [Send h (failedResponse now (issued w) serverId message
                                      "SERVER_NOT_FOUND" text " not found")]
              ∧ issued w' = S (issued w))
       ∧ (∀ targetInfo,
            target = Some targetInfo → closedSocket w targetInfo →
            ∃ w', step now (Message ws (Some message)) w
                  = Done () w' [Send h (failedResponse now (issued w) serverId
                                          message "TARGET_UNAVAILABLE" text
                                          " is not available")]
                  ∧ issued w' = S (issued w)))
  ∧ (unreachable requester → unreachable target →
     ∃ w', step now (Message ws (Some message)) w = Done () w' []
           ∧ issued w' = S (issued w))
  ∧ (∀ info,
       requester = Some info → faulty (ServerInfo.ws info) = true →
       unreachable target →
       step now (Message ws (Some message)) w = Threw [])
  ∧ (∀ code tail,
       getProp "type" (failedResponse now (issued w) serverId message code text tail)
       = Some (JStr "teleport_response")
       ∧ getProp "from" (failedResponse now (issued w) serverId message code text tail)
         = Some (JStr "relay")
       ∧ getProp "to" (failedResponse now (issued w) serverId message code text tail)
         = Some (JStr serverId)
       ∧ signatureMatches
           (failedResponse now (issued w) serverId message code text tail)
       ∧ ∃ payload,
           getProp "payload"
                   (failedResponse now (issued w) serverId message code text tail)
           = Some payload
           ∧ getProp "status" payload = Some (JStr "failed")
           ∧ getProp "error_code" payload = Some (JStr code)
           ∧ getProp "message" payload
             = Some (JStr ("Target server " +:+ text +:+ tail))
           ∧ getProp "request_id" payload = getProp "id" message).
Proof.
  intros Hs Hv Hty target requester unreachable.
  split.
  { apply (step_to_throws P now ws serverId message w "teleport_request");
      [done|done|by rewrite Hty]. }
  intros text Hto.
  pose proof (step_teleport_request P now ws serverId text message w
                Hs Hv Hty Hto) as Hstep.
  cbv zeta in Hstep. fold target requester in Hstep.
  assert (Hun : ∀ entry, unreachable entry →
            match ServerInfo.ws <$> entry with
            | None => True
            | Some h => probeHandle w h = NotOpen
            end).
  { intros entry [-> | (info & -> & Hc)]; [done|]. simpl.
    by apply probeHandle_NotOpen. }
  split; [|split; [|split; [|split; [|split]]]].
  - intros info t Ht Hopen. rewrite Hstep, Ht. simpl.
    apply probeHandle_IsOpen in Hopen as ->. by eexists.
  - intros info Ht Hf. rewrite Hstep, Ht. simpl.
    by apply (probeHandle_faulty w) in Hf as ->.
  - intros info h Hr Hopen. apply probeHandle_IsOpen in Hopen. split.
    + intros Ht. rewrite Hstep, Ht, Hr. simpl. rewrite Hopen. by eexists.
    + intros targetInfo Ht Hc. apply probeHandle_NotOpen in Hc.
      rewrite Hstep, Ht, Hr. simpl. rewrite Hc, Hopen. by eexists.
  - intros Hr Ht. apply Hun in Hr, Ht. rewrite Hstep.
    destruct (ServerInfo.ws <$> target) as [ht|]; rewrite ?Ht;
      destruct (ServerInfo.ws <$> requester) as [hr|]; rewrite ?Hr; by eexists.
  - intros info Hr Hf Ht. apply Hun in Ht. rewrite Hstep, Hr. simpl.
    apply (probeHandle_faulty w) in Hf as ->.
    destruct (ServerInfo.ws <$> target) as [ht|]; by rewrite ?Ht.
  - intros code tail. do 3 (split; [done|]).
    split; [apply relayMessage_signed|].
    eexists. split; [reflexivity|].
    unfold teleportFailure. by destruct (getProp "id" message).
Qed.

Lemma C4_teleport_request_replies_witness :
  (* the target Y is not in the registry *)
  (∃ w', step (P := Demo.platform) (Sample.t0 + 4000)
              (Message Sample.sockA (Some Sample.teleportToY)) Sample.threeServers
         = Done () w' [Send Sample.sockA
                         (failedResponse (P := Demo.platform) (Sample.t0 + 4000)
                            (issued Sample.threeServers) "A" Sample.teleportToY
                            "SERVER_NOT_FOUND" "Y" " not found")]
         ∧ issued w' = S (issued Sample.threeServers))
  (* the socket of the target C is closing *)
  ∧ (∃ w', step (P := Demo.platform) (Sample.t0 + 4000)
                (Message Sample.sockA (Some Sample.teleportToC)) Sample.threeServers
           = Done () w' [Send Sample.sockA
                           (failedResponse (P := Demo.platform) (Sample.t0 + 4000)
                              (issued Sample.threeServers) "A" Sample.teleportToC
                              "TARGET_UNAVAILABLE" "C" " is not available")]
           ∧ issued w' = S (issued Sample.threeServers))
  (* the socket of the target B is open *)
  ∧ (∃ w', step (P := Demo.platform) (Sample.t0 + 4000)
                (Message Sample.sockA (Some Sample.teleportToB)) Sample.threeServers
           = Done () w' [Send Sample.sockB Sample.teleportToB]
           ∧ issued w' = issued Sample.threeServers)
  (* the requester A has no entry and the target Z is not in the registry *)
  ∧ (∃ w', step (P := Demo.platform) (Sample.t0 + 400000)
                (Message Sample.sockA (Some Sample.teleportToZ)) Sample.evicted
           = Done () w' []
           ∧ issued w' = S (issued Sample.evicted))
  (* the [ws] field of the target A is [null] *)
  ∧ step (P := Demo.platform) (Sample.t0 + 5000)
         (Message Sample.sockB (Some Traffic.teleportBtoA)) Traffic.unplugged
    = Threw [].
Proof.
  assert (Hclosing : closedSocket Sample.threeServers
                       (Sample.entry "C" Sample.sockC (Sample.t0 + 2000))).
  { split; [reflexivity|]. intros s [[= <-] Hopen]. discriminate Hopen. }
  split; [|split; [|split; [|split]]].
  - destruct (C4_teleport_request_replies
                Demo.platform (Sample.t0 + 4000) Sample.sockA "A"
                Sample.teleportToY Sample.threeServers)
      as (_ & H); [reflexivity..|].
    destruct (H "Y") as (_ & _ & H' & _); [reflexivity|]. clear H. rename H' into H.
    destruct (H (Sample.entry "A" Sample.sockA Sample.t0) Sample.sockA)
      as [Habsent _]; [reflexivity|split; reflexivity|].
    apply Habsent. reflexivity.
  - destruct (C4_teleport_request_replies
                Demo.platform (Sample.t0 + 4000) Sample.sockA "A"
                Sample.teleportToC Sample.threeServers)
      as (_ & H); [reflexivity..|].
    destruct (H "C") as (_ & _ & H' & _); [reflexivity|]. clear H. rename H' into H.
    destruct (H (Sample.entry "A" Sample.sockA Sample.t0) Sample.sockA)
      as [_ Hclosed]; [reflexivity|split; reflexivity|].
    apply (Hclosed (Sample.entry "C" Sample.sockC (Sample.t0 + 2000)));
      [reflexivity|exact Hclosing].
  - destruct (C4_teleport_request_replies
                Demo.platform (Sample.t0 + 4000) Sample.sockA "A"
                Sample.teleportToB Sample.threeServers)
      as (_ & H); [reflexivity..|].
    destruct (H "B") as (H' & _); [reflexivity|]. clear H. rename H' into H.
    apply (H (Sample.entry "B" Sample.sockB (Sample.t0 + 1000)));
      [reflexivity|split; reflexivity].
  - destruct (C4_teleport_request_replies
                Demo.platform (Sample.t0 + 400000) Sample.sockA "A"
                Sample.teleportToZ Sample.evicted)
      as (_ & H); [reflexivity..|].
    destruct (H "Z") as (_ & _ & _ & H' & _); [reflexivity|]. clear H. rename H' into H.
    apply H; left; reflexivity.
  - destruct (C4_teleport_request_replies
                Demo.platform (Sample.t0 + 5000) Sample.sockB "B"
                Traffic.teleportBtoA Traffic.unplugged)
      as (_ & H); [reflexivity..|].
    destruct (H "A") as (_ & H' & _); [reflexivity|]. clear H. rename H' into H.
    eapply H; [reflexivity|reflexivity].
Defined.

(** C4 as stated fails when the requester's own entry is gone: A is
    connected, its socket is open and its listeners are installed, but
    the reaper has taken its entry.  Its valid [teleport_request] to a
    server that is not in the registry produces no message at all. *)
Lemma C4_evicted_requester_counterexample :
  sessions Sample.evicted !! Sample.sockA = Some "A"
  ∧ readyStateOf Sample.sockA Sample.evicted = OPEN
  ∧ validateMessage (P := Demo.platform) (Sample.t0 + 400000)
                    (Some Sample.teleportToZ)
    = Valid Sample.teleportToZ
  ∧ getProp "type" Sample.teleportToZ = Some (JStr "teleport_request")
  ∧ Map_get_json (getProp "to" Sample.teleportToZ)
                 (connectedServers Sample.evicted) = None
  ∧ ∃ w', step (P := Demo.platform) (Sample.t0 + 400000)
               (Message Sample.sockA (Some Sample.teleportToZ)) Sample.evicted
          = Done () w' [].
Proof.
  do 5 (split; [reflexivity|]). eexists. vm_compute. reflexivity.
Qed.

(** C6, as the code has it.  A tick of the reaper emits nothing, whether
    it returns or throws.  When every entry's [lastSeen] converts to a
    number (it always does while it is the date the relay stored), the
    tick returns and changes nothing but the registry, from which it
    removes exactly the stale entries: an entry remains, as it was, if
    and only if it was not stale.  An entry whose [lastSeen] is a date is
    stale when the date is more than five minutes before the tick: its
    key is no longer found; a key whose entry was seen within five
    minutes finds the entry it found before.  An entry whose [lastSeen]
    a registration replaced by a value that converts to NaN is never
    stale; and one whose [lastSeen] throws on conversion makes the tick
    throw. *)
Theorem C6_reaper_evicts_silently (P : Platform) (now : Z) (w : World) :
  match step now Tick w with Done _ _ out | Threw out => out = [] end
  ∧ (timed (connectedServers w) →
     ∃ w',
       step now Tick w = Done () w' []
       ∧ readyState w' = readyState w
       ∧ sessions w' = sessions w
       ∧ issued w' = issued w
       ∧ (∀ id info, (id, info) ∈ connectedServers w'
                     ↔ (id, info) ∈ connectedServers w
                       ∧ stale now info = Returns false)
       ∧ (∀ info t, ServerInfo.lastSeen info = TDate t →
                    stale now info = Returns (now - t >? 5 * 60 * 1000))
       ∧ (NoDup (keys (connectedServers w)) →
          ∀ id info t,
            Map_get id (connectedServers w) = Some info →
            ServerInfo.lastSeen info = TDate t →
            (now - t > 5 * 60 * 1000 → Map_get id (connectedServers w') = None)
            ∧ (now - t ≤ 5 * 60 * 1000 →
               Map_get id (connectedServers w') = Some info)))
  ∧ (∀ info x, lastSeenNumber info = Returns x →
               stale now info = Returns (elapsedOver now x (5 * 60 * 1000)))
  ∧ (∀ info, lastSeenNumber info = Returns NaN → stale now info = Returns false)
  ∧ (∀ id info, (id, info) ∈ connectedServers w →
                lastSeenNumber info = Throws →
                step now Tick w = Threw []).
Proof.
  assert (Hstep : step now Tick w
                  = match sweep now (connectedServers w) with
                    | Returns m' => Done () (setRegistry m' w) []
                    | Throws => Threw []
                    end).
  { unfold step, reaper. rewrite bind_gets.
    destruct (sweep now (connectedServers w)); [|done].
    by rewrite bind_eval_Returns. }
  split.
  { rewrite Hstep. by destruct (sweep now (connectedServers w)). }
  split; [|split; [|split]].
  - intros Htimed.
    destruct (sweep_timed P now (connectedServers w) Htimed) as (m' & Hsweep & Hin).
    exists (setRegistry m' w). rewrite Hstep, Hsweep.
    split; [done|]. do 3 (split; [done|]). split; [exact Hin|].
    split; [intros; by apply stale_date|].
    intros Hnd id info t Hget Ht. simpl.
    assert (Hnd' : NoDup (keys m')) by (by eapply NoDup_keys_swept).
    apply Map_get_Some_elem in Hget as Hmem.
    split; intros Hage.
    + apply Map_get_None. intros Hk.
      apply list_elem_of_fmap in Hk as ([k' v'] & -> & Hin').
      apply Hin in Hin' as [Hin' Hfresh]. simpl in *.
      apply (Map_get_elem _ _ _ Hnd) in Hin'.
      assert (v' = info) as -> by congruence.
      rewrite (stale_date P now t info Ht) in Hfresh.
      destruct (Z.gtb_spec (now - t) (5 * 60 * 1000)); [done|lia].
    + apply Map_get_elem; [done|]. apply Hin. split; [done|].
      rewrite (stale_date P now t info Ht).
      by destruct (Z.gtb_spec (now - t) (5 * 60 * 1000)); [lia|].
  - intros info x Hx. unfold stale. by rewrite Hx.
  - intros info Hnan. unfold stale. by rewrite Hnan.
  - intros id info Hin Hthrows.
    by rewrite Hstep, (sweep_throws P now _ id info Hin Hthrows).
Qed.

Lemma C6_reaper_evicts_silently_witness :
  NoDup (keys (connectedServers Sample.twoServers))
  ∧ Map_get "A" (connectedServers Sample.twoServers)
    = Some (Sample.entry "A" Sample.sockA Sample.t0)
  ∧ Map_get "B" (connectedServers Sample.twoServers)
    = Some (Sample.entry "B" Sample.sockB (Sample.t0 + 240000))
  ∧ ∃ w',
      step (P := Demo.platform) (Sample.t0 + 360000) Tick Sample.twoServers
      = Done () w' []
      ∧ Map_get "A" (connectedServers w') = None
      ∧ Map_get "B" (connectedServers w')
        = Some (Sample.entry "B" Sample.sockB (Sample.t0 + 240000)).
Proof.
  assert (Hnd : NoDup (keys (connectedServers Sample.twoServers))).
  { apply (bool_decide_unpack _). vm_compute. exact I. }
  split; [exact Hnd|]. split; [reflexivity|]. split; [reflexivity|].
  destruct (C6_reaper_evicts_silently
              Demo.platform (Sample.t0 + 360000) Sample.twoServers)
    as (_ & H & _).
  destruct H as (w' & Hstep & _ & _ & _ & _ & _ & Hget);
    [by apply timed_scan|].
  exists w'. split; [exact Hstep|]. split.
  - apply (Hget Hnd "A" (Sample.entry "A" Sample.sockA Sample.t0) Sample.t0);
      [reflexivity|reflexivity|reflexivity].
  - apply (Hget Hnd "B" (Sample.entry "B" Sample.sockB (Sample.t0 + 240000))
             (Sample.t0 + 240000));
      [reflexivity|reflexivity|discriminate].
Defined.

(** C6 as stated fails on an entry whose [lastSeen] a registration has
    replaced.  With the string of a date in 2020 in its place, the tick
    400 seconds later removes B and C and leaves A, as every later tick
    will.  With an object that has an own [toString] in its place, the
    tick throws at the entry of A: the entry of C, which comes after it
    and was last seen 398 seconds before, is not looked at. *)
Lemma C6_replaced_lastSeen_counterexample :
  ServerInfo.lastSeen
    <$> Map_get "A" (connectedServers (Traffic.registeredWith Traffic.datedByString))
  = Some (TJson (JStr "2020-01-01T00:00:00.000Z"))
  ∧ (∃ w', step (P := Demo.platform) (Sample.t0 + 400000) Tick
                (Traffic.registeredWith Traffic.datedByString)
           = Done () w' []
           ∧ keys (connectedServers w') = ["A"])
  ∧ keys (connectedServers (Traffic.registeredWith Traffic.datedByObject))
    = ["B"; "A"; "C"]
  ∧ Map_get "C" (connectedServers (Traffic.registeredWith Traffic.datedByObject))
    = Some (Sample.entry "C" Sample.sockC (Sample.t0 + 2000))
  ∧ step (P := Demo.platform) (Sample.t0 + 400000) Tick
         (Traffic.registeredWith Traffic.datedByObject)
    = Threw [].
Proof.
  split; [reflexivity|]. split; [eexists; split; reflexivity|].
  split; [reflexivity|]. split; reflexivity.
Qed.

(** C10, as the code has it.  On a successful admission (both headers
    non-empty, a token of at least ten characters) into a registry whose
    entries carry their key as [serverId] and a date as [lastSeen]: the
    new entry is stored under the server's id; the welcome [server_list]
    sent on the new socket lists exactly the public views (serverId,
    capabilities, lastSeen, status) of the entries stored under the
    other ids, in registry order; and the join [server_update] is then
    sent along the registry, to the entries under another id whose
    socket is open, until the broadcast meets an entry under another id
    whose [ws] field is faulty, where it throws.  When there is no such
    entry the turn returns, and the join has gone to exactly the
    entries under another id with an open socket. *)
Theorem C10_welcome_and_join
    (P : Platform) (now : Z) (ws : socket) (req : headers)
    (auth serverId : string) (w : World) :
  authorization req = Some auth → auth ≠ "" →
  x_minegate_server_id req = Some serverId → serverId ≠ "" →
  (10 ≤ String.length (String_replace "Bearer " "" auth))%nat →
  keyed (connectedServers w) →
  dated (connectedServers w) →
  ∃ w' info views welcome join,
    step now (Connection ws req) w
    = (if existsb (breaks (Some serverId)) (connectedServers w)
       then Threw (Send ws welcome
                     :: sendEach join (served w' (Some serverId)
                                              (connectedServers w')))
       else Done () w' (Send ws welcome
                          :: sendEach join (served w' (Some serverId)
                                                   (connectedServers w'))))
    ∧ connectedServers w' = Map_set serverId info (connectedServers w)
    ∧ ServerInfo.serverId info = JStr serverId
    ∧ ServerInfo.ws info = WSock ws
    ∧ ServerInfo.lastSeen info = TDate now
    ∧ readyStateOf ws w' = OPEN
    ∧ (∀ s, s ≠ ws → readyStateOf s w' = readyStateOf s w)
    ∧ welcome = relayMessage now (issued w) "server_list" "relay" serverId
                             (JObj [("servers", JArr views)])
    ∧ getProp "payload" welcome = Some (JObj [("servers", JArr views)])
    ∧ Forall2 (λ entry v, publicViewOf entry.2 = Some v)
              (Map_delete serverId (connectedServers w)) views
    ∧ join = relayMessage now (S (issued w)) "server_update" "relay" "broadcast"
                          (joinPayload now info)
    ∧ getProp "payload" join = Some (joinPayload now info)
    ∧ sessions w' !! ws = Some serverId
    ∧ (∀ s, s ∈ served w' (Some serverId) (connectedServers w')
            ↔ ∃ id other,
                (id, other) ∈ beforeFault (Some serverId) (connectedServers w')
                ∧ id ≠ serverId ∧ openSocket w' other s)
    ∧ (∀ id other,
         (id, other) ∈ beforeFault (Some serverId) (connectedServers w') →
         id ≠ serverId → (id, other) ∈ connectedServers w)
    ∧ (faultless (Some serverId) (connectedServers w) →
       step now (Connection ws req) w
       = Done () w' (Send ws welcome
                       :: sendEach join (recipients w' (Some serverId)
                                                    (connectedServers w')))
       ∧ ∀ s, s ∈ recipients w' (Some serverId) (connectedServers w')
              ↔ ∃ id other, (id, other) ∈ connectedServers w ∧ id ≠ serverId
                            ∧ openSocket w' other s).
Proof.
  intros Hauth Hauth' Hid Hid' Htoken Hkeyed Hdated.
  unfold step. rewrite bind_modify.
  unfold onConnection. cbv zeta. rewrite Hauth, Hid. simpl.
  apply String.eqb_neq in Hauth' as ->. apply String.eqb_neq in Hid' as ->.
  simpl.
  destruct (Nat.ltb_spec (String.length (String_replace "Bearer " "" auth)) 10) as [?|_]; [lia|].
  rewrite bind_modify.
  match goal with
  | |- context [Map_set serverId ?i _] => set (info := i)
  end.
  set (w1 := setRegistry (Map_set serverId info
                            (connectedServers (setReadyState ws OPEN w)))
                         (setReadyState ws OPEN w)).
  rewrite bind_gets.
  change (connectedServers w1)
    with (Map_set serverId info (connectedServers w)).
  rewrite otherServers_keyed by done.
  destruct (mapM_publicView (List.map snd (Map_delete serverId (connectedServers w))) w1)
    as (views & Hviews & Hall).
  { intros server Hin. apply list_elem_of_In, in_map_iff in Hin as ([id s] & <- & Hin).
    apply list_elem_of_In, elem_of_Map_delete in Hin as [Hin _]. by apply (Hdated id). }
  rewrite (bind_Done_nil _ _ _ _ _ Hviews).
  rewrite bind_createMessage, bind_emit, bind_createMessage.
  set (w3 := nextIssued (nextIssued w1)).
  set (welcome := relayMessage now (issued w1) "server_list" "relay" serverId _).
  set (join := relayMessage now (issued (nextIssued w1)) "server_update" "relay" "broadcast" _).
  set (w' := setSessions <[ws:=serverId]> w3).
  (* the entries a broadcast that excludes [serverId] looks at *)
  assert (Hothers : ∀ id other,
            (id, other) ∈ Map_set serverId info (connectedServers w)
            ∧ Some id ≠ Some serverId
            ↔ (id, other) ∈ connectedServers w ∧ id ≠ serverId).
  { intros id other. split.
    - intros [Hin Hne].
      assert (id ≠ serverId) by congruence. split; [|done].
      by apply elem_of_Map_set in Hin as [[= -> ->]|Hin].
    - intros [Hin Hne]. split; [|congruence].
      by apply elem_of_Map_set_other. }
  assert (Hbreaks : existsb (breaks (Some serverId))
                            (Map_set serverId info (connectedServers w))
                    = existsb (breaks (Some serverId)) (connectedServers w)).
  { clear. induction (connectedServers w) as [|[k v] m IH]; simpl.
    - unfold breaks. simpl. by rewrite bool_decide_eq_true_2.
    - destruct (String.eqb_spec k serverId) as [->|Hne]; simpl.
      + unfold breaks. simpl. by rewrite !bool_decide_eq_true_2.
      + by rewrite IH. }
  assert (Hb : broadcastToAll join (Some serverId) w3
               = if existsb (breaks (Some serverId)) (connectedServers w)
                 then Threw (sendEach join (served w' (Some serverId)
                                                   (connectedServers w')))
                 else Done () w3 (sendEach join (served w' (Some serverId)
                                                        (connectedServers w')))).
  { rewrite broadcastToAll_served.
    change (connectedServers w3)
      with (Map_set serverId info (connectedServers w)).
    by rewrite Hbreaks. }
  assert (Hmember : ∀ s, s ∈ recipients w' (Some serverId) (connectedServers w')
                         ↔ ∃ id other, (id, other) ∈ connectedServers w
                                       ∧ id ≠ serverId ∧ openSocket w' other s).
  { intros s. rewrite elem_of_recipients_iff. simpl connectedServers. split.
    - intros (id & other & Hin & Hne & Hopen).
      exists id, other. destruct (Hothers id other) as [H _].
      destruct H as [? ?]; done.
    - intros (id & other & Hin & Hne & Hopen).
      exists id, other. destruct (Hothers id other) as [_ H].
      destruct H as [? ?]; done. }
  exists w', info, views, welcome, join.
  split.
  { destruct (existsb (breaks (Some serverId)) (connectedServers w)).
    - by rewrite (bind_Threw _ _ _ _ Hb).
    - rewrite (bind_Done _ _ _ _ _ _ Hb). simpl. by rewrite app_nil_r. }
  do 4 (split; [done|]).
  split; [unfold readyStateOf; simpl; by rewrite lookup_insert_eq|].
  split; [intros s Hne; unfold readyStateOf; simpl; by rewrite lookup_insert_ne|].
  do 2 (split; [done|]).
  split.
  { clear -Hall. revert views Hall.
    induction (Map_delete serverId (connectedServers w)) as [|e l IH];
      intros views H; inversion H; subst; constructor; auto. }
  do 2 (split; [done|]).
  split; [apply lookup_insert_eq|].
  split; [apply served_others|].
  split.
  { intros id other Hin Hne. apply elem_of_beforeFault in Hin.
    destruct (Hothers id other) as [H _]. destruct H as [? ?]; [|done].
    split; [done|congruence]. }
  intros Hok. split; [|exact Hmember].
  assert (Hok' : faultless (Some serverId) (connectedServers w'))
    by (by apply faultless_Map_set).
  destruct (faultless_no_break _ _ Hok) as [Hno _].
  rewrite Hno in Hb. rewrite (bind_Done _ _ _ _ _ _ Hb). simpl.
  by rewrite app_nil_r, served_faultless.
Qed.

Lemma C10_welcome_and_join_witness :
  ∃ w' views welcome join,
    step (P := Demo.platform) (Sample.t0 + 300000)
         (Connection Sample.sockC (Sample.bearer "C")) Sample.twoServers
    = Done () w' (Send Sample.sockC welcome
                    :: sendEach join (recipients w' (Some "C")
                                                 (connectedServers w')))
    ∧ welcome = relayMessage (P := Demo.platform) (Sample.t0 + 300000)
                             (issued Sample.twoServers) "server_list" "relay" "C"
                             (JObj [("servers", JArr views)])
    ∧ Forall2 (λ entry v, publicViewOf (P := Demo.platform) entry.2 = Some v)
              (connectedServers Sample.twoServers) views
    ∧ keys (connectedServers w') = ["A"; "B"; "C"].
Proof.
  destruct (C10_welcome_and_join
              Demo.platform (Sample.t0 + 300000) Sample.sockC (Sample.bearer "C")
              "Bearer 0123456789abcdef" "C" Sample.twoServers)
    as (w' & info & views & welcome & join & _ & Hreg & _ & _ & _ & _ & _
        & Hwelcome & _ & Hviews & _ & _ & _ & _ & _ & Hok);
    [reflexivity|discriminate|reflexivity|discriminate|vm_compute; lia
    |by apply keyed_scan|by apply dated_scan|].
  destruct Hok as [Hstep _]; [by apply faultless_scan|].
  exists w', views, welcome, join.
  split; [exact Hstep|]. split; [exact Hwelcome|]. split; [exact Hviews|].
  rewrite Hreg. reflexivity.
Defined.

(** C10 as stated fails when an entry no longer carries its key: B is
    connected and has registered a payload with [serverId] A.  When A is
    admitted, the registry holds the entry of B, yet the welcome list
    sent to A is empty. *)
Lemma C10_renamed_entry_counterexample :
  keys (connectedServers Sample.renamedB) = ["B"]
  ∧ ∃ w' welcome join,
      step (P := Demo.platform) (Sample.t0 + 1000)
           (Connection Sample.sockA (Sample.bearer "A")) Sample.renamedB
      = Done () w' [Send Sample.sockA welcome; Send Sample.sockB join]
      ∧ getProp "payload" welcome = Some (JObj [("servers", JArr [])])
      ∧ keys (connectedServers w') = ["B"; "A"].
Proof.
  split; [reflexivity|]. eexists _, _, _.
  split; [vm_compute; reflexivity|]. split; reflexivity.
Qed.
